(** * Half-Atwood inquiry simulation: the physics core, verified

    A shallow embedding of [src/halfAtwoodPhysics.js] and
    [src/resonancePhysics.js], and the properties their specification states;
    then of the state handling of the two pages that call them ([app.js]),
    with the properties the code itself shows.

    Number model.  A JavaScript number is an IEEE-754 double.  The
    specification reasons in exact arithmetic ("closed-form match", "within
    floating tolerance"), so a number is modelled here as a real number of
    [R]: rounding, overflow, signed zeros and the non-finite values (NaN, the
    infinities) are outside the model.  One effect of double precision
    changes results the pages can show and is modelled: [Math.exp] underflows
    to exactly 0 ([JsMath.exp]).  The only operation of the source that can
    leave the finite numbers from finite operands is a division by zero;
    every division of [halfAtwoodPhysics.js] sits under a guard that makes
    its divisor positive, and the theorems about [resonancePhysics.js] are
    stated where the divisor is not zero. *)

From Stdlib Require Import Reals Lra Bool String List ZArith Lia.
Import ListNotations.

Local Open Scope R_scope.

(** ** JavaScript comparison operators on numbers, as booleans *)

Module JsNum.

(** [x <= y] *)
Definition leb (x y : R) : bool := if Rle_dec x y then true else false.

(** [x > y] *)
Definition gtb (x y : R) : bool := if Rlt_dec y x then true else false.

(** [x >= y] *)
Definition geb (x y : R) : bool := if Rle_dec y x then true else false.

(** [x === y] *)
Definition eqb (x y : R) : bool := if Req_dec_T x y then true else false.

End JsNum.

Infix "<=?" := JsNum.leb (at level 70) : R_scope.
Infix ">?" := JsNum.gtb (at level 70) : R_scope.
Infix ">=?" := JsNum.geb (at level 70) : R_scope.
Infix "=?" := JsNum.eqb (at level 70) : R_scope.

(** ** [Math.exp] on doubles

    The smallest positive double is [2^-1074]; a value below [2^-1075] rounds
    to 0.  So [Math.exp(x)] is exactly 0 for every [x] below
    [ln (2^-1075) = -1075 ln 2], about -745.13; above it the result is the
    exponential (rounded, which the model leaves out).  The overflow of
    [Math.exp], above about 709.78, is not modelled: the one caller passes an
    exponent that is never positive. *)

Module JsMath.

Definition underflow : R := -1075 * ln 2.

Definition exp (x : R) : R :=
  if underflow >? x then 0 else Rtrigo_def.exp x.

End JsMath.

(** ** halfAtwoodPhysics.js *)

Module HalfAtwood.

Definition VELOCITY_EPSILON : R := 1e-4.

(** [Math.min(max, Math.max(min, value))] *)
Definition clamp (value min max : R) : R := Rmin max (Rmax min value).

Inductive Mode : Set := frictionless | kinetic | static_hold.

(** Input and result objects of [calculateHalfAtwoodFromRest]. *)
Module Rest.
Record Input : Type := mkInput {
  massTableKg : R;
  massHangingKg : R;
  mu : R;
  frictionEnabled : bool;
  gravity : R;
  targetDistanceM : R
}.

Record Result : Type := mkResult {
  accelerationMps2 : R;
  tensionN : R;
  frictionN : R;
  netForceN : R;
  driveForceN : R;
  moved : bool;
  timeToTargetS : option R;   (* [null] is [None] *)
  mode : Mode
}.
End Rest.

(** Input and result objects of [resolveDynamicForces]. *)
Module Dyn.
Record Input : Type := mkInput {
  massTableKg : R;
  massHangingKg : R;
  mu : R;
  frictionEnabled : bool;
  gravity : R;
  velocityMps : R
}.

Record Result : Type := mkResult {
  accelerationMps2 : R;
  tensionN : R;
  frictionSignedN : R;
  frictionMagnitudeN : R;
  netForceN : R;
  driveForceN : R;
  mode : Mode
}.
End Dyn.

Definition calculateHalfAtwoodFromRest (input : Rest.Input) : Rest.Result :=
  let massTableKg := Rmax 0 (Rest.massTableKg input) in
  let massHangingKg := Rmax 0 (Rest.massHangingKg input) in
  let gravity := Rmax 0 (Rest.gravity input) in
  let mu := Rmax 0 (Rest.mu input) in
  let targetDistanceM := Rmax 0 (Rest.targetDistanceM input) in
  let totalMassKg := massTableKg + massHangingKg in
  let driveForceN := massHangingKg * gravity in
  if totalMassKg <=? 0 then
    {| Rest.accelerationMps2 := 0;
       Rest.tensionN := 0;
       Rest.frictionN := 0;
       Rest.netForceN := 0;
       Rest.driveForceN := driveForceN;
       Rest.moved := false;
       Rest.timeToTargetS := None;
       Rest.mode := static_hold |}
  else if negb (Rest.frictionEnabled input) || (mu =? 0) then
    let accelerationMps2 := driveForceN / totalMassKg in
    let tensionN := massHangingKg * (gravity - accelerationMps2) in
    let timeToTargetS :=
      if (accelerationMps2 >? 0) && (targetDistanceM >? 0)
      then Some (sqrt ((2 * targetDistanceM) / accelerationMps2))
      else None in
    {| Rest.accelerationMps2 := accelerationMps2;
       Rest.tensionN := tensionN;
       Rest.frictionN := 0;
       Rest.netForceN := driveForceN;
       Rest.driveForceN := driveForceN;
       Rest.moved := accelerationMps2 >? 0;
       Rest.timeToTargetS := timeToTargetS;
       Rest.mode := frictionless |}
  else
    let frictionN := mu * massTableKg * gravity in
    if driveForceN <=? frictionN then
      {| Rest.accelerationMps2 := 0;
         Rest.tensionN := driveForceN;
         Rest.frictionN := driveForceN;
         Rest.netForceN := 0;
         Rest.driveForceN := driveForceN;
         Rest.moved := false;
         Rest.timeToTargetS := None;
         Rest.mode := static_hold |}
    else
      let netForceN := driveForceN - frictionN in
      let accelerationMps2 := netForceN / totalMassKg in
      let tensionN := massHangingKg * (gravity - accelerationMps2) in
      let timeToTargetS :=
        if (accelerationMps2 >? 0) && (targetDistanceM >? 0)
        then Some (sqrt ((2 * targetDistanceM) / accelerationMps2))
        else None in
      {| Rest.accelerationMps2 := accelerationMps2;
         Rest.tensionN := tensionN;
         Rest.frictionN := frictionN;
         Rest.netForceN := netForceN;
         Rest.driveForceN := driveForceN;
         Rest.moved := accelerationMps2 >? 0;
         Rest.timeToTargetS := timeToTargetS;
         Rest.mode := kinetic |}.

Definition resolveDynamicForces (input : Dyn.Input) : Dyn.Result :=
  let massTableKg := Rmax 0 (Dyn.massTableKg input) in
  let massHangingKg := Rmax 0 (Dyn.massHangingKg input) in
  let gravity := Rmax 0 (Dyn.gravity input) in
  let mu := Rmax 0 (Dyn.mu input) in
  let totalMassKg := massTableKg + massHangingKg in
  let driveForceN := massHangingKg * gravity in
  if totalMassKg <=? 0 then
    {| Dyn.accelerationMps2 := 0;
       Dyn.tensionN := 0;
       Dyn.frictionSignedN := 0;
       Dyn.frictionMagnitudeN := 0;
       Dyn.netForceN := 0;
       Dyn.driveForceN := driveForceN;
       Dyn.mode := static_hold |}
  else if negb (Dyn.frictionEnabled input) || (mu =? 0) then
    let accelerationMps2 := driveForceN / totalMassKg in
    {| Dyn.accelerationMps2 := accelerationMps2;
       Dyn.tensionN := massHangingKg * (gravity - accelerationMps2);
       Dyn.frictionSignedN := 0;
       Dyn.frictionMagnitudeN := 0;
       Dyn.netForceN := driveForceN;
       Dyn.driveForceN := driveForceN;
       Dyn.mode := frictionless |}
  else
    let kineticMagnitudeN := mu * massTableKg * gravity in
    let speed := Dyn.velocityMps input in
    if Rabs speed <=? VELOCITY_EPSILON then
      if driveForceN <=? kineticMagnitudeN then
        {| Dyn.accelerationMps2 := 0;
           Dyn.tensionN := driveForceN;
           Dyn.frictionSignedN := - driveForceN;
           Dyn.frictionMagnitudeN := driveForceN;
           Dyn.netForceN := 0;
           Dyn.driveForceN := driveForceN;
           Dyn.mode := static_hold |}
      else
        let netForceN := driveForceN - kineticMagnitudeN in
        let accelerationMps2 := netForceN / totalMassKg in
        {| Dyn.accelerationMps2 := accelerationMps2;
           Dyn.tensionN := massHangingKg * (gravity - accelerationMps2);
           Dyn.frictionSignedN := - kineticMagnitudeN;
           Dyn.frictionMagnitudeN := kineticMagnitudeN;
           Dyn.netForceN := netForceN;
           Dyn.driveForceN := driveForceN;
           Dyn.mode := kinetic |}
    else
      let frictionSignedN :=
        if speed >? 0 then - kineticMagnitudeN else kineticMagnitudeN in
      let netForceN := driveForceN + frictionSignedN in
      let accelerationMps2 := netForceN / totalMassKg in
      {| Dyn.accelerationMps2 := accelerationMps2;
         Dyn.tensionN := massHangingKg * (gravity - accelerationMps2);
         Dyn.frictionSignedN := frictionSignedN;
         Dyn.frictionMagnitudeN := kineticMagnitudeN;
         Dyn.netForceN := netForceN;
         Dyn.driveForceN := driveForceN;
         Dyn.mode := kinetic |}.

End HalfAtwood.

(** ** resonancePhysics.js *)

Module Resonance.

Definition END_CORRECTION_FACTOR : R := 0.3.

Definition speedOfSoundFromTemp (tempC : R) : R := 331 + 0.6 * tempC.

Module Length.
Record Input : Type := mkInput {
  frequencyHz : R;
  speedMps : R;
  tubeDiameterM : R
}.
End Length.

Module Speed.
Record Input : Type := mkInput {
  frequencyHz : R;
  airLengthM : R;
  tubeDiameterM : R
}.
End Speed.

Module Strength.
Record Input : Type := mkInput {
  airLengthM : R;
  targetLengthM : R;
  bandwidthM : option R   (* an absent (or null) field is [None] *)
}.
End Strength.

Definition firstHarmonicAirLengthM (input : Length.Input) : R :=
  let effectiveLengthM :=
    Length.speedMps input / (4 * Length.frequencyHz input) in
  effectiveLengthM - END_CORRECTION_FACTOR * Length.tubeDiameterM input.

Definition inferredSpeedMps (input : Speed.Input) : R :=
  4 * Speed.frequencyHz input
    * (Speed.airLengthM input + END_CORRECTION_FACTOR * Speed.tubeDiameterM input).

Definition resonanceStrength (input : Strength.Input) : R :=
  let bandwidthM :=
    match Strength.bandwidthM input with   (* [??] *)
    | Some supplied => supplied
    | None => Rmax 0.008 (Strength.targetLengthM input * 0.06)
    end in
  let delta := Strength.airLengthM input - Strength.targetLengthM input in
  let exponent := - (delta * delta) / (2 * bandwidthM * bandwidthM) in
  JsMath.exp exponent.

Inductive Css : Set := good | ok | low.

Record Band : Type := mkBand {
  label : string;
  accepted : bool;
  css : Css
}.

Definition qualityBand (strength : R) : Band :=
  if strength >=? 0.94 then
    {| label := "High"; accepted := true; css := good |}
  else if strength >=? 0.8 then
    {| label := "Fair"; accepted := false; css := ok |}
  else
    {| label := "Off peak"; accepted := false; css := low |}.

End Resonance.

(** ** app.js: the resonance-tube page

    The page keeps its data in one [state] object; the functions below are
    modelled by what they do to it.  What they write to the document, the
    canvas and the audio output, and the timers they start, is outside the
    model.  [Math.random()] is an argument of the function that calls it. *)

Module ResonanceApp.

Definition FORK_FREQUENCIES_HZ : list R :=
  [256; 288; 320; 341; 384; 426; 480; 512; 640; 768].
Definition AIR_LENGTH_MIN_M : R := 0.08.
Definition AIR_LENGTH_MAX_M : R := 0.95.
Definition PIPE_STEP_M : R := 0.004.
Definition TUBE_DIAMETER_M : R := 0.04.
Definition ROOM_TEMP_C : R := 20.
Definition REFERENCE_SPEED_MPS : R := Resonance.speedOfSoundFromTemp ROOM_TEMP_C.
Definition TARGET_MAX_THRESHOLD : R := 0.985.
Definition MEASUREMENT_NOISE_M : R := 0.0015.

Definition clamp (value min max : R) : R := Rmin max (Rmax min value).

(** [Math.round]: the nearest integer, a tie going up. *)
Definition round (x : R) : R := IZR (Int_part (x + 0.5)).

Inductive Tone : Set := default | warn.

(** A row of [state.records]. *)
Module Trial.
Record Row : Type := mkRow {
  id : Z;
  frequencyHz : R;
  lengthM : R;
  speedMps : R;
  accepted : bool;
  qualityLabel : string;
  qualityCss : Resonance.Css
}.
End Trial.

Module St.
Record State : Type := mkState {
  frequencyHz : R;
  airLengthM : R;
  predictionM : option R;
  hintsEnabled : bool;
  toneEnabled : bool;
  toneStarted : bool;
  foundMaximum : bool;
  transientStatus : option (string * Tone);
  records : list Trial.Row;
  nextRecordId : Z
}.
End St.

Definition initialState : St.State :=
  St.mkState 384 0.23 None false false false false None [] 1.

Record Derived : Type := mkDerived {
  targetLengthM : R;
  strength : R;
  quality : Resonance.Band;
  atMaximum : bool;
  instantSpeedMps : R
}.

Definition getDerivedState (state : St.State) : Derived :=
  let unclampedTarget :=
    Resonance.firstHarmonicAirLengthM
      (Resonance.Length.mkInput (St.frequencyHz state) REFERENCE_SPEED_MPS
         TUBE_DIAMETER_M) in
  let targetLengthM := clamp unclampedTarget AIR_LENGTH_MIN_M AIR_LENGTH_MAX_M in
  let strength :=
    Resonance.resonanceStrength
      (Resonance.Strength.mkInput (St.airLengthM state) targetLengthM
         (Some (Rmax 0.008 (targetLengthM * 0.055)))) in
  let quality := Resonance.qualityBand strength in
  {| targetLengthM := targetLengthM;
     strength := strength;
     quality := quality;
     atMaximum := strength >=? TARGET_MAX_THRESHOLD;
     instantSpeedMps :=
       Resonance.inferredSpeedMps
         (Resonance.Speed.mkInput (St.frequencyHz state) (St.airLengthM state)
            TUBE_DIAMETER_M) |}.

(** [render]: its one write to [state], the latch [foundMaximum]. *)
Definition render (state : St.State) : St.State :=
  let derived := getDerivedState state in
  if St.toneEnabled state && atMaximum derived then
    St.mkState (St.frequencyHz state) (St.airLengthM state)
      (St.predictionM state) (St.hintsEnabled state) (St.toneEnabled state)
      (St.toneStarted state) true (St.transientStatus state)
      (St.records state) (St.nextRecordId state)
  else state.

Definition setAirLength (lengthM : R) (state : St.State) : St.State :=
  render
    (St.mkState (St.frequencyHz state)
       (clamp lengthM AIR_LENGTH_MIN_M AIR_LENGTH_MAX_M)
       (St.predictionM state) (St.hintsEnabled state) (St.toneEnabled state)
       (St.toneStarted state) (St.foundMaximum state)
       (St.transientStatus state) (St.records state) (St.nextRecordId state)).

Definition setFrequency (frequencyHz : R) (state : St.State) : St.State :=
  render
    (St.mkState (clamp (round frequencyHz) 220 800) (St.airLengthM state)
       (St.predictionM state) (St.hintsEnabled state) (St.toneEnabled state)
       (St.toneStarted state) (St.foundMaximum state)
       (St.transientStatus state) (St.records state) (St.nextRecordId state)).

(** [showTransientStatus], without the timer that clears the status later. *)
Definition showTransientStatus (message : string) (tone : Tone)
    (state : St.State) : St.State :=
  St.mkState (St.frequencyHz state) (St.airLengthM state)
    (St.predictionM state) (St.hintsEnabled state) (St.toneEnabled state)
    (St.toneStarted state) (St.foundMaximum state) (Some (message, tone))
    (St.records state) (St.nextRecordId state).

(** [recordTrial]; [random] is the value of [Math.random()]. *)
Definition recordTrial (random : R) (state : St.State) : St.State :=
  let derived := getDerivedState state in
  let noise := (random * 2 - 1) * MEASUREMENT_NOISE_M in
  let measuredLengthM :=
    clamp (St.airLengthM state + noise) AIR_LENGTH_MIN_M AIR_LENGTH_MAX_M in
  let speedMps :=
    Resonance.inferredSpeedMps
      (Resonance.Speed.mkInput (St.frequencyHz state) measuredLengthM
         TUBE_DIAMETER_M) in
  let row :=
    {| Trial.id := St.nextRecordId state;
       Trial.frequencyHz := St.frequencyHz state;
       Trial.lengthM := measuredLengthM;
       Trial.speedMps := speedMps;
       Trial.accepted := Resonance.accepted (quality derived);
       Trial.qualityLabel := Resonance.label (quality derived);
       Trial.qualityCss := Resonance.css (quality derived) |} in
  let state1 :=
    St.mkState (St.frequencyHz state) (St.airLengthM state)
      (St.predictionM state) (St.hintsEnabled state) (St.toneEnabled state)
      (St.toneStarted state) (St.foundMaximum state)
      (St.transientStatus state) (row :: St.records state)
      (St.nextRecordId state + 1)%Z in
  let state2 :=
    if negb (Resonance.accepted (quality derived)) then
      showTransientStatus
        "Trial recorded, but quality is low. Try again nearer the maximum for accepted data."
        warn state1
    else
      showTransientStatus
        "Accepted trial recorded. Change frequency and collect the next resonance point."
        default state1 in
  render state2.

(** [initialize]: the pipe starts at nine tenths of the target length. *)
Definition initialize : St.State :=
  let initialTarget :=
    Resonance.firstHarmonicAirLengthM
      (Resonance.Length.mkInput (St.frequencyHz initialState)
         REFERENCE_SPEED_MPS TUBE_DIAMETER_M) in
  let state1 :=
    setAirLength (clamp (initialTarget * 0.9) AIR_LENGTH_MIN_M AIR_LENGTH_MAX_M)
      initialState in
  setFrequency (St.frequencyHz state1) state1.

(** What [bindEvents] registers, and the timer of [showTransientStatus].
    Each event carries what its handler reads from the document; [random] is
    the value of [Math.random()].  The tone handler tests [state.toneEnabled],
    awaits the audio output and only then writes: the value it tested
    ([enabledAtClick]) and the answer of the audio output ([audioOk]) are
    arguments, since other handlers may run while it waits. *)
Inductive Event : Type :=
| FrequencySelected (frequencyHz : R)
| FrequencySlid (frequencyHz : R)
| AirLengthSlid (lengthM : R)
| PipeUpClicked
| PipeDownClicked
| PredictionChanged (parsed : option R)   (* [None]: not a finite number *)
| HintToggled (checked : bool)
| ToneClicked (enabledAtClick audioOk : bool)
| RecordClicked (random : R)
| ClearClicked
| Resized
| StatusTimeout.

Definition handle (event : Event) (state : St.State) : St.State :=
  match event with
  | FrequencySelected frequencyHz => setFrequency frequencyHz state
  | FrequencySlid frequencyHz => setFrequency frequencyHz state
  | AirLengthSlid lengthM => setAirLength lengthM state
  | PipeUpClicked => setAirLength (St.airLengthM state - PIPE_STEP_M) state
  | PipeDownClicked => setAirLength (St.airLengthM state + PIPE_STEP_M) state
  | PredictionChanged parsed =>
      render
        (St.mkState (St.frequencyHz state) (St.airLengthM state)
           (match parsed with
            | Some value => if value >? 0 then Some value else None
            | None => None
            end)
           (St.hintsEnabled state) (St.toneEnabled state)
           (St.toneStarted state) (St.foundMaximum state)
           (St.transientStatus state) (St.records state)
           (St.nextRecordId state))
  | HintToggled checked =>
      render
        (St.mkState (St.frequencyHz state) (St.airLengthM state)
           (St.predictionM state) checked (St.toneEnabled state)
           (St.toneStarted state) (St.foundMaximum state)
           (St.transientStatus state) (St.records state)
           (St.nextRecordId state))
  | ToneClicked enabledAtClick audioOk =>
      if enabledAtClick then
        render
          (St.mkState (St.frequencyHz state) (St.airLengthM state)
             (St.predictionM state) (St.hintsEnabled state) false
             (St.toneStarted state) (St.foundMaximum state)
             (St.transientStatus state) (St.records state)
             (St.nextRecordId state))
      else if negb audioOk then
        showTransientStatus
          "This browser does not support Web Audio. Use a modern browser for sound playback."
          warn state
      else
        render
          (St.mkState (St.frequencyHz state) (St.airLengthM state)
             (St.predictionM state) (St.hintsEnabled state) true true
             (St.foundMaximum state) (St.transientStatus state)
             (St.records state) (St.nextRecordId state))
  | RecordClicked random =>
      if negb (St.toneStarted state) then
        showTransientStatus
          "Start the tone first so you can locate resonance before recording."
          warn state
      else recordTrial random state
  | ClearClicked =>
      render
        (St.mkState (St.frequencyHz state) (St.airLengthM state)
           (St.predictionM state) (St.hintsEnabled state)
           (St.toneEnabled state) (St.toneStarted state)
           (St.foundMaximum state) (St.transientStatus state) [] 1%Z)
  | Resized => render state
  | StatusTimeout =>
      render
        (St.mkState (St.frequencyHz state) (St.airLengthM state)
           (St.predictionM state) (St.hintsEnabled state)
           (St.toneEnabled state) (St.toneStarted state)
           (St.foundMaximum state) None (St.records state)
           (St.nextRecordId state))
  end.

(** The states the page can be in: after [initialize], then after any
    events. *)
Inductive Reachable : St.State -> Prop :=
| reach_init : Reachable initialize
| reach_step (event : Event) (state : St.State) :
    Reachable state -> Reachable (handle event state).

End ResonanceApp.

(** ** app.js: the half-Atwood page

    The page keeps its data in the [state] object and the [sceneLayout]
    variable, here the two fields of a [World]; the functions below are
    modelled by what they do to them.  Drawing, the status line, the
    readouts and the scheduling of the next animation frame are outside the
    model.  The size of the canvas, read from the document, is an argument of
    the functions that render the scene. *)

Module HalfAtwoodApp.

Definition GRAVITY_MPS2 : R := 10.

(** [x < y] *)
Definition ltb (x y : R) : bool := if Rlt_dec x y then true else false.

(** [mode === "static_hold"] *)
Definition isStaticHold (mode : HalfAtwood.Mode) : bool :=
  match mode with
  | HalfAtwood.static_hold => true
  | _ => false
  end.

(** A row of [state.records]. *)
Module Trial.
Record Row : Type := mkRow {
  id : Z;
  massTableKg : R;
  massHangingKg : R;
  mu : R;
  accel : R;
  tension : R;
  moved : bool
}.
End Trial.

Module St.
Record State : Type := mkState {
  massTableKg : R;
  massHangingKg : R;
  initialVelocityMps : R;
  frictionEnabled : bool;
  mu : R;
  showForces : bool;
  running : bool;
  timeS : R;
  displacementM : R;
  velocityMps : R;
  lastFrameMs : option R;   (* [null] is [None] *)
  nextTrialId : Z;
  records : list Trial.Row
}.
End St.

Definition initialState : St.State :=
  St.mkState 2.5 1.2 0 true 0.2 true false 0 0 0 None 1 [].

Record Layout : Type := mkLayout {
  tableTopY : R;
  trackStartX : R;
  edgeX : R;
  pulleyX : R;
  pulleyY : R;
  pulleyRadius : R;
  blockW : R;
  blockH : R;
  blockBaseX : R;
  hangingW : R;
  hangingH : R;
  hangingStartY : R;
  ppm : R;
  travelMinM : R;
  travelMaxM : R
}.

Record World : Type := mkWorld {
  state : St.State;
  sceneLayout : Layout
}.

(** The motion fields of [state] replaced, the others kept. *)
Definition withMotion (state : St.State) (running : bool)
    (lastFrameMs : option R) (timeS displacementM velocityMps : R) : St.State :=
  St.mkState (St.massTableKg state) (St.massHangingKg state)
    (St.initialVelocityMps state) (St.frictionEnabled state) (St.mu state)
    (St.showForces state) running timeS displacementM velocityMps lastFrameMs
    (St.nextTrialId state) (St.records state).

Definition resetMotion (state : St.State) : St.State :=
  withMotion state false None 0 0 (St.initialVelocityMps state).

(** The values of the input elements: [Number(element.value)] is [None] when
    it is [NaN]. *)
Record Inputs : Type := mkInputs {
  massTable : option R;
  massHanging : option R;
  initialVelocity : option R;
  frictionEnabledChecked : bool;
  muValue : option R;
  showForcesChecked : bool
}.

(** [Number(value) || 0] *)
Definition orZero (parsed : option R) : R :=
  match parsed with
  | Some x => x
  | None => 0
  end.

Definition readInputsIntoState (inputs : Inputs) (state : St.State) : St.State :=
  St.mkState
    (HalfAtwood.clamp (orZero (massTable inputs)) 0.2 2500)
    (HalfAtwood.clamp (orZero (massHanging inputs)) 0.1 500)
    (HalfAtwood.clamp (orZero (initialVelocity inputs)) (-4) 4)
    (frictionEnabledChecked inputs)
    (HalfAtwood.clamp (orZero (muValue inputs)) 0 1)
    (showForcesChecked inputs)
    (St.running state) (St.timeS state) (St.displacementM state)
    (St.velocityMps state) (St.lastFrameMs state) (St.nextTrialId state)
    (St.records state).

Definition fromRestSolution (state : St.State) : HalfAtwood.Rest.Result :=
  HalfAtwood.calculateHalfAtwoodFromRest
    (HalfAtwood.Rest.mkInput (St.massTableKg state) (St.massHangingKg state)
       (St.mu state) (St.frictionEnabled state) GRAVITY_MPS2 1).

Definition dynamicSolution (state : St.State) : HalfAtwood.Dyn.Result :=
  HalfAtwood.resolveDynamicForces
    (HalfAtwood.Dyn.mkInput (St.massTableKg state) (St.massHangingKg state)
       (St.mu state) (St.frictionEnabled state) GRAVITY_MPS2
       (St.velocityMps state)).

Definition arrowScale (value : R) : R := HalfAtwood.clamp (Rabs value) 0.1 2.5.

Definition getLayout (width height : R) : Layout :=
  let tableTopY := height * 0.34 in
  let trackStartX := Rmax 42 (width * 0.04) in
  let edgeX := width * 0.78 in
  let pulleyRadius := Rmax 28 (Rmin 38 (width * 0.038)) in
  let pulleyX := edgeX + pulleyRadius + 4 in
  let pulleyY := tableTopY + pulleyRadius in
  let blockW := Rmax 112 (Rmin 146 (width * 0.125)) in
  let blockH := Rmax 54 (Rmin 72 (height * 0.13)) in
  let blockBaseX := trackStartX + 24 in
  let hangingW := Rmax 74 (Rmin 100 (width * 0.085)) in
  let hangingH := Rmax 70 (Rmin 94 (height * 0.16)) in
  let rightTangentY := pulleyY in
  let hangingStartY := rightTangentY + 10 in
  let minBlockX := trackStartX + 6 in
  let maxBlockX := edgeX - blockW - 8 in
  let minHangingY := hangingStartY in
  let maxHangingY := height - 24 - hangingH in
  let availableHorizontalPx := Rmax 40 (maxBlockX - blockBaseX) in
  let availableVerticalPx := Rmax 40 (maxHangingY - hangingStartY) in
  let availableTravelPx := Rmin availableHorizontalPx availableVerticalPx in
  let ppm := HalfAtwood.clamp (availableTravelPx / 2.1) 90 220 in
  let travelMinM := 0 in
  let travelMaxM :=
    Rmax 0.2 (Rmin ((maxBlockX - blockBaseX) / ppm)
                   ((maxHangingY - hangingStartY) / ppm)) in
  {| tableTopY := tableTopY;
     trackStartX := trackStartX;
     edgeX := edgeX;
     pulleyX := pulleyX;
     pulleyY := pulleyY;
     pulleyRadius := pulleyRadius;
     blockW := blockW;
     blockH := blockH;
     blockBaseX := blockBaseX;
     hangingW := hangingW;
     hangingH := hangingH;
     hangingStartY := hangingStartY;
     ppm := ppm;
     travelMinM := travelMinM;
     travelMaxM := travelMaxM |}.

(** [renderScene]: the layout is recomputed for the canvas size and the
    displacement is brought inside its travel range. *)
Definition renderScene (clientWidth clientHeight : R) (world : World) : World :=
  let sceneLayout := getLayout clientWidth clientHeight in
  let s := state world in
  {| state :=
       withMotion s (St.running s) (St.lastFrameMs s) (St.timeS s)
         (HalfAtwood.clamp (St.displacementM s) (travelMinM sceneLayout)
            (travelMaxM sceneLayout))
         (St.velocityMps s);
     sceneLayout := sceneLayout |}.

Definition animate (timestampMs clientWidth clientHeight : R) (world : World)
    : World :=
  let s := state world in
  let layout := sceneLayout world in
  if negb (St.running s) then world
  else
    let lastFrameMs :=
      match St.lastFrameMs s with
      | None => timestampMs
      | Some previous => previous
      end in
    let dt := Rmin 0.035 ((timestampMs - lastFrameMs) / 1000) in
    let dynamic := dynamicSolution s in
    let stepped :=
      if isStaticHold (HalfAtwood.Dyn.mode dynamic)
         && (Rabs (St.velocityMps s) <=? HalfAtwood.VELOCITY_EPSILON)
      then
        withMotion s false (Some timestampMs) (St.timeS s)
          (St.displacementM s) 0
      else
        let previousDisplacement := St.displacementM s in
        let velocity1 :=
          St.velocityMps s + HalfAtwood.Dyn.accelerationMps2 dynamic * dt in
        let displacement1 := St.displacementM s + velocity1 * dt in
        let displacement2 :=
          if ltb displacement1 (travelMinM layout)
          then travelMinM layout else displacement1 in
        let velocity2 :=
          if ltb displacement1 (travelMinM layout)
          then (if ltb velocity1 0 then 0 else velocity1)
          else velocity1 in
        let timeS := St.timeS s + dt in
        if displacement2 >=? travelMaxM layout then
          withMotion s false (Some timestampMs) timeS
            (HalfAtwood.clamp displacement2 (travelMinM layout)
               (travelMaxM layout))
            0
        else
          withMotion s true (Some timestampMs) timeS displacement2 velocity2 in
    renderScene clientWidth clientHeight
      {| state := stepped; sceneLayout := layout |}.

Definition startRun (clientWidth clientHeight : R) (world : World) : World :=
  let s := state world in
  let layout := sceneLayout world in
  if St.running s then world
  else
    let rest := fromRestSolution s in
    let dynamic := dynamicSolution s in
    let atMaxAndPushingPositive :=
      (St.displacementM s >=? travelMaxM layout - 1e-6)
      && (HalfAtwood.Dyn.accelerationMps2 dynamic >=? 0) in
    let atMinAndPushingNegative :=
      (St.displacementM s <=? travelMinM layout + 1e-6)
      && (HalfAtwood.Dyn.accelerationMps2 dynamic <=? 0) in
    let s1 :=
      if atMaxAndPushingPositive || atMinAndPushingNegative
      then withMotion s (St.running s) (St.lastFrameMs s) 0 0
             (St.initialVelocityMps s)
      else s in
    if (Rabs (St.velocityMps s1) <=? HalfAtwood.VELOCITY_EPSILON)
       && negb (HalfAtwood.Rest.moved rest)
    then renderScene clientWidth clientHeight
           {| state := s1; sceneLayout := layout |}
    else
      {| state :=
           withMotion s1 true None (St.timeS s1) (St.displacementM s1)
             (St.velocityMps s1);
         sceneLayout := layout |}.

Definition pauseRun (world : World) : World :=
  let s := state world in
  {| state :=
       withMotion s false None (St.timeS s) (St.displacementM s)
         (St.velocityMps s);
     sceneLayout := sceneLayout world |}.

Definition resetRun (clientWidth clientHeight : R) (world : World) : World :=
  renderScene clientWidth clientHeight
    {| state := resetMotion (state world); sceneLayout := sceneLayout world |}.

Definition recordTrial (state : St.State) : St.State :=
  let rest := fromRestSolution state in
  let row :=
    {| Trial.id := St.nextTrialId state;
       Trial.massTableKg := St.massTableKg state;
       Trial.massHangingKg := St.massHangingKg state;
       Trial.mu := if St.frictionEnabled state then St.mu state else 0;
       Trial.accel := HalfAtwood.Rest.accelerationMps2 rest;
       Trial.tension := HalfAtwood.Rest.tensionN rest;
       Trial.moved := HalfAtwood.Rest.moved rest |} in
  St.mkState (St.massTableKg state) (St.massHangingKg state)
    (St.initialVelocityMps state) (St.frictionEnabled state) (St.mu state)
    (St.showForces state) (St.running state) (St.timeS state)
    (St.displacementM state) (St.velocityMps state) (St.lastFrameMs state)
    (St.nextTrialId state + 1)%Z (row :: St.records state).

Definition clearTrials (state : St.State) : St.State :=
  St.mkState (St.massTableKg state) (St.massHangingKg state)
    (St.initialVelocityMps state) (St.frictionEnabled state) (St.mu state)
    (St.showForces state) (St.running state) (St.timeS state)
    (St.displacementM state) (St.velocityMps state) (St.lastFrameMs state)
    1%Z [].

Inductive Preset : Set := baseline | packet | cliff.

(** The physical parameters of [state] replaced, the others kept. *)
Definition withParameters (state : St.State) (massTableKg massHangingKg : R)
    (frictionEnabled : bool) (mu initialVelocityMps : R) : St.State :=
  St.mkState massTableKg massHangingKg initialVelocityMps frictionEnabled mu
    (St.showForces state) (St.running state) (St.timeS state)
    (St.displacementM state) (St.velocityMps state) (St.lastFrameMs state)
    (St.nextTrialId state) (St.records state).

Definition applyPreset (preset : Preset) (clientWidth clientHeight : R)
    (world : World) : World :=
  let s := state world in
  let s1 :=
    match preset with
    | baseline => withParameters s 2.5 1.2 false 0.2 0
    | packet => withParameters s 2.5 1.8 true 0.2 0
    | cliff => withParameters s 1000 50 false 0.2 0
    end in
  renderScene clientWidth clientHeight
    {| state := resetMotion s1; sceneLayout := sceneLayout world |}.

(** [init]: the motion is reset and the scene rendered; [renderScene]
    overwrites the value [sceneLayout] held before. *)
Definition init (clientWidth clientHeight : R) : World :=
  renderScene clientWidth clientHeight
    {| state := resetMotion initialState;
       sceneLayout := getLayout clientWidth clientHeight |}.

(** The handler [refreshFromInputs] of [bindEvents]. *)
Definition refreshFromInputs (inputs : Inputs) (clientWidth clientHeight : R)
    (world : World) : World :=
  let s := state world in
  let wasRunning := St.running s in
  let s1 :=
    readInputsIntoState inputs
      (withMotion s false (St.lastFrameMs s) (St.timeS s) (St.displacementM s)
         (St.velocityMps s)) in
  let s2 :=
    if negb wasRunning
    then withMotion s1 (St.running s1) (St.lastFrameMs s1) 0 0
           (St.initialVelocityMps s1)
    else s1 in
  renderScene clientWidth clientHeight
    {| state := s2; sceneLayout := sceneLayout world |}.

(** What [bindEvents] registers, and the animation frame.  Each event carries
    what its handler reads from the document. *)
Inductive Event : Type :=
| InputChanged (inputs : Inputs) (clientWidth clientHeight : R)
| StartClicked (inputs : Inputs) (clientWidth clientHeight : R)
| PauseClicked
| ResetClicked (inputs : Inputs) (clientWidth clientHeight : R)
| RecordClicked (inputs : Inputs)
| ClearClicked
| PresetClicked (preset : Preset) (clientWidth clientHeight : R)
| ThemeToggled (clientWidth clientHeight : R)
| Resized (clientWidth clientHeight : R)
| Frame (timestampMs clientWidth clientHeight : R).

Definition onState (f : St.State -> St.State) (world : World) : World :=
  {| state := f (state world); sceneLayout := sceneLayout world |}.

Definition handle (event : Event) (world : World) : World :=
  match event with
  | InputChanged inputs w h => refreshFromInputs inputs w h world
  | StartClicked inputs w h =>
      startRun w h (onState (readInputsIntoState inputs) world)
  | PauseClicked => pauseRun world
  | ResetClicked inputs w h =>
      resetRun w h (onState (readInputsIntoState inputs) world)
  | RecordClicked inputs =>
      onState recordTrial (onState (readInputsIntoState inputs) world)
  | ClearClicked => onState clearTrials world
  | PresetClicked preset w h => applyPreset preset w h world
  | ThemeToggled w h => renderScene w h world
  | Resized w h => renderScene w h world
  | Frame timestampMs w h => animate timestampMs w h world
  end.

(** The worlds the page can be in: after [init], then after any events. *)
Inductive Reachable : World -> Prop :=
| reach_init (clientWidth clientHeight : R) :
    Reachable (init clientWidth clientHeight)
| reach_step (event : Event) (world : World) :
    Reachable world -> Reachable (handle event world).

End HalfAtwoodApp.

(** * Vocabulary of the statements *)

Import HalfAtwood.

(** The same input with another velocity. *)
Definition withVelocity (input : Dyn.Input) (v : R) : Dyn.Input :=
  Dyn.mkInput (Dyn.massTableKg input) (Dyn.massHangingKg input)
    (Dyn.mu input) (Dyn.frictionEnabled input) (Dyn.gravity input) v.

(** The from-rest problem with the parameters of a dynamic input. *)
Definition fromRestOf (input : Dyn.Input) (targetDistanceM : R) : Rest.Input :=
  Rest.mkInput (Dyn.massTableKg input) (Dyn.massHangingKg input)
    (Dyn.mu input) (Dyn.frictionEnabled input) (Dyn.gravity input)
    targetDistanceM.

(** What the specification asks of a body moving at speed [v], rightward
    ([+v]) and leftward ([-v]), all else equal. *)
Definition frictionOpposesVelocity (input : Dyn.Input) (v : R) : Prop :=
  let movingRight := resolveDynamicForces (withVelocity input v) in
  let movingLeft := resolveDynamicForces (withVelocity input (- v)) in
  Dyn.frictionSignedN movingRight < 0 /\
  Dyn.mode movingRight = kinetic /\
  Dyn.frictionSignedN movingLeft > 0 /\
  Dyn.accelerationMps2 movingLeft > Dyn.accelerationMps2 movingRight.

(** The input with every clamped field replaced by [max(0, field)]. *)
Definition clampedRest (input : Rest.Input) : Rest.Input :=
  Rest.mkInput (Rmax 0 (Rest.massTableKg input))
    (Rmax 0 (Rest.massHangingKg input)) (Rmax 0 (Rest.mu input))
    (Rest.frictionEnabled input) (Rmax 0 (Rest.gravity input))
    (Rmax 0 (Rest.targetDistanceM input)).

Definition clampedDyn (input : Dyn.Input) : Dyn.Input :=
  Dyn.mkInput (Rmax 0 (Dyn.massTableKg input))
    (Rmax 0 (Dyn.massHangingKg input)) (Rmax 0 (Dyn.mu input))
    (Dyn.frictionEnabled input) (Rmax 0 (Dyn.gravity input))
    (Dyn.velocityMps input).

(** The bandwidth [resonanceStrength] works with. *)
Definition bandwidthUsed (targetLengthM : R) (bandwidthM : option R) : R :=
  match bandwidthM with
  | Some supplied => supplied
  | None => Rmax 0.008 (targetLengthM * 0.06)
  end.


(** The ids of a list of trial rows, newest first, are positive, strictly
    descending and below [bound]. *)
Fixpoint idsDescendBelow (bound : Z) (ids : list Z) : Prop :=
  match ids with
  | [] => True
  | id :: older => (0 < id < bound)%Z /\ idsDescendBelow id older
  end.

(** What every row of the resonance page's trial table satisfies. *)
Definition resonanceRowSound (row : ResonanceApp.Trial.Row) : Prop :=
  220 <= ResonanceApp.Trial.frequencyHz row <= 800 /\
  ResonanceApp.AIR_LENGTH_MIN_M <= ResonanceApp.Trial.lengthM row
    <= ResonanceApp.AIR_LENGTH_MAX_M /\
  ResonanceApp.Trial.speedMps row =
    4 * ResonanceApp.Trial.frequencyHz row
      * (ResonanceApp.Trial.lengthM row + 0.012) /\
  (ResonanceApp.Trial.accepted row = true <->
   ResonanceApp.Trial.qualityLabel row = "High"%string).

(** What every state of the resonance page satisfies. *)
Definition resonanceStateSound (state : ResonanceApp.St.State) : Prop :=
  220 <= ResonanceApp.St.frequencyHz state <= 800 /\
  (exists n : Z, ResonanceApp.St.frequencyHz state = IZR n) /\
  ResonanceApp.AIR_LENGTH_MIN_M <= ResonanceApp.St.airLengthM state
    <= ResonanceApp.AIR_LENGTH_MAX_M /\
  (0 < ResonanceApp.St.nextRecordId state)%Z /\
  idsDescendBelow (ResonanceApp.St.nextRecordId state)
    (map ResonanceApp.Trial.id (ResonanceApp.St.records state)) /\
  Forall resonanceRowSound (ResonanceApp.St.records state).

(** What every row of the half-Atwood page's trial table satisfies. *)
Definition atwoodRowSound (row : HalfAtwoodApp.Trial.Row) : Prop :=
  0.2 <= HalfAtwoodApp.Trial.massTableKg row <= 2500 /\
  0.1 <= HalfAtwoodApp.Trial.massHangingKg row <= 500 /\
  0 <= HalfAtwoodApp.Trial.mu row <= 1 /\
  (HalfAtwoodApp.Trial.moved row = true <-> 0 < HalfAtwoodApp.Trial.accel row).

(** The physical parameters are inside the ranges of the input elements. *)
Definition atwoodParametersSound (s : HalfAtwoodApp.St.State) : Prop :=
  0.2 <= HalfAtwoodApp.St.massTableKg s <= 2500 /\
  0.1 <= HalfAtwoodApp.St.massHangingKg s <= 500 /\
  -4 <= HalfAtwoodApp.St.initialVelocityMps s <= 4 /\
  0 <= HalfAtwoodApp.St.mu s <= 1.

(** The trial table: ids positive, strictly descending from the newest row
    and below [nextTrialId]; every row sound. *)
Definition atwoodRecordsSound (s : HalfAtwoodApp.St.State) : Prop :=
  (0 < HalfAtwoodApp.St.nextTrialId s)%Z /\
  idsDescendBelow (HalfAtwoodApp.St.nextTrialId s)
    (map HalfAtwoodApp.Trial.id (HalfAtwoodApp.St.records s)) /\
  Forall atwoodRowSound (HalfAtwoodApp.St.records s).

(** The travel range starts at 0, is at least 0.2 m long, and holds the
    displacement. *)
Definition atwoodGeometrySound (world : HalfAtwoodApp.World) : Prop :=
  let layout := HalfAtwoodApp.sceneLayout world in
  HalfAtwoodApp.travelMinM layout = 0 /\
  0.2 <= HalfAtwoodApp.travelMaxM layout /\
  0 <= HalfAtwoodApp.St.displacementM (HalfAtwoodApp.state world)
    <= HalfAtwoodApp.travelMaxM layout.

(** What every world of the half-Atwood page satisfies. *)
Definition atwoodWorldSound (world : HalfAtwoodApp.World) : Prop :=
  atwoodParametersSound (HalfAtwoodApp.state world) /\
  atwoodRecordsSound (HalfAtwoodApp.state world) /\
  atwoodGeometrySound world.

(** The time step [dt] of an animation frame. *)
Definition frameDt (timestampMs : R) (s : HalfAtwoodApp.St.State) : R :=
  Rmin 0.035
    ((timestampMs
      - match HalfAtwoodApp.St.lastFrameMs s with
        | None => timestampMs
        | Some previous => previous
        end) / 1000).

(** * Properties *)

(** ** The comparison operators decide the order of [R] *)

Section Comparisons.

Variables x y : R.

Lemma leb_true : x <= y -> (x <=? y) = true.
Proof. unfold JsNum.leb; destruct (Rle_dec x y); tauto. Qed.

Lemma leb_false : y < x -> (x <=? y) = false.
Proof. unfold JsNum.leb; destruct (Rle_dec x y); [lra | reflexivity]. Qed.

Lemma gtb_true : y < x -> (x >? y) = true.
Proof. unfold JsNum.gtb; destruct (Rlt_dec y x); tauto. Qed.

Lemma gtb_false : x <= y -> (x >? y) = false.
Proof. unfold JsNum.gtb; destruct (Rlt_dec y x); [lra | reflexivity]. Qed.

Lemma geb_true : y <= x -> (x >=? y) = true.
Proof. unfold JsNum.geb; destruct (Rle_dec y x); tauto. Qed.

Lemma geb_false : x < y -> (x >=? y) = false.
Proof. unfold JsNum.geb; destruct (Rle_dec y x); [lra | reflexivity]. Qed.

Lemma eqb_true : x = y -> (x =? y) = true.
Proof. unfold JsNum.eqb; destruct (Req_dec_T x y); tauto. Qed.

Lemma eqb_false : x <> y -> (x =? y) = false.
Proof. unfold JsNum.eqb; destruct (Req_dec_T x y); tauto. Qed.

Lemma leb_spec : (x <=? y) = true <-> x <= y.
Proof.
  split; [| apply leb_true].
  unfold JsNum.leb; destruct (Rle_dec x y); [tauto | discriminate].
Qed.

Lemma gtb_spec : (x >? y) = true <-> y < x.
Proof.
  split; [| apply gtb_true].
  unfold JsNum.gtb; destruct (Rlt_dec y x); [tauto | discriminate].
Qed.

Lemma geb_spec : (x >=? y) = true <-> y <= x.
Proof.
  split; [| apply geb_true].
  unfold JsNum.geb; destruct (Rle_dec y x); [tauto | discriminate].
Qed.

End Comparisons.

(** [Math.max(0, x)]: the clamp of the two solvers. *)

Lemma clamp0_nonneg (x : R) : 0 <= Rmax 0 x.
Proof. apply Rmax_l. Qed.

Lemma clamp0_pos (x : R) : 0 < x -> Rmax 0 x = x.
Proof. intros H; apply Rmax_right; lra. Qed.

Lemma clamp0_idem (x : R) : Rmax 0 (Rmax 0 x) = Rmax 0 x.
Proof. apply Rmax_right, Rmax_l. Qed.

Lemma VELOCITY_EPSILON_value : VELOCITY_EPSILON = 1 / 10000.
Proof. unfold VELOCITY_EPSILON; lra. Qed.

Lemma quotient_pos (a b : R) : 0 < a -> 0 < b -> 0 < a / b.
Proof. intros Ha Hb; apply Rdiv_lt_0_compat; assumption. Qed.

Lemma quotient_cancel (a b : R) : 0 < b -> b * (a / b) = a.
Proof. intros Hb; field; lra. Qed.

(** ** The from-rest solver *)

Section FromRest.

Variable input : Rest.Input.

(** The clamped quantities the solver works with. *)
Let massTable := Rmax 0 (Rest.massTableKg input).
Let massHanging := Rmax 0 (Rest.massHangingKg input).
Let grav := Rmax 0 (Rest.gravity input).
Let coeff := Rmax 0 (Rest.mu input).
Let target := Rmax 0 (Rest.targetDistanceM input).
Let totalMass := massTable + massHanging.
Let drive := massHanging * grav.
Let cap := coeff * massTable * grav.

(** The four return statements of [calculateHalfAtwoodFromRest], each under
    the path condition that leads to it. *)

Lemma fromRest_zero_mass :
  totalMass <= 0 ->
  calculateHalfAtwoodFromRest input =
    Rest.mkResult 0 0 0 0 drive false None static_hold.
Proof.
  intros H; unfold calculateHalfAtwoodFromRest.
  fold massTable massHanging grav; fold totalMass drive.
  rewrite leb_true by exact H; reflexivity.
Qed.

Lemma fromRest_frictionless :
  0 < totalMass ->
  Rest.frictionEnabled input = false \/ coeff = 0 ->
  calculateHalfAtwoodFromRest input =
    let a := drive / totalMass in
    Rest.mkResult a (massHanging * (grav - a)) 0 drive drive (a >? 0)
      (if (a >? 0) && (target >? 0)
       then Some (sqrt ((2 * target) / a)) else None)
      frictionless.
Proof.
  intros Hm Hf; unfold calculateHalfAtwoodFromRest.
  fold massTable massHanging grav coeff target; fold totalMass drive.
  rewrite leb_false by exact Hm.
  replace (negb (Rest.frictionEnabled input) || (coeff =? 0))%bool with true;
    [reflexivity |].
  destruct Hf as [-> | ->]; [reflexivity |].
  rewrite eqb_true by reflexivity; symmetry; apply orb_true_r.
Qed.

Lemma fromRest_static_hold :
  0 < totalMass ->
  Rest.frictionEnabled input = true -> coeff <> 0 ->
  drive <= cap ->
  calculateHalfAtwoodFromRest input =
    Rest.mkResult 0 drive drive 0 drive false None static_hold.
Proof.
  intros Hm Hf Hc Hd; unfold calculateHalfAtwoodFromRest.
  fold massTable massHanging grav coeff target; fold totalMass drive cap.
  rewrite leb_false by exact Hm.
  rewrite Hf, eqb_false by exact Hc; cbn [negb orb].
  rewrite leb_true by exact Hd; reflexivity.
Qed.

Lemma fromRest_kinetic :
  0 < totalMass ->
  Rest.frictionEnabled input = true -> coeff <> 0 ->
  cap < drive ->
  calculateHalfAtwoodFromRest input =
    let net := drive - cap in
    let a := net / totalMass in
    Rest.mkResult a (massHanging * (grav - a)) cap net drive (a >? 0)
      (if (a >? 0) && (target >? 0)
       then Some (sqrt ((2 * target) / a)) else None)
      kinetic.
Proof.
  intros Hm Hf Hc Hd; unfold calculateHalfAtwoodFromRest.
  fold massTable massHanging grav coeff target; fold totalMass drive cap.
  rewrite leb_false by exact Hm.
  rewrite Hf, eqb_false by exact Hc; cbn [negb orb].
  rewrite leb_false by exact Hd; reflexivity.
Qed.

End FromRest.

(** *** Claims about [calculateHalfAtwoodFromRest] *)

(** C2.  With positive table mass, hanging mass and gravity, and friction
    disabled (or [mu = 0]), the from-rest solver returns the closed form:
    acceleration [massHanging * gravity / (massHanging + massTable)], tension
    [massHanging * (gravity - acceleration)], no friction, net force equal to
    the drive force [massHanging * gravity], mode [frictionless] and
    [moved = true]. *)
Theorem C2_frictionless_closed_form (input : Rest.Input) :
  let mT := Rest.massTableKg input in
  let mH := Rest.massHangingKg input in
  let g := Rest.gravity input in
  let r := calculateHalfAtwoodFromRest input in
  0 < mT -> 0 < mH -> 0 < g ->
  Rest.frictionEnabled input = false \/ Rest.mu input = 0 ->
  Rest.accelerationMps2 r = mH * g / (mH + mT) /\
  Rest.tensionN r = mH * (g - Rest.accelerationMps2 r) /\
  Rest.frictionN r = 0 /\
  Rest.netForceN r = mH * g /\
  Rest.driveForceN r = mH * g /\
  Rest.mode r = frictionless /\
  Rest.moved r = true.
Proof.
  intros mT mH g r HmT HmH Hg Hf; subst r mT mH g.
  rewrite fromRest_frictionless.
  - rewrite (clamp0_pos _ HmT), (clamp0_pos _ HmH), (clamp0_pos _ Hg).
    cbn zeta.
    cbn [Rest.accelerationMps2 Rest.tensionN Rest.frictionN Rest.netForceN
         Rest.driveForceN Rest.mode Rest.moved].
    rewrite (Rplus_comm (Rest.massTableKg input)).
    repeat split; try reflexivity.
    apply gtb_true, quotient_pos; [apply Rmult_lt_0_compat |]; lra.
  - rewrite (clamp0_pos _ HmT), (clamp0_pos _ HmH); lra.
  - destruct Hf as [Hf | Hf]; [left; exact Hf | right].
    rewrite Hf; apply Rmax_left; lra.
Qed.

(** The specification's example: massTable = 2, massHanging = 1, mu = 0,
    gravity = 10 gives acceleration 10/3, tension 20/3 and net force 10,
    frictionless and moving (here with friction switched on: [mu = 0] alone
    selects the frictionless branch). *)
Lemma C2_example :
  let r := calculateHalfAtwoodFromRest (Rest.mkInput 2 1 0 true 10 2) in
  Rest.accelerationMps2 r = 10 / 3 /\
  Rest.tensionN r = 20 / 3 /\
  Rest.netForceN r = 10 /\
  Rest.mode r = frictionless /\
  Rest.moved r = true.
Proof.
  intros r.
  assert (HmT : 0 < 2) by lra.
  assert (HmH : 0 < 1) by lra.
  assert (Hg : 0 < 10) by lra.
  destruct (C2_frictionless_closed_form (Rest.mkInput 2 1 0 true 10 2)
              HmT HmH Hg (or_intror eq_refl))
    as (Ha & Ht & _ & Hn & _ & Hm & Hv).
  fold r in Ha, Ht, Hn, Hm, Hv.
  cbn [Rest.massTableKg Rest.massHangingKg Rest.gravity] in Ha, Ht, Hn.
  repeat split; try assumption.
  - rewrite Ha; lra.
  - rewrite Ht, Ha; lra.
  - rewrite Hn; lra.
Defined.

(** C3.  With friction enabled, [mu > 0], a positive clamped total mass and a
    drive force not above [mu * massTable * gravity], the from-rest solver
    reports a static hold: zero acceleration and net force, tension and
    friction both equal to the drive force, not moved, and no time to
    target. *)
Theorem C3_static_hold (input : Rest.Input) :
  let mT := Rmax 0 (Rest.massTableKg input) in
  let mH := Rmax 0 (Rest.massHangingKg input) in
  let g := Rmax 0 (Rest.gravity input) in
  let driveForce := mH * g in
  let r := calculateHalfAtwoodFromRest input in
  Rest.frictionEnabled input = true ->
  0 < Rest.mu input ->
  0 < mT + mH ->
  driveForce <= Rest.mu input * mT * g ->
  Rest.mode r = static_hold /\
  Rest.accelerationMps2 r = 0 /\
  Rest.tensionN r = driveForce /\
  Rest.frictionN r = driveForce /\
  Rest.netForceN r = 0 /\
  Rest.moved r = false /\
  Rest.timeToTargetS r = None.
Proof.
  intros mT mH g driveForce r Hf Hmu Hm Hd; subst r driveForce mT mH g.
  rewrite fromRest_static_hold;
    rewrite ?(clamp0_pos _ Hmu); try assumption; try lra.
  repeat split.
Qed.

(** The specification's example: massTable = 6, massHanging = 1, mu = 0.2,
    gravity = 10: the drive force 10 is below the cap 12, and the friction
    reported is 10. *)
Lemma C3_example :
  let r := calculateHalfAtwoodFromRest (Rest.mkInput 6 1 0.2 true 10 2) in
  Rest.mode r = static_hold /\
  Rest.accelerationMps2 r = 0 /\
  Rest.frictionN r = 10 /\
  Rest.moved r = false /\
  Rest.timeToTargetS r = None.
Proof.
  intros r.
  assert (H6 : Rmax 0 6 = 6) by (apply clamp0_pos; lra).
  assert (H1 : Rmax 0 1 = 1) by (apply clamp0_pos; lra).
  assert (H10 : Rmax 0 10 = 10) by (apply clamp0_pos; lra).
  assert (Hmu : 0 < 0.2) by lra.
  assert (Hmass : 0 < Rmax 0 6 + Rmax 0 1) by (rewrite H6, H1; lra).
  assert (Hd : Rmax 0 1 * Rmax 0 10 <= 0.2 * Rmax 0 6 * Rmax 0 10)
    by (rewrite H6, H1, H10; lra).
  destruct (C3_static_hold (Rest.mkInput 6 1 0.2 true 10 2)
              eq_refl Hmu Hmass Hd)
    as (Hm & Ha & _ & Hfr & _ & Hv & Ht).
  fold r in Hm, Ha, Hfr, Hv, Ht.
  cbn [Rest.massHangingKg Rest.gravity] in Hfr; rewrite H1, H10 in Hfr.
  repeat split; try assumption.
  rewrite Hfr; lra.
Defined.

(** Every call of [calculateHalfAtwoodFromRest] leaves through one of its four
    return statements. *)
Lemma fromRest_cases (input : Rest.Input) :
  let massTable := Rmax 0 (Rest.massTableKg input) in
  let massHanging := Rmax 0 (Rest.massHangingKg input) in
  let grav := Rmax 0 (Rest.gravity input) in
  let coeff := Rmax 0 (Rest.mu input) in
  let target := Rmax 0 (Rest.targetDistanceM input) in
  let totalMass := massTable + massHanging in
  let drive := massHanging * grav in
  let cap := coeff * massTable * grav in
  let r := calculateHalfAtwoodFromRest input in
  (totalMass <= 0 /\
   r = Rest.mkResult 0 0 0 0 drive false None static_hold)
  \/
  (0 < totalMass /\
   r = let a := drive / totalMass in
       Rest.mkResult a (massHanging * (grav - a)) 0 drive drive (a >? 0)
         (if (a >? 0) && (target >? 0)
          then Some (sqrt ((2 * target) / a)) else None)
         frictionless)
  \/
  (0 < totalMass /\ drive <= cap /\
   r = Rest.mkResult 0 drive drive 0 drive false None static_hold)
  \/
  (0 < totalMass /\ cap < drive /\
   r = let net := drive - cap in
       let a := net / totalMass in
       Rest.mkResult a (massHanging * (grav - a)) cap net drive (a >? 0)
         (if (a >? 0) && (target >? 0)
          then Some (sqrt ((2 * target) / a)) else None)
         kinetic).
Proof.
  intros massTable massHanging grav coeff target totalMass drive cap r.
  destruct (Rle_lt_dec totalMass 0) as [Hz | Hm].
  { left; split; [exact Hz | apply fromRest_zero_mass; exact Hz]. }
  right.
  destruct (Rest.frictionEnabled input) eqn:Hf.
  2:{ left; split; [exact Hm |].
      apply fromRest_frictionless; [exact Hm | left; exact Hf]. }
  destruct (Req_dec_T coeff 0) as [Hc | Hc].
  { left; split; [exact Hm |].
    apply fromRest_frictionless; [exact Hm | right; exact Hc]. }
  right.
  destruct (Rle_lt_dec drive cap) as [Hd | Hd].
  - left; split; [exact Hm |]; split; [exact Hd |].
    apply fromRest_static_hold; assumption.
  - right; split; [exact Hm |]; split; [exact Hd |].
    apply fromRest_kinetic; assumption.
Qed.

(** The conditional that computes [timeToTargetS] in both moving branches. *)
Lemma timeToTarget_spec (a d : R) :
  let t := if (a >? 0) && (d >? 0) then Some (sqrt ((2 * d) / a)) else None in
  (t <> None <-> 0 < a /\ 0 < d) /\
  (0 < a -> 0 < d -> t = Some (sqrt ((2 * d) / a))).
Proof.
  cbv zeta.
  destruct (Rlt_dec 0 a) as [Ha | Ha];
    [rewrite (gtb_true _ _ Ha) | rewrite (gtb_false a 0) by lra];
    cbn [andb].
  2:{ split; [split; [congruence | lra] | lra]. }
  destruct (Rlt_dec 0 d) as [Hd | Hd];
    [rewrite (gtb_true _ _ Hd) | rewrite (gtb_false d 0) by lra].
  - split; [split; [intros _; split; assumption | discriminate] | reflexivity].
  - split; [split; [congruence | lra] | lra].
Qed.

Lemma null_iff (t : option R) (P : Prop) :
  (t <> None <-> P) -> (t = None <-> ~ P).
Proof.
  intros [H1 H2]; split.
  - intros Hn Hp; apply H2 in Hp; contradiction.
  - intros Hn; destruct t; [| reflexivity].
    exfalso; apply Hn, H1; discriminate.
Qed.

(** The shape of a result that reports no motion. *)
Lemma time_still (d : R) (m : Mode) (Q : Prop) :
  (@None R <> None <-> 0 < 0 /\ 0 < d) /\
  (0 < 0 -> 0 < d -> None = Some (sqrt ((2 * d) / 0))) /\
  (@None R = None <-> ~ (0 < 0 /\ 0 < d)) /\
  (m = static_hold -> @None R = None) /\
  (Q -> @None R = None) /\
  (false = true <-> 0 < 0).
Proof.
  repeat split; try congruence; try lra; intros; lra.
Qed.

(** C9.  [timeToTargetS] is non-null exactly when the computed acceleration
    and the clamped target distance are both positive, and is then
    [sqrt (2 * targetDistance / acceleration)]; it is null under a static hold
    and when the total mass is zero; and [moved] is true exactly when the
    acceleration is positive. *)
Theorem C9_time_to_target_nullable (input : Rest.Input) :
  let r := calculateHalfAtwoodFromRest input in
  let a := Rest.accelerationMps2 r in
  let d := Rmax 0 (Rest.targetDistanceM input) in
  (Rest.timeToTargetS r <> None <-> 0 < a /\ 0 < d) /\
  (0 < a -> 0 < d -> Rest.timeToTargetS r = Some (sqrt ((2 * d) / a))) /\
  (Rest.timeToTargetS r = None <-> ~ (0 < a /\ 0 < d)) /\
  (Rest.mode r = static_hold -> Rest.timeToTargetS r = None) /\
  (Rmax 0 (Rest.massTableKg input) + Rmax 0 (Rest.massHangingKg input) <= 0 ->
   Rest.timeToTargetS r = None) /\
  (Rest.moved r = true <-> 0 < a).
Proof.
  intros r a d; subst a d r.
  destruct (fromRest_cases input)
    as [[Hz Hr] | [[Hm Hr] | [(Hm & Hd & Hr) | (Hm & Hd & Hr)]]];
    rewrite Hr; clear Hr; cbv zeta;
    cbn [Rest.accelerationMps2 Rest.timeToTargetS Rest.moved Rest.mode].
  - apply time_still.
  - match goal with
    | |- context [if (?a >? 0) && (?d >? 0) then _ else _] =>
        destruct (timeToTarget_spec a d) as [H1 H2]; cbv zeta in H1, H2
    end.
    split; [exact H1 |]; split; [exact H2 |].
    split; [apply null_iff, H1 |].
    split; [discriminate |]; split; [intros; exfalso; lra |].
    apply gtb_spec.
  - apply time_still.
  - match goal with
    | |- context [if (?a >? 0) && (?d >? 0) then _ else _] =>
        destruct (timeToTarget_spec a d) as [H1 H2]; cbv zeta in H1, H2
    end.
    split; [exact H1 |]; split; [exact H2 |].
    split; [apply null_iff, H1 |].
    split; [discriminate |]; split; [intros; exfalso; lra |].
    apply gtb_spec.
Qed.

(** ** The dynamic solver *)

Section Dynamic.

Variable input : Dyn.Input.

Let massTable := Rmax 0 (Dyn.massTableKg input).
Let massHanging := Rmax 0 (Dyn.massHangingKg input).
Let grav := Rmax 0 (Dyn.gravity input).
Let coeff := Rmax 0 (Dyn.mu input).
Let totalMass := massTable + massHanging.
Let drive := massHanging * grav.
Let kineticMagnitude := coeff * massTable * grav.
Let speed := Dyn.velocityMps input.

(** The five return statements of [resolveDynamicForces], each under the path
    condition that leads to it. *)

Lemma dynamic_zero_mass :
  totalMass <= 0 ->
  resolveDynamicForces input = Dyn.mkResult 0 0 0 0 0 drive static_hold.
Proof.
  intros H; unfold resolveDynamicForces.
  fold massTable massHanging grav; fold totalMass drive.
  rewrite leb_true by exact H; reflexivity.
Qed.

Lemma dynamic_frictionless :
  0 < totalMass ->
  Dyn.frictionEnabled input = false \/ coeff = 0 ->
  resolveDynamicForces input =
    let a := drive / totalMass in
    Dyn.mkResult a (massHanging * (grav - a)) 0 0 drive drive frictionless.
Proof.
  intros Hm Hf; unfold resolveDynamicForces.
  fold massTable massHanging grav coeff; fold totalMass drive.
  rewrite leb_false by exact Hm.
  replace (negb (Dyn.frictionEnabled input) || (coeff =? 0))%bool with true;
    [reflexivity |].
  destruct Hf as [-> | ->]; [reflexivity |].
  rewrite eqb_true by reflexivity; symmetry; apply orb_true_r.
Qed.

Lemma dynamic_rest_static :
  0 < totalMass ->
  Dyn.frictionEnabled input = true -> coeff <> 0 ->
  Rabs speed <= VELOCITY_EPSILON ->
  drive <= kineticMagnitude ->
  resolveDynamicForces input =
    Dyn.mkResult 0 drive (- drive) drive 0 drive static_hold.
Proof.
  intros Hm Hf Hc Hv Hd; unfold resolveDynamicForces.
  fold massTable massHanging grav coeff speed.
  fold totalMass drive kineticMagnitude.
  rewrite leb_false by exact Hm.
  rewrite Hf, eqb_false by exact Hc; cbn [negb orb].
  rewrite (leb_true _ _ Hv), (leb_true _ _ Hd); reflexivity.
Qed.

Lemma dynamic_rest_kinetic :
  0 < totalMass ->
  Dyn.frictionEnabled input = true -> coeff <> 0 ->
  Rabs speed <= VELOCITY_EPSILON ->
  kineticMagnitude < drive ->
  resolveDynamicForces input =
    let net := drive - kineticMagnitude in
    let a := net / totalMass in
    Dyn.mkResult a (massHanging * (grav - a)) (- kineticMagnitude)
      kineticMagnitude net drive kinetic.
Proof.
  intros Hm Hf Hc Hv Hd; unfold resolveDynamicForces.
  fold massTable massHanging grav coeff speed.
  fold totalMass drive kineticMagnitude.
  rewrite leb_false by exact Hm.
  rewrite Hf, eqb_false by exact Hc; cbn [negb orb].
  rewrite (leb_true _ _ Hv), (leb_false _ _ Hd); reflexivity.
Qed.

Lemma dynamic_moving :
  0 < totalMass ->
  Dyn.frictionEnabled input = true -> coeff <> 0 ->
  VELOCITY_EPSILON < Rabs speed ->
  resolveDynamicForces input =
    let signed := if speed >? 0 then - kineticMagnitude else kineticMagnitude in
    let net := drive + signed in
    let a := net / totalMass in
    Dyn.mkResult a (massHanging * (grav - a)) signed kineticMagnitude net
      drive kinetic.
Proof.
  intros Hm Hf Hc Hv; unfold resolveDynamicForces.
  fold massTable massHanging grav coeff speed.
  fold totalMass drive kineticMagnitude.
  rewrite leb_false by exact Hm.
  rewrite Hf, eqb_false by exact Hc; cbn [negb orb].
  rewrite (leb_false _ _ Hv); reflexivity.
Qed.

End Dynamic.

(** Every call of [resolveDynamicForces] leaves through one of its five return
    statements. *)
Lemma dynamic_cases (input : Dyn.Input) :
  let massTable := Rmax 0 (Dyn.massTableKg input) in
  let massHanging := Rmax 0 (Dyn.massHangingKg input) in
  let grav := Rmax 0 (Dyn.gravity input) in
  let coeff := Rmax 0 (Dyn.mu input) in
  let totalMass := massTable + massHanging in
  let drive := massHanging * grav in
  let kineticMagnitude := coeff * massTable * grav in
  let speed := Dyn.velocityMps input in
  let r := resolveDynamicForces input in
  (totalMass <= 0 /\
   r = Dyn.mkResult 0 0 0 0 0 drive static_hold)
  \/
  (0 < totalMass /\
   r = let a := drive / totalMass in
       Dyn.mkResult a (massHanging * (grav - a)) 0 0 drive drive frictionless)
  \/
  (0 < totalMass /\ drive <= kineticMagnitude /\
   r = Dyn.mkResult 0 drive (- drive) drive 0 drive static_hold)
  \/
  (0 < totalMass /\ kineticMagnitude < drive /\
   r = let net := drive - kineticMagnitude in
       let a := net / totalMass in
       Dyn.mkResult a (massHanging * (grav - a)) (- kineticMagnitude)
         kineticMagnitude net drive kinetic)
  \/
  (0 < totalMass /\ VELOCITY_EPSILON < Rabs speed /\
   r = let signed :=
         if speed >? 0 then - kineticMagnitude else kineticMagnitude in
       let net := drive + signed in
       let a := net / totalMass in
       Dyn.mkResult a (massHanging * (grav - a)) signed kineticMagnitude net
         drive kinetic).
Proof.
  intros massTable massHanging grav coeff totalMass drive kineticMagnitude
         speed r.
  destruct (Rle_lt_dec totalMass 0) as [Hz | Hm].
  { left; split; [exact Hz | apply dynamic_zero_mass; exact Hz]. }
  right.
  destruct (Dyn.frictionEnabled input) eqn:Hf.
  2:{ left; split; [exact Hm |].
      apply dynamic_frictionless; [exact Hm | left; exact Hf]. }
  destruct (Req_dec_T coeff 0) as [Hc | Hc].
  { left; split; [exact Hm |].
    apply dynamic_frictionless; [exact Hm | right; exact Hc]. }
  right.
  destruct (Rle_lt_dec (Rabs speed) VELOCITY_EPSILON) as [Hv | Hv].
  - destruct (Rle_lt_dec drive kineticMagnitude) as [Hd | Hd].
    + left; split; [exact Hm |]; split; [exact Hd |].
      apply dynamic_rest_static; assumption.
    + right; left; split; [exact Hm |]; split; [exact Hd |].
      apply dynamic_rest_kinetic; assumption.
  - right; right; split; [exact Hm |]; split; [exact Hv |].
    apply dynamic_moving; assumption.
Qed.

(** *** Claims about [resolveDynamicForces] *)

(** C1.  With friction enabled, [mu > 0], a positive clamped total mass and
    [|velocityMps| <= VELOCITY_EPSILON = 1e-4], [resolveDynamicForces] takes
    the static-or-kinetic decision of the from-rest solver: a drive force not
    above [mu * massTable * gravity] gives [static_hold] with zero
    acceleration and net force, tension equal to the drive force and signed
    friction [- driveForce]; otherwise [kinetic] with signed friction
    [- (mu * massTable * gravity)], net force [driveForce - mu * massTable *
    gravity] and acceleration [netForce / totalMass].  Mode, acceleration,
    tension and net force are those of [calculateHalfAtwoodFromRest] on the
    same parameters, and the result is the same for every velocity within the
    epsilon, whatever its sign. *)
Theorem C1_near_rest_decision (input : Dyn.Input) :
  let mT := Rmax 0 (Dyn.massTableKg input) in
  let mH := Rmax 0 (Dyn.massHangingKg input) in
  let g := Rmax 0 (Dyn.gravity input) in
  let totalMass := mT + mH in
  let driveForce := mH * g in
  let cap := Dyn.mu input * mT * g in
  let r := resolveDynamicForces input in
  Dyn.frictionEnabled input = true ->
  0 < Dyn.mu input ->
  0 < totalMass ->
  Rabs (Dyn.velocityMps input) <= VELOCITY_EPSILON ->
  VELOCITY_EPSILON = 1 / 10000 /\
  (driveForce <= cap ->
     Dyn.mode r = static_hold /\
     Dyn.accelerationMps2 r = 0 /\
     Dyn.netForceN r = 0 /\
     Dyn.tensionN r = driveForce /\
     Dyn.frictionSignedN r = - driveForce) /\
  (~ driveForce <= cap ->
     Dyn.mode r = kinetic /\
     Dyn.frictionSignedN r = - cap /\
     Dyn.netForceN r = driveForce - cap /\
     Dyn.accelerationMps2 r = Dyn.netForceN r / totalMass) /\
  (forall targetDistanceM : R,
     let r0 := calculateHalfAtwoodFromRest (fromRestOf input targetDistanceM) in
     Dyn.mode r = Rest.mode r0 /\
     Dyn.accelerationMps2 r = Rest.accelerationMps2 r0 /\
     Dyn.tensionN r = Rest.tensionN r0 /\
     Dyn.netForceN r = Rest.netForceN r0 /\
     Dyn.driveForceN r = Rest.driveForceN r0 /\
     Dyn.frictionMagnitudeN r = Rest.frictionN r0 /\
     Dyn.frictionSignedN r = - Rest.frictionN r0) /\
  (forall v : R,
     Rabs v <= VELOCITY_EPSILON ->
     resolveDynamicForces (withVelocity input v) = r).
Proof.
  intros mT mH g totalMass driveForce cap r Hf Hmu Hm Hv.
  subst r cap driveForce totalMass mT mH g.
  assert (Hc : Rmax 0 (Dyn.mu input) = Dyn.mu input) by (apply clamp0_pos, Hmu).
  assert (Hc0 : Rmax 0 (Dyn.mu input) <> 0) by lra.
  split; [apply VELOCITY_EPSILON_value |].
  match goal with
  | |- (?d <= ?k -> _) /\ _ => destruct (Rle_lt_dec d k) as [Hd | Hd]
  end.
  - (* static hold *)
    assert (Hr := dynamic_rest_static input Hm Hf Hc0 Hv).
    rewrite Hc in Hr; specialize (Hr Hd).
    split; [intros _; rewrite Hr; repeat split |].
    split; [intros Hn; contradiction |].
    split.
    + intros td r0; subst r0.
      rewrite (fromRest_static_hold (fromRestOf input td));
        cbn [fromRestOf Rest.massTableKg Rest.massHangingKg Rest.mu
             Rest.frictionEnabled Rest.gravity];
        rewrite ?Hc; try assumption; try lra.
      rewrite Hr; repeat split.
    + intros v Hv'.
      rewrite Hr.
      assert (Hr' := dynamic_rest_static (withVelocity input v)).
      cbn [withVelocity Dyn.massTableKg Dyn.massHangingKg Dyn.mu
           Dyn.frictionEnabled Dyn.gravity Dyn.velocityMps] in Hr'.
      rewrite Hc in Hr'; apply Hr'; assumption || lra.
  - (* kinetic *)
    assert (Hr := dynamic_rest_kinetic input Hm Hf Hc0 Hv).
    rewrite Hc in Hr; specialize (Hr Hd); cbv zeta in Hr.
    split; [intros Hle; exfalso; lra |].
    split; [intros _; rewrite Hr; repeat split |].
    split.
    + intros td r0; subst r0.
      rewrite (fromRest_kinetic (fromRestOf input td));
        cbn [fromRestOf Rest.massTableKg Rest.massHangingKg Rest.mu
             Rest.frictionEnabled Rest.gravity];
        rewrite ?Hc; try assumption; try lra.
      rewrite Hr; repeat split.
    + intros v Hv'.
      rewrite Hr.
      assert (Hr' := dynamic_rest_kinetic (withVelocity input v)).
      cbn [withVelocity Dyn.massTableKg Dyn.massHangingKg Dyn.mu
           Dyn.frictionEnabled Dyn.gravity Dyn.velocityMps] in Hr'.
      rewrite Hc in Hr'; apply Hr'; assumption || lra.
Qed.

(** The specification's static-hold parameters (massTable = 6, massHanging =
    1, mu = 0.2, gravity = 10), creeping backwards at half the epsilon: held,
    with friction -10 against the drive. *)
Lemma C1_example :
  let r := resolveDynamicForces (Dyn.mkInput 6 1 0.2 true 10 (- 0.00005)) in
  Dyn.mode r = static_hold /\
  Dyn.accelerationMps2 r = 0 /\
  Dyn.netForceN r = 0 /\
  Dyn.tensionN r = 10 /\
  Dyn.frictionSignedN r = - 10.
Proof.
  intros r.
  assert (H6 : Rmax 0 6 = 6) by (apply clamp0_pos; lra).
  assert (H1 : Rmax 0 1 = 1) by (apply clamp0_pos; lra).
  assert (H10 : Rmax 0 10 = 10) by (apply clamp0_pos; lra).
  assert (Hmu : 0 < 0.2) by lra.
  assert (Hmass : 0 < Rmax 0 6 + Rmax 0 1) by (rewrite H6, H1; lra).
  assert (Hv : Rabs (- 0.00005) <= VELOCITY_EPSILON).
  { apply Rabs_le; rewrite VELOCITY_EPSILON_value; lra. }
  destruct (C1_near_rest_decision (Dyn.mkInput 6 1 0.2 true 10 (- 0.00005))
              eq_refl Hmu Hmass Hv)
    as (_ & Hstatic & _).
  cbn [Dyn.massTableKg Dyn.massHangingKg Dyn.gravity Dyn.mu] in Hstatic.
  rewrite H6, H1, H10 in Hstatic.
  destruct Hstatic as (Hm & Ha & Hn & Ht & Hs); [lra |].
  fold r in Hm, Ha, Hn, Ht, Hs.
  repeat split; try assumption.
  - rewrite Ht; lra.
  - rewrite Hs; lra.
Defined.

(** C4 as stated fails when nothing rests on the table (or gravity is zero):
    with massTable = 0, massHanging = 2, mu = 0.25, gravity = 10, friction
    enabled and speed 1.4, the kinetic magnitude is 0, so the signed friction
    is 0 in both directions and both accelerations are 10. *)
Lemma C4_counterexample :
  let input := Dyn.mkInput 0 2 0.25 true 10 0 in
  Dyn.frictionEnabled input = true /\
  0 < Dyn.mu input /\
  VELOCITY_EPSILON < 1.4 /\
  Dyn.frictionSignedN (resolveDynamicForces (withVelocity input 1.4)) = 0 /\
  Dyn.frictionSignedN (resolveDynamicForces (withVelocity input (- 1.4))) = 0 /\
  Dyn.accelerationMps2 (resolveDynamicForces (withVelocity input (- 1.4))) =
    Dyn.accelerationMps2 (resolveDynamicForces (withVelocity input 1.4)) /\
  ~ frictionOpposesVelocity input 1.4.
Proof.
  intros input.
  assert (H0 : Rmax 0 0 = 0) by (apply Rmax_left; lra).
  assert (H2 : Rmax 0 2 = 2) by (apply clamp0_pos; lra).
  assert (Hmu : Rmax 0 0.25 = 0.25) by (apply clamp0_pos; lra).
  assert (He : VELOCITY_EPSILON < 1.4) by (rewrite VELOCITY_EPSILON_value; lra).
  assert (Hright := dynamic_moving (withVelocity input 1.4)).
  assert (Hleft := dynamic_moving (withVelocity input (- 1.4))).
  cbn [withVelocity input Dyn.massTableKg Dyn.massHangingKg Dyn.mu
       Dyn.frictionEnabled Dyn.gravity Dyn.velocityMps] in Hright, Hleft.
  rewrite H0, H2, Hmu in Hright, Hleft.
  rewrite Rabs_pos_eq in Hright by lra.
  replace (Rabs (- 1.4)) with 1.4 in Hleft
    by (symmetry; rewrite Rabs_left; lra).
  rewrite (gtb_true 1.4 0) in Hright by lra.
  rewrite (gtb_false (- 1.4) 0) in Hleft by lra.
  cbv zeta in Hright, Hleft.
  assert (Hr : Dyn.frictionSignedN
                 (resolveDynamicForces (withVelocity input 1.4)) = 0).
  { rewrite Hright by (reflexivity || lra).
    cbn [Dyn.frictionSignedN]; lra. }
  split; [reflexivity |]; split; [cbn [input Dyn.mu]; lra |].
  split; [exact He |]; split; [exact Hr |].
  split; [| split].
  - rewrite Hleft by (reflexivity || lra); cbn [Dyn.frictionSignedN]; lra.
  - rewrite Hleft, Hright by (reflexivity || lra).
    cbn [Dyn.accelerationMps2]; lra.
  - intros (Hneg & _); rewrite Hr in Hneg; lra.
Qed.

(** C4 (amended).  With friction enabled, [mu > 0], a positive table mass and
    positive gravity (so that the kinetic magnitude [mu * massTable * gravity]
    is positive) and a speed [v > VELOCITY_EPSILON]: moving rightward the
    signed friction is [- (mu * massTable * gravity) < 0], moving leftward it
    is [mu * massTable * gravity > 0], the mode is [kinetic] both ways, the
    net force is the drive force plus the signed friction, and the leftward
    acceleration is strictly greater than the rightward one. *)
Theorem C4_friction_opposes_velocity (input : Dyn.Input) (v : R) :
  let mT := Dyn.massTableKg input in
  let mH := Rmax 0 (Dyn.massHangingKg input) in
  let g := Dyn.gravity input in
  let kineticMagnitude := Dyn.mu input * mT * g in
  let movingRight := resolveDynamicForces (withVelocity input v) in
  let movingLeft := resolveDynamicForces (withVelocity input (- v)) in
  Dyn.frictionEnabled input = true ->
  0 < Dyn.mu input -> 0 < mT -> 0 < g ->
  VELOCITY_EPSILON < v ->
  frictionOpposesVelocity input v /\
  Dyn.mode movingLeft = kinetic /\
  Dyn.frictionSignedN movingRight = - kineticMagnitude /\
  Dyn.frictionSignedN movingLeft = kineticMagnitude /\
  Dyn.netForceN movingRight = mH * g + Dyn.frictionSignedN movingRight /\
  Dyn.netForceN movingLeft = mH * g + Dyn.frictionSignedN movingLeft /\
  Dyn.accelerationMps2 movingRight = Dyn.netForceN movingRight / (mT + mH) /\
  Dyn.accelerationMps2 movingLeft = Dyn.netForceN movingLeft / (mT + mH).
Proof.
  intros mT mH g kineticMagnitude movingRight movingLeft Hf Hmu HmT Hg Hv.
  subst mT mH g kineticMagnitude movingRight movingLeft.
  assert (He : 0 < VELOCITY_EPSILON) by (rewrite VELOCITY_EPSILON_value; lra).
  assert (HmH : 0 <= Rmax 0 (Dyn.massHangingKg input)) by apply clamp0_nonneg.
  assert (Hk : 0 < Dyn.mu input * Dyn.massTableKg input * Dyn.gravity input)
    by (repeat apply Rmult_lt_0_compat; assumption).
  assert (Hright := dynamic_moving (withVelocity input v)).
  assert (Hleft := dynamic_moving (withVelocity input (- v))).
  cbn [withVelocity Dyn.massTableKg Dyn.massHangingKg Dyn.mu
       Dyn.frictionEnabled Dyn.gravity Dyn.velocityMps] in Hright, Hleft.
  rewrite (clamp0_pos _ Hmu), (clamp0_pos _ HmT), (clamp0_pos _ Hg)
    in Hright, Hleft.
  rewrite Rabs_pos_eq in Hright by lra.
  rewrite Rabs_Ropp, Rabs_pos_eq in Hleft by lra.
  rewrite (gtb_true v 0) in Hright by lra.
  rewrite (gtb_false (- v) 0) in Hleft by lra.
  cbv zeta in Hright, Hleft.
  specialize (Hright ltac:(lra) Hf ltac:(lra) Hv).
  specialize (Hleft ltac:(lra) Hf ltac:(lra) Hv).
  unfold frictionOpposesVelocity; cbv zeta.
  rewrite Hright, Hleft.
  cbn [Dyn.frictionSignedN Dyn.mode Dyn.netForceN Dyn.accelerationMps2].
  repeat split; try lra.
  unfold Rdiv; apply Rmult_lt_compat_r; [apply Rinv_0_lt_compat |]; lra.
Qed.

(** The repository's test: massTable = 4, massHanging = 2, mu = 0.25,
    gravity = 10, speed 1.4. *)
Lemma C4_example :
  frictionOpposesVelocity (Dyn.mkInput 4 2 0.25 true 10 0) 1.4.
Proof.
  assert (Hmu : 0 < 0.25) by lra.
  assert (HmT : 0 < 4) by lra.
  assert (Hg : 0 < 10) by lra.
  assert (Hv : VELOCITY_EPSILON < 1.4) by (rewrite VELOCITY_EPSILON_value; lra).
  exact (proj1 (C4_friction_opposes_velocity (Dyn.mkInput 4 2 0.25 true 10 0)
                  1.4 eq_refl Hmu HmT Hg Hv)).
Defined.

(** *** Clamping *)

(** C8.  Both solvers are total functions that work on the clamped masses,
    gravity and [mu] (and target distance, from rest): the result on any
    input is the result on the input with those fields replaced by
    [max(0, field)], so a negative value acts as zero.  The velocity is not
    clamped: flooring a negative velocity to zero changes the result. *)
Theorem C8_inputs_clamped :
  (forall input : Rest.Input,
     calculateHalfAtwoodFromRest input =
     calculateHalfAtwoodFromRest (clampedRest input)) /\
  (forall input : Dyn.Input,
     resolveDynamicForces input = resolveDynamicForces (clampedDyn input)) /\
  (forall input input' : Rest.Input,
     Rmax 0 (Rest.massTableKg input) = Rmax 0 (Rest.massTableKg input') ->
     Rmax 0 (Rest.massHangingKg input) = Rmax 0 (Rest.massHangingKg input') ->
     Rmax 0 (Rest.mu input) = Rmax 0 (Rest.mu input') ->
     Rmax 0 (Rest.gravity input) = Rmax 0 (Rest.gravity input') ->
     Rmax 0 (Rest.targetDistanceM input) =
       Rmax 0 (Rest.targetDistanceM input') ->
     Rest.frictionEnabled input = Rest.frictionEnabled input' ->
     calculateHalfAtwoodFromRest input = calculateHalfAtwoodFromRest input') /\
  (forall input input' : Dyn.Input,
     Rmax 0 (Dyn.massTableKg input) = Rmax 0 (Dyn.massTableKg input') ->
     Rmax 0 (Dyn.massHangingKg input) = Rmax 0 (Dyn.massHangingKg input') ->
     Rmax 0 (Dyn.mu input) = Rmax 0 (Dyn.mu input') ->
     Rmax 0 (Dyn.gravity input) = Rmax 0 (Dyn.gravity input') ->
     Dyn.frictionEnabled input = Dyn.frictionEnabled input' ->
     Dyn.velocityMps input = Dyn.velocityMps input' ->
     resolveDynamicForces input = resolveDynamicForces input') /\
  (let input := Dyn.mkInput 4 2 0.25 true 10 (- 1.4) in
   Dyn.frictionSignedN (resolveDynamicForces input) = 10 /\
   Dyn.frictionSignedN
     (resolveDynamicForces (withVelocity input (Rmax 0 (- 1.4)))) = - 10).
Proof.
  assert (Hrest : forall input input' : Rest.Input,
     Rmax 0 (Rest.massTableKg input) = Rmax 0 (Rest.massTableKg input') ->
     Rmax 0 (Rest.massHangingKg input) = Rmax 0 (Rest.massHangingKg input') ->
     Rmax 0 (Rest.mu input) = Rmax 0 (Rest.mu input') ->
     Rmax 0 (Rest.gravity input) = Rmax 0 (Rest.gravity input') ->
     Rmax 0 (Rest.targetDistanceM input) =
       Rmax 0 (Rest.targetDistanceM input') ->
     Rest.frictionEnabled input = Rest.frictionEnabled input' ->
     calculateHalfAtwoodFromRest input = calculateHalfAtwoodFromRest input').
  { intros input input' HT HH Hmu Hg Hd Hf; unfold calculateHalfAtwoodFromRest.
    rewrite HT, HH, Hmu, Hg, Hd, Hf; reflexivity. }
  assert (Hdyn : forall input input' : Dyn.Input,
     Rmax 0 (Dyn.massTableKg input) = Rmax 0 (Dyn.massTableKg input') ->
     Rmax 0 (Dyn.massHangingKg input) = Rmax 0 (Dyn.massHangingKg input') ->
     Rmax 0 (Dyn.mu input) = Rmax 0 (Dyn.mu input') ->
     Rmax 0 (Dyn.gravity input) = Rmax 0 (Dyn.gravity input') ->
     Dyn.frictionEnabled input = Dyn.frictionEnabled input' ->
     Dyn.velocityMps input = Dyn.velocityMps input' ->
     resolveDynamicForces input = resolveDynamicForces input').
  { intros input input' HT HH Hmu Hg Hf Hv; unfold resolveDynamicForces.
    rewrite HT, HH, Hmu, Hg, Hf, Hv; reflexivity. }
  split; [| split; [| split; [exact Hrest | split; [exact Hdyn |]]]].
  - intros input; apply Hrest;
      cbn [clampedRest Rest.massTableKg Rest.massHangingKg Rest.mu
           Rest.gravity Rest.targetDistanceM Rest.frictionEnabled];
      rewrite ?clamp0_idem; reflexivity.
  - intros input; apply Hdyn;
      cbn [clampedDyn Dyn.massTableKg Dyn.massHangingKg Dyn.mu
           Dyn.gravity Dyn.velocityMps Dyn.frictionEnabled];
      rewrite ?clamp0_idem; reflexivity.
  - intros input.
    assert (H4 : Rmax 0 4 = 4) by (apply clamp0_pos; lra).
    assert (H2 : Rmax 0 2 = 2) by (apply clamp0_pos; lra).
    assert (H10 : Rmax 0 10 = 10) by (apply clamp0_pos; lra).
    assert (Hmu : Rmax 0 0.25 = 0.25) by (apply clamp0_pos; lra).
    assert (Hv0 : Rmax 0 (- 1.4) = 0) by (apply Rmax_left; lra).
    assert (Hmoving := dynamic_moving input).
    assert (Hrest0 := dynamic_rest_kinetic (withVelocity input (Rmax 0 (- 1.4)))).
    cbn [withVelocity input Dyn.massTableKg Dyn.massHangingKg Dyn.mu
         Dyn.frictionEnabled Dyn.gravity Dyn.velocityMps] in Hmoving, Hrest0.
    rewrite H4, H2, H10, Hmu in Hmoving, Hrest0.
    rewrite Hv0, Rabs_R0 in Hrest0.
    replace (Rabs (- 1.4)) with 1.4 in Hmoving
      by (symmetry; rewrite Rabs_left; lra).
    rewrite (gtb_false (- 1.4) 0) in Hmoving by lra.
    cbv zeta in Hmoving, Hrest0.
    assert (He := VELOCITY_EPSILON_value).
    rewrite Hv0.
    rewrite Hmoving, Hrest0 by (reflexivity || lra).
    cbn [Dyn.frictionSignedN]; split; lra.
Qed.

(** *** Newton consistency *)

(** Two non-negative masses that sum to nothing are both nothing. *)
Lemma no_mass (a b : R) : Rmax 0 a + Rmax 0 b <= 0 -> Rmax 0 b = 0.
Proof.
  intros H; pose proof (clamp0_nonneg a); pose proof (clamp0_nonneg b); lra.
Qed.

Lemma drive_nonneg (m g : R) : 0 <= Rmax 0 m * Rmax 0 g.
Proof. apply Rmult_le_pos; apply clamp0_nonneg. Qed.

Lemma kinetic_nonneg (c m g : R) : 0 <= Rmax 0 c * Rmax 0 m * Rmax 0 g.
Proof. repeat apply Rmult_le_pos; apply clamp0_nonneg. Qed.

(** C10.  Every result of both solvers, whichever return statement produced
    it, satisfies [netForceN = (massTable + massHanging) * accelerationMps2]
    and [tensionN = massHanging * (gravity - accelerationMps2)] on the clamped
    quantities; a result of [resolveDynamicForces] also has
    [frictionMagnitudeN = |frictionSignedN|]. *)
Theorem C10_newton_consistency :
  (forall input : Rest.Input,
     let mT := Rmax 0 (Rest.massTableKg input) in
     let mH := Rmax 0 (Rest.massHangingKg input) in
     let g := Rmax 0 (Rest.gravity input) in
     let r := calculateHalfAtwoodFromRest input in
     Rest.netForceN r = (mT + mH) * Rest.accelerationMps2 r /\
     Rest.tensionN r = mH * (g - Rest.accelerationMps2 r)) /\
  (forall input : Dyn.Input,
     let mT := Rmax 0 (Dyn.massTableKg input) in
     let mH := Rmax 0 (Dyn.massHangingKg input) in
     let g := Rmax 0 (Dyn.gravity input) in
     let r := resolveDynamicForces input in
     Dyn.netForceN r = (mT + mH) * Dyn.accelerationMps2 r /\
     Dyn.tensionN r = mH * (g - Dyn.accelerationMps2 r) /\
     Dyn.frictionMagnitudeN r = Rabs (Dyn.frictionSignedN r)).
Proof.
  split.
  - intros input mT mH g r; subst mT mH g r.
    destruct (fromRest_cases input)
      as [[Hz Hr] | [[Hm Hr] | [(Hm & Hd & Hr) | (Hm & Hd & Hr)]]];
      rewrite Hr; clear Hr; cbv zeta;
      cbn [Rest.netForceN Rest.accelerationMps2 Rest.tensionN].
    + rewrite (no_mass _ _ Hz); split; ring.
    + rewrite quotient_cancel by exact Hm; split; reflexivity.
    + split; ring.
    + rewrite quotient_cancel by exact Hm; split; reflexivity.
  - intros input mT mH g r; subst mT mH g r.
    destruct (dynamic_cases input)
      as [[Hz Hr] | [[Hm Hr] | [(Hm & Hd & Hr) | [(Hm & Hd & Hr)
                                                 | (Hm & Hv & Hr)]]]];
      rewrite Hr; clear Hr; cbv zeta;
      cbn [Dyn.netForceN Dyn.accelerationMps2 Dyn.tensionN
           Dyn.frictionMagnitudeN Dyn.frictionSignedN].
    + rewrite (no_mass _ _ Hz), Rabs_R0; repeat split; ring.
    + rewrite quotient_cancel by exact Hm; rewrite Rabs_R0; repeat split.
    + rewrite Rabs_Ropp, Rabs_pos_eq by apply drive_nonneg.
      repeat split; ring.
    + rewrite quotient_cancel by exact Hm.
      rewrite Rabs_Ropp, Rabs_pos_eq by apply kinetic_nonneg.
      repeat split.
    + rewrite quotient_cancel by exact Hm.
      split; [reflexivity |]; split; [reflexivity |].
      destruct (Dyn.velocityMps input >? 0);
        rewrite ?Rabs_Ropp, Rabs_pos_eq by apply kinetic_nonneg; reflexivity.
Qed.

(** ** The resonance equations *)

Import Resonance.

(** C5.  [inferredSpeedMps] is the algebraic inverse of
    [firstHarmonicAirLengthM]: the length is [speed / (4 f) - 0.3 d], the
    speed is [4 f (length + 0.3 d)], and for [f > 0], [s > 0] and [d >= 0]
    the speed inferred from the first-harmonic length of [s] is [s] (and the
    length computed from the inferred speed is the length again). *)
Theorem C5_speed_length_round_trip (f s d : R) :
  0 < f -> 0 < s -> 0 <= d ->
  firstHarmonicAirLengthM (Length.mkInput f s d) = s / (4 * f) - 0.3 * d /\
  (forall airLengthM : R,
     inferredSpeedMps (Speed.mkInput f airLengthM d)
       = 4 * f * (airLengthM + 0.3 * d)) /\
  inferredSpeedMps
    (Speed.mkInput f (firstHarmonicAirLengthM (Length.mkInput f s d)) d) = s /\
  (forall airLengthM : R,
     firstHarmonicAirLengthM
       (Length.mkInput f (inferredSpeedMps (Speed.mkInput f airLengthM d)) d)
       = airLengthM).
Proof.
  intros Hf Hs Hd.
  unfold firstHarmonicAirLengthM, inferredSpeedMps, END_CORRECTION_FACTOR.
  cbn [Length.frequencyHz Length.speedMps Length.tubeDiameterM
       Speed.frequencyHz Speed.airLengthM Speed.tubeDiameterM].
  repeat split; try reflexivity; intros; field; lra.
Qed.

(** The repository's test: 384 Hz, 343 m/s, a 4 cm tube. *)
Lemma C5_example :
  inferredSpeedMps
    (Speed.mkInput 384
       (firstHarmonicAirLengthM (Length.mkInput 384 343 0.04)) 0.04) = 343.
Proof.
  assert (Hf : 0 < 384) by lra.
  assert (Hs : 0 < 343) by lra.
  assert (Hd : 0 <= 0.04) by lra.
  exact (proj1 (proj2 (proj2 (C5_speed_length_round_trip 384 343 0.04 Hf Hs Hd)))).
Defined.

Lemma default_bandwidth_pos (targetLengthM : R) :
  0 < bandwidthUsed targetLengthM None.
Proof.
  unfold bandwidthUsed.
  pose proof (Rmax_l 0.008 (targetLengthM * 0.06)); lra.
Qed.

Lemma resonanceStrength_eq (air target : R) (bandwidthM : option R) :
  resonanceStrength (Strength.mkInput air target bandwidthM) =
  JsMath.exp
    (- ((air - target) * (air - target))
     / (2 * bandwidthUsed target bandwidthM * bandwidthUsed target bandwidthM)).
Proof. destruct bandwidthM; reflexivity. Qed.

Lemma exp_nonpos_le_1 (x : R) : x <= 0 -> exp x <= 1.
Proof.
  intros [Hx | ->]; [| rewrite exp_0; lra].
  rewrite <- exp_0; left; apply exp_increasing; exact Hx.
Qed.


Lemma exp_le_iff (x y : R) : exp x <= exp y <-> x <= y.
Proof.
  split.
  - intros [H | H]; [left; apply exp_lt_inv; exact H
                    | right; apply exp_inv; exact H].
  - intros [H | ->]; [left; apply exp_increasing; exact H | right; reflexivity].
Qed.

Lemma gaussian_denominator_pos (b : R) : b <> 0 -> 0 < 2 * b * b.
Proof.
  intros Hb.
  assert (0 < b * b); [| lra].
  destruct (Rtotal_order b 0) as [Hn | [Hz | Hp]];
    [| contradiction | apply Rmult_lt_0_compat; assumption].
  replace (b * b) with ((- b) * (- b)) by ring.
  apply Rmult_lt_0_compat; lra.
Qed.

(** The exponent of the Gaussian is never positive. *)
Lemma gaussian_exponent_nonpos (offset b : R) :
  b <> 0 -> - (offset * offset) / (2 * b * b) <= 0.
Proof.
  intros Hb; pose proof (gaussian_denominator_pos b Hb) as HD.
  assert (Hq : 0 <= offset * offset) by apply Rle_0_sqr.
  apply Rmult_le_reg_r with (2 * b * b); [exact HD |].
  replace (- (offset * offset) / (2 * b * b) * (2 * b * b))
    with (- (offset * offset)) by (field; lra).
  lra.
Qed.

(** *** [Math.exp] with its underflow *)

Lemma ln_2_lt_1 : ln 2 < 1.
Proof.
  rewrite <- (ln_exp 1); apply ln_increasing; [lra |].
  pose proof (exp_ineq1 1 ltac:(lra)); lra.
Qed.

Lemma underflow_bounds : -1075 < JsMath.underflow < -537.
Proof.
  unfold JsMath.underflow.
  pose proof ln_2_lt_1; pose proof ln_lt_2; lra.
Qed.

Lemma ln_above_minus_1 (c : R) : 0.5 <= c -> -1 < ln c.
Proof.
  intros Hc.
  assert (He : exp (- (1)) < 0.5).
  { rewrite exp_Ropp.
    pose proof (exp_ineq1 1 ltac:(lra)) as H2.
    assert (/ exp 1 < / 2) by (apply Rinv_lt_contravar; lra).
    lra. }
  replace (-1) with (- (1)) by lra.
  rewrite <- (ln_exp (- (1))); apply ln_increasing; [apply exp_pos | lra].
Qed.

Lemma jsexp_underflow (x : R) : x < JsMath.underflow -> JsMath.exp x = 0.
Proof. intros H; unfold JsMath.exp; rewrite gtb_true by exact H; reflexivity. Qed.

Lemma jsexp_normal (x : R) : JsMath.underflow <= x -> JsMath.exp x = exp x.
Proof. intros H; unfold JsMath.exp; rewrite gtb_false by exact H; reflexivity. Qed.

Lemma jsexp_cases (x : R) :
  (x < JsMath.underflow /\ JsMath.exp x = 0) \/
  (JsMath.underflow <= x /\ JsMath.exp x = exp x).
Proof.
  destruct (Rlt_le_dec x JsMath.underflow) as [H | H];
    [left; split; [exact H | apply jsexp_underflow; exact H]
    | right; split; [exact H | apply jsexp_normal; exact H]].
Qed.

Lemma jsexp_0 : JsMath.exp 0 = 1.
Proof.
  rewrite jsexp_normal by (pose proof underflow_bounds; lra); apply exp_0.
Qed.

Lemma jsexp_range (x : R) : x <= 0 -> 0 <= JsMath.exp x <= 1.
Proof.
  intros Hx; destruct (jsexp_cases x) as [[_ ->] | [_ ->]]; [lra |].
  split; [left; apply exp_pos | apply exp_nonpos_le_1; exact Hx].
Qed.

Lemma jsexp_pos_iff (x : R) : 0 < JsMath.exp x <-> JsMath.underflow <= x.
Proof.
  destruct (jsexp_cases x) as [[H ->] | [H ->]]; split; intros; try lra.
  apply exp_pos.
Qed.

Lemma jsexp_mono (x y : R) : x <= y -> JsMath.exp x <= JsMath.exp y.
Proof.
  intros Hxy.
  destruct (jsexp_cases x) as [[Hx ->] | [Hx ->]];
    destruct (jsexp_cases y) as [[Hy ->] | [Hy ->]]; try lra.
  - left; apply exp_pos.
  - apply exp_le_iff; exact Hxy.
Qed.


Lemma jsexp_one_iff (x : R) : JsMath.exp x = 1 <-> x = 0.
Proof.
  split; [| intros ->; apply jsexp_0].
  destruct (jsexp_cases x) as [[_ ->] | [_ ->]]; [lra |].
  intros H; rewrite <- exp_0 in H; apply exp_inv; exact H.
Qed.

(** [Math.exp] reaches a level [c] of at least one half exactly where the
    exponential does. *)
Lemma jsexp_level (c x : R) :
  0.5 <= c -> (c <= JsMath.exp x <-> ln c <= x).
Proof.
  intros Hc.
  pose proof (ln_above_minus_1 c Hc) as Hl.
  pose proof underflow_bounds as Hu.
  destruct (jsexp_cases x) as [[Hx ->] | [Hx ->]]; [split; intros; lra |].
  rewrite <- (exp_ln c) at 1 by lra.
  apply exp_le_iff.
Qed.





Local Open Scope string_scope.

(** C7.  [qualityBand] returns "High", accepted, exactly when
    [strength >= 0.94]; "Fair", not accepted, exactly when
    [0.8 <= strength < 0.94]; and "Off peak", not accepted, otherwise.  Both
    thresholds belong to the upper band; in particular 0.95 is accepted, 0.85
    is not, and 0.4 is "Off peak". *)
Theorem C7_quality_band_thresholds (strength : R) :
  (0.94 <= strength <-> qualityBand strength = mkBand "High" true good) /\
  (0.8 <= strength < 0.94 <-> qualityBand strength = mkBand "Fair" false ok) /\
  (strength < 0.8 <-> qualityBand strength = mkBand "Off peak" false low) /\
  (label (qualityBand strength) = "High" <-> 0.94 <= strength) /\
  (accepted (qualityBand strength) = true <-> 0.94 <= strength) /\
  (label (qualityBand strength) = "Fair" <-> 0.8 <= strength < 0.94) /\
  (label (qualityBand strength) = "Off peak" <-> strength < 0.8) /\
  qualityBand 0.94 = mkBand "High" true good /\
  qualityBand 0.8 = mkBand "Fair" false ok /\
  accepted (qualityBand 0.95) = true /\
  accepted (qualityBand 0.85) = false /\
  label (qualityBand 0.4) = "Off peak".
Proof.
  assert (Hband : forall s,
            (0.94 <= s /\ qualityBand s = mkBand "High" true good) \/
            (0.8 <= s < 0.94 /\ qualityBand s = mkBand "Fair" false ok) \/
            (s < 0.8 /\ qualityBand s = mkBand "Off peak" false low)).
  { intros s; unfold qualityBand.
    destruct (Rle_lt_dec 0.94 s) as [H1 | H1].
    - left; rewrite (geb_true _ _ H1); split; [exact H1 | reflexivity].
    - right; rewrite (geb_false _ _ H1).
      destruct (Rle_lt_dec 0.8 s) as [H2 | H2].
      + left; rewrite (geb_true _ _ H2); split; [lra | reflexivity].
      + right; rewrite (geb_false _ _ H2); split; [lra | reflexivity]. }
  repeat match goal with |- _ /\ _ => split end.
  1-7: destruct (Hband strength) as [[Hs Hq] | [[Hs Hq] | [Hs Hq]]];
       rewrite Hq; cbn [label accepted];
       split; intros H; try reflexivity; try discriminate; try lra;
       try exact Hs.
  - destruct (Hband 0.94) as [[Hs Hq] | [[Hs Hq] | [Hs Hq]]];
      [exact Hq | lra | lra].
  - destruct (Hband 0.8) as [[Hs Hq] | [[Hs Hq] | [Hs Hq]]];
      [lra | exact Hq | lra].
  - destruct (Hband 0.95) as [[Hs Hq] | [[Hs Hq] | [Hs Hq]]];
      [rewrite Hq; reflexivity | lra | lra].
  - destruct (Hband 0.85) as [[Hs Hq] | [[Hs Hq] | [Hs Hq]]];
      [lra | rewrite Hq; reflexivity | lra].
  - destruct (Hband 0.4) as [[Hs Hq] | [[Hs Hq] | [Hs Hq]]];
      [lra | lra | rewrite Hq; reflexivity].
Qed.

(** * Further properties of the physics modules *)

Local Close Scope string_scope.

(** ** [clamp] *)

Lemma clamp_cases (value min max : R) :
  min <= max ->
  (value <= min /\ clamp value min max = min) \/
  (min <= value <= max /\ clamp value min max = value) \/
  (max <= value /\ clamp value min max = max).
Proof.
  intros Hmm; unfold clamp.
  destruct (Rle_lt_dec value min) as [Hlo | Hlo].
  - left; split; [exact Hlo |].
    rewrite (Rmax_left min value) by exact Hlo.
    apply Rmin_right; exact Hmm.
  - right; rewrite (Rmax_right min value) by lra.
    destruct (Rle_lt_dec value max) as [Hhi | Hhi].
    + left; split; [lra | apply Rmin_right; exact Hhi].
    + right; split; [lra | apply Rmin_left; lra].
Qed.

Lemma clamp_le_max (value min max : R) : clamp value min max <= max.
Proof. apply Rmin_l. Qed.

Lemma clamp_ge_min (value min max : R) :
  min <= max -> min <= clamp value min max.
Proof.
  intros H; destruct (clamp_cases value min max H)
    as [[H1 ->] | [[H1 ->] | [H1 ->]]]; lra.
Qed.

Lemma clamp_below (value min max : R) :
  min <= max -> value <= min -> clamp value min max = min.
Proof.
  intros Hmm Hlo; unfold clamp.
  rewrite (Rmax_left min value) by exact Hlo.
  apply Rmin_right; exact Hmm.
Qed.

Lemma clamp_inside (value min max : R) :
  min <= value <= max -> clamp value min max = value.
Proof.
  intros [Hlo Hhi]; unfold clamp.
  rewrite (Rmax_right min value) by exact Hlo.
  apply Rmin_right; exact Hhi.
Qed.

(** X1.  With ordered bounds, [clamp] returns a value inside [min, max]: the
    value itself when it is inside, the nearer bound when it is outside. *)
Theorem clamp_within_bounds (value min max : R) :
  min <= max ->
  min <= clamp value min max <= max /\
  (min <= value <= max -> clamp value min max = value) /\
  (value <= min -> clamp value min max = min) /\
  (max <= value -> clamp value min max = max) /\
  (clamp value min max = value <-> min <= value <= max).
Proof.
  intros Hmm.
  destruct (clamp_cases value min max Hmm)
    as [[H1 Hc] | [[H1 Hc] | [H1 Hc]]]; rewrite Hc;
    repeat split; intros; lra.
Qed.

(** The bounds of the table-mass input: 3000 kg is cut to 2500, 0 is raised
    to 0.2. *)
Lemma clamp_within_bounds_example :
  clamp 3000 0.2 2500 = 2500 /\ clamp 0 0.2 2500 = 0.2.
Proof.
  assert (H : 0.2 <= 2500) by lra.
  split.
  - apply (proj1 (proj2 (proj2 (proj2 (clamp_within_bounds 3000 0.2 2500 H))))).
    lra.
  - apply (proj1 (proj2 (proj2 (clamp_within_bounds 0 0.2 2500 H)))).
    lra.
Defined.

(** X2.  Whatever the bounds, [clamp] never exceeds [max], is monotone in the
    value and idempotent; with inverted bounds ([max < min]) it returns [max]
    for every value. *)
Theorem clamp_any_bounds (value other min max : R) :
  clamp value min max <= max /\
  (max < min -> clamp value min max = max) /\
  (value <= other -> clamp value min max <= clamp other min max) /\
  clamp (clamp value min max) min max = clamp value min max.
Proof.
  split; [apply clamp_le_max |].
  assert (Hinv : forall v, max < min -> clamp v min max = max).
  { intros v H; unfold clamp; apply Rmin_left.
    pose proof (Rmax_l min v); lra. }
  split; [apply Hinv |]; split.
  - intros Hle; unfold clamp.
    apply Rle_min_compat_l, Rle_max_compat_l; exact Hle.
  - destruct (Rle_lt_dec min max) as [Hmm | Hmm].
    + apply clamp_inside.
      split; [apply clamp_ge_min; exact Hmm | apply clamp_le_max].
    + rewrite !(Hinv _ Hmm); reflexivity.
Qed.

(** ** Bounds on the forces *)

Lemma quotient_between (x t lo hi : R) :
  0 < t -> lo * t <= x <= hi * t -> lo <= x / t <= hi.
Proof.
  intros Ht [Hlo Hhi].
  assert (Hi : 0 < / t) by (apply Rinv_0_lt_compat; exact Ht).
  assert (Hx : x / t * t = x) by (field; lra).
  split; apply Rmult_le_reg_r with t; try exact Ht; rewrite Hx; assumption.
Qed.

Lemma coeff_nonzero (mu : R) : Rmax 0 mu <> 0 <-> 0 < mu.
Proof.
  unfold Rmax; destruct (Rle_dec 0 mu); split; intros; lra.
Qed.

(** X3.  For every input, the from-rest solver returns an acceleration
    between 0 and the clamped gravity, a tension, a net force and a friction
    between 0 and the drive force, and the drive force
    [massHanging * gravity] itself. *)
Theorem fromRest_force_bounds (input : Rest.Input) :
  let mH := Rmax 0 (Rest.massHangingKg input) in
  let g := Rmax 0 (Rest.gravity input) in
  let r := calculateHalfAtwoodFromRest input in
  Rest.driveForceN r = mH * g /\
  0 <= Rest.accelerationMps2 r <= g /\
  0 <= Rest.tensionN r <= Rest.driveForceN r /\
  0 <= Rest.netForceN r <= Rest.driveForceN r /\
  0 <= Rest.frictionN r <= Rest.driveForceN r.
Proof.
  intros mH g r; subst mH g r.
  pose proof (clamp0_nonneg (Rest.massTableKg input)) as HT.
  pose proof (clamp0_nonneg (Rest.massHangingKg input)) as HH.
  pose proof (clamp0_nonneg (Rest.gravity input)) as HG.
  pose proof (drive_nonneg (Rest.massHangingKg input) (Rest.gravity input))
    as HD.
  pose proof (kinetic_nonneg (Rest.mu input) (Rest.massTableKg input)
                (Rest.gravity input)) as HK.
  destruct (fromRest_cases input)
    as [[Hz Hr] | [[Hm Hr] | [(Hm & Hd & Hr) | (Hm & Hd & Hr)]]];
    rewrite Hr; clear Hr; cbv zeta;
    cbn [Rest.netForceN Rest.accelerationMps2 Rest.tensionN Rest.frictionN
         Rest.driveForceN].
  - repeat split; try lra.
  - match goal with
    | |- context [?x / ?t] =>
        assert (Ha : 0 <= x / t <= Rmax 0 (Rest.gravity input))
          by (apply quotient_between; [exact Hm | nra])
    end.
    repeat split; try lra; nra.
  - repeat split; try lra.
  - match goal with
    | |- context [?x / ?t] =>
        assert (Ha : 0 <= x / t <= Rmax 0 (Rest.gravity input))
          by (apply quotient_between; [exact Hm | nra])
    end.
    repeat split; try lra; nra.
Qed.

(** X4.  What the mode of a from-rest result means.  [frictionless]: no
    friction, net force equal to the drive force.  [kinetic]: the system
    moves, with positive acceleration and friction
    [mu * massTable * gravity] below the drive force.  [static_hold]: no
    acceleration, no net force, not moved, no time to target, tension equal
    to friction.  The mode is [static_hold] exactly when the clamped total
    mass is zero, or friction is enabled with [mu > 0] and the drive force
    does not exceed [mu * massTable * gravity]. *)
Theorem fromRest_mode_meaning (input : Rest.Input) :
  let mT := Rmax 0 (Rest.massTableKg input) in
  let mH := Rmax 0 (Rest.massHangingKg input) in
  let g := Rmax 0 (Rest.gravity input) in
  let cap := Rmax 0 (Rest.mu input) * mT * g in
  let r := calculateHalfAtwoodFromRest input in
  (Rest.mode r = frictionless ->
     Rest.frictionN r = 0 /\ Rest.netForceN r = mH * g /\
     (Rest.moved r = true <-> 0 < mH * g)) /\
  (Rest.mode r = kinetic ->
     Rest.moved r = true /\ 0 < Rest.accelerationMps2 r /\
     Rest.frictionN r = cap /\ cap < mH * g) /\
  (Rest.mode r = static_hold ->
     Rest.accelerationMps2 r = 0 /\ Rest.netForceN r = 0 /\
     Rest.moved r = false /\ Rest.timeToTargetS r = None /\
     Rest.tensionN r = Rest.frictionN r) /\
  (Rest.mode r = static_hold <->
     mT + mH <= 0 \/
     (Rest.frictionEnabled input = true /\ 0 < Rest.mu input /\
      mH * g <= cap)).
Proof.
  intros mT mH g cap r; subst mT mH g cap r.
  pose proof (clamp0_nonneg (Rest.massTableKg input)) as HT.
  pose proof (clamp0_nonneg (Rest.massHangingKg input)) as HH.
  pose proof (clamp0_nonneg (Rest.gravity input)) as HG.
  destruct (Rle_lt_dec (Rmax 0 (Rest.massTableKg input)
                        + Rmax 0 (Rest.massHangingKg input)) 0) as [Hz | Hm].
  { rewrite (fromRest_zero_mass input Hz).
    cbn [Rest.mode Rest.frictionN Rest.netForceN Rest.moved
         Rest.accelerationMps2 Rest.timeToTargetS Rest.tensionN].
    repeat split; try discriminate; try reflexivity; intros; auto. }
  destruct (Rest.frictionEnabled input) eqn:Hf;
    [destruct (Req_dec_T (Rmax 0 (Rest.mu input)) 0) as [Hc | Hc] |].
  - (* friction enabled, mu clamps to 0 *)
    rewrite (fromRest_frictionless input Hm (or_intror Hc)); cbv zeta.
    cbn [Rest.mode Rest.frictionN Rest.netForceN Rest.moved
         Rest.accelerationMps2 Rest.timeToTargetS Rest.tensionN].
    assert (Hmu : ~ 0 < Rest.mu input) by (rewrite <- coeff_nonzero; tauto).
    repeat split; try discriminate; try reflexivity.
    + intros Hv; apply gtb_spec in Hv.
      apply Rmult_lt_reg_r with (/ (Rmax 0 (Rest.massTableKg input)
                                    + Rmax 0 (Rest.massHangingKg input)));
        [apply Rinv_0_lt_compat; exact Hm | rewrite Rmult_0_l; exact Hv].
    + intros Hd; apply gtb_true, quotient_pos; assumption.
    + intros [Hz | (_ & Hp & _)]; [lra | contradiction].
  - (* friction enabled, mu positive *)
    assert (Hmu : 0 < Rest.mu input) by (apply coeff_nonzero; exact Hc).
    match goal with
    | |- context [_ = kinetic -> _ /\ _ /\ _ = ?k /\ ?k < ?d] =>
        destruct (Rle_lt_dec d k) as [Hd | Hd]
    end.
    + rewrite (fromRest_static_hold input Hm Hf Hc Hd).
      cbn [Rest.mode Rest.frictionN Rest.netForceN Rest.moved
           Rest.accelerationMps2 Rest.timeToTargetS Rest.tensionN].
      repeat split; try discriminate; try reflexivity.
      intros _; right; repeat split; assumption.
    + rewrite (fromRest_kinetic input Hm Hf Hc Hd); cbv zeta.
      cbn [Rest.mode Rest.frictionN Rest.netForceN Rest.moved
           Rest.accelerationMps2 Rest.timeToTargetS Rest.tensionN].
      assert (Ha : 0 < (Rmax 0 (Rest.massHangingKg input)
                        * Rmax 0 (Rest.gravity input)
                        - Rmax 0 (Rest.mu input)
                          * Rmax 0 (Rest.massTableKg input)
                          * Rmax 0 (Rest.gravity input))
                       / (Rmax 0 (Rest.massTableKg input)
                          + Rmax 0 (Rest.massHangingKg input)))
        by (apply quotient_pos; lra).
      repeat split; try discriminate; try reflexivity; try assumption.
      * apply gtb_true; exact Ha.
      * intros [Hz | (_ & _ & Hle)]; exfalso; lra.
  - (* friction disabled *)
    rewrite (fromRest_frictionless input Hm (or_introl Hf)); cbv zeta.
    cbn [Rest.mode Rest.frictionN Rest.netForceN Rest.moved
         Rest.accelerationMps2 Rest.timeToTargetS Rest.tensionN].
    repeat split; try discriminate; try reflexivity.
    + intros Hv; apply gtb_spec in Hv.
      apply Rmult_lt_reg_r with (/ (Rmax 0 (Rest.massTableKg input)
                                    + Rmax 0 (Rest.massHangingKg input)));
        [apply Rinv_0_lt_compat; exact Hm | rewrite Rmult_0_l; exact Hv].
    + intros Hd; apply gtb_true, quotient_pos; assumption.
    + intros [Hz | (Hff & _)]; [lra | discriminate].
Qed.

(** X5.  With friction disabled, [mu <= 0] or no mass at all, the velocity
    plays no part in [resolveDynamicForces]: the result is the same for
    every velocity, carries no friction, and has the mode, acceleration,
    tension and net force of the from-rest solver on the same parameters. *)
Theorem dynamic_ignores_velocity_without_friction (input : Dyn.Input) :
  Dyn.frictionEnabled input = false \/ Dyn.mu input <= 0 \/
  Rmax 0 (Dyn.massTableKg input) + Rmax 0 (Dyn.massHangingKg input) <= 0 ->
  (forall v : R,
     resolveDynamicForces (withVelocity input v) = resolveDynamicForces input) /\
  Dyn.frictionSignedN (resolveDynamicForces input) = 0 /\
  Dyn.frictionMagnitudeN (resolveDynamicForces input) = 0 /\
  (forall targetDistanceM : R,
     let r := resolveDynamicForces input in
     let r0 := calculateHalfAtwoodFromRest (fromRestOf input targetDistanceM) in
     Dyn.mode r = Rest.mode r0 /\
     Dyn.accelerationMps2 r = Rest.accelerationMps2 r0 /\
     Dyn.tensionN r = Rest.tensionN r0 /\
     Dyn.netForceN r = Rest.netForceN r0 /\
     Dyn.driveForceN r = Rest.driveForceN r0).
Proof.
  intros H.
  destruct (Rle_lt_dec (Rmax 0 (Dyn.massTableKg input)
                        + Rmax 0 (Dyn.massHangingKg input)) 0) as [Hz | Hm].
  - (* no mass *)
    rewrite (dynamic_zero_mass input Hz).
    split; [intros v; apply (dynamic_zero_mass (withVelocity input v)); exact Hz |].
    split; [reflexivity |]; split; [reflexivity |].
    intros td r r0; subst r r0.
    rewrite (fromRest_zero_mass (fromRestOf input td)) by exact Hz.
    repeat split.
  - assert (Hf : Dyn.frictionEnabled input = false
                 \/ Rmax 0 (Dyn.mu input) = 0).
    { destruct H as [H | [H | H]];
        [left; exact H | right; apply Rmax_left; exact H | lra]. }
    rewrite (dynamic_frictionless input Hm Hf); cbv zeta.
    split; [intros v;
            apply (dynamic_frictionless (withVelocity input v)); assumption |].
    split; [reflexivity |]; split; [reflexivity |].
    intros td.
    rewrite (fromRest_frictionless (fromRestOf input td)) by assumption.
    repeat split.
Qed.

(** The baseline preset (2.5 kg, 1.2 kg, friction off): the rightward and
    the leftward run give the same result. *)
Lemma dynamic_ignores_velocity_example :
  resolveDynamicForces (Dyn.mkInput 2.5 1.2 0.2 false 10 1.4) =
  resolveDynamicForces (Dyn.mkInput 2.5 1.2 0.2 false 10 (- 1.4)).
Proof.
  destruct (dynamic_ignores_velocity_without_friction
              (Dyn.mkInput 2.5 1.2 0.2 false 10 0) (or_introl eq_refl))
    as (Hv & _).
  exact (eq_trans (Hv 1.4) (eq_sym (Hv (- 1.4)))).
Defined.

(** The acceleration of a system driven by [mH * g] and a friction [s] of
    size at most [c * mT * g]. *)
Lemma accel_range (c mT mH g s : R) :
  0 <= c -> 0 <= mT -> 0 <= mH -> 0 <= g -> 0 < mT + mH ->
  - (c * mT * g) <= s <= c * mT * g ->
  - c * g <= (mH * g + s) / (mT + mH) <= Rmax 1 c * g.
Proof.
  intros Hc HT HH HG Ht [Hlo Hhi].
  pose proof (Rmax_l 1 c) as H1.
  pose proof (Rmax_r 1 c) as H2.
  assert (P1 : 0 <= c * (g * mH))
    by (apply Rmult_le_pos; [| apply Rmult_le_pos]; assumption).
  assert (P2 : 0 <= (Rmax 1 c - 1) * (g * mH))
    by (apply Rmult_le_pos; [lra | apply Rmult_le_pos; assumption]).
  assert (P3 : 0 <= (Rmax 1 c - c) * (g * mT))
    by (apply Rmult_le_pos; [lra | apply Rmult_le_pos; assumption]).
  assert (P4 : 0 <= g * mH) by (apply Rmult_le_pos; assumption).
  apply quotient_between; [exact Ht |]; split; lra.
Qed.

(** X6.  For every input, the acceleration [resolveDynamicForces] returns
    lies between [- mu * gravity] and [max(1, mu) * gravity] (clamped
    values); when the clamped [mu] is at most 1, the acceleration never
    exceeds gravity in size and the tension is never negative. *)
Theorem dynamic_force_bounds (input : Dyn.Input) :
  let mH := Rmax 0 (Dyn.massHangingKg input) in
  let g := Rmax 0 (Dyn.gravity input) in
  let coeff := Rmax 0 (Dyn.mu input) in
  let r := resolveDynamicForces input in
  - coeff * g <= Dyn.accelerationMps2 r <= Rmax 1 coeff * g /\
  0 <= Dyn.frictionMagnitudeN r /\
  Dyn.driveForceN r = mH * g /\
  (coeff <= 1 ->
     Rabs (Dyn.accelerationMps2 r) <= g /\
     0 <= Dyn.tensionN r <= 2 * Dyn.driveForceN r).
Proof.
  intros mH g coeff r; subst r.
  assert (HT : 0 <= Rmax 0 (Dyn.massTableKg input)) by apply clamp0_nonneg.
  assert (HH : 0 <= mH) by apply clamp0_nonneg.
  assert (HG : 0 <= g) by apply clamp0_nonneg.
  assert (HC : 0 <= coeff) by apply clamp0_nonneg.
  assert (HD : 0 <= mH * g) by (apply Rmult_le_pos; assumption).
  assert (HK : 0 <= coeff * Rmax 0 (Dyn.massTableKg input) * g)
    by (repeat apply Rmult_le_pos; assumption).
  pose proof (Rmax_l 1 coeff) as H1.
  assert (H0 : - coeff * g <= 0 <= Rmax 1 coeff * g)
    by (split; [assert (0 <= coeff * g) by (apply Rmult_le_pos; assumption); lra
               | apply Rmult_le_pos; lra]).
  assert (Hacc : forall a,
            - coeff * g <= a <= Rmax 1 coeff * g ->
            coeff <= 1 ->
            Rabs a <= g /\ 0 <= mH * (g - a) <= 2 * (mH * g)).
  { intros a [Hlo Hhi] Hle.
    assert (Hmax : Rmax 1 coeff = 1) by (apply Rmax_left; exact Hle).
    rewrite Hmax in Hhi.
    assert (Hcg : coeff * g <= g) by nra.
    assert (Ha : - g <= a <= g) by lra.
    split; [apply Rabs_le; exact Ha |].
    assert (0 <= mH * (g - a)) by (apply Rmult_le_pos; lra).
    assert (0 <= mH * (g + a)) by (apply Rmult_le_pos; lra).
    lra. }
  assert (Hrange : forall s,
            0 < Rmax 0 (Dyn.massTableKg input) + mH ->
            - (coeff * Rmax 0 (Dyn.massTableKg input) * g) <= s
              <= coeff * Rmax 0 (Dyn.massTableKg input) * g ->
            - coeff * g <= (mH * g + s)
                           / (Rmax 0 (Dyn.massTableKg input) + mH)
              <= Rmax 1 coeff * g)
    by (intros s Hm Hs; apply accel_range; assumption).
  destruct (dynamic_cases input)
    as [[Hz Hr] | [[Hm Hr] | [(Hm & Hd & Hr) | [(Hm & Hd & Hr)
                                               | (Hm & Hv & Hr)]]]];
    rewrite Hr; clear Hr; cbv zeta;
    cbn [Dyn.netForceN Dyn.accelerationMps2 Dyn.tensionN
         Dyn.frictionMagnitudeN Dyn.frictionSignedN Dyn.driveForceN];
    fold mH g coeff.
  - split; [exact H0 |]; split; [lra |]; split; [reflexivity |].
    intros _; rewrite Rabs_R0; lra.
  - assert (Ha := Hrange 0 Hm ltac:(lra)).
    rewrite Rplus_0_r in Ha.
    split; [exact Ha |]; split; [lra |]; split; [reflexivity |].
    apply Hacc; exact Ha.
  - split; [exact H0 |]; split; [exact HD |]; split; [reflexivity |].
    intros _; rewrite Rabs_R0; lra.
  - assert (Ha := Hrange (- (coeff * Rmax 0 (Dyn.massTableKg input) * g))
                    Hm ltac:(lra)).
    split; [exact Ha |]; split; [exact HK |]; split; [reflexivity |].
    apply Hacc; exact Ha.
  - destruct (Dyn.velocityMps input >? 0).
    + assert (Ha := Hrange (- (coeff * Rmax 0 (Dyn.massTableKg input) * g))
                      Hm ltac:(lra)).
      split; [exact Ha |]; split; [exact HK |]; split; [reflexivity |].
      apply Hacc; exact Ha.
    + assert (Ha := Hrange (coeff * Rmax 0 (Dyn.massTableKg input) * g)
                      Hm ltac:(lra)).
      split; [exact Ha |]; split; [exact HK |]; split; [reflexivity |].
      apply Hacc; exact Ha.
Qed.

(** X7.  The bound on [mu] matters: with friction enabled, [mu > 1],
    positive masses and gravity, and a leftward velocity beyond the epsilon,
    friction pulls with the drive force, the acceleration exceeds gravity
    and the tension [massHanging * (gravity - acceleration)] returned is
    negative. *)
Theorem dynamic_negative_tension (input : Dyn.Input) :
  Dyn.frictionEnabled input = true ->
  1 < Dyn.mu input ->
  0 < Dyn.massTableKg input -> 0 < Dyn.massHangingKg input ->
  0 < Dyn.gravity input ->
  Dyn.velocityMps input < - VELOCITY_EPSILON ->
  let r := resolveDynamicForces input in
  Dyn.mode r = kinetic /\
  Dyn.gravity input < Dyn.accelerationMps2 r /\
  Dyn.tensionN r < 0.
Proof.
  intros Hf Hmu HT HH HG Hv r; subst r.
  assert (He := VELOCITY_EPSILON_value).
  assert (H0 : 0 < Dyn.mu input) by lra.
  assert (Hmove := dynamic_moving input).
  rewrite (clamp0_pos _ H0), (clamp0_pos _ HT), (clamp0_pos _ HH),
    (clamp0_pos _ HG) in Hmove.
  rewrite (gtb_false (Dyn.velocityMps input) 0) in Hmove by lra.
  rewrite Rabs_left in Hmove by lra.
  cbv zeta in Hmove.
  rewrite Hmove by (assumption || lra).
  cbn [Dyn.mode Dyn.accelerationMps2 Dyn.tensionN].
  set (t := Dyn.massTableKg input + Dyn.massHangingKg input).
  set (x := Dyn.massHangingKg input * Dyn.gravity input
            + Dyn.mu input * Dyn.massTableKg input * Dyn.gravity input).
  assert (Ht : 0 < t) by (unfold t; lra).
  assert (Hp : 0 < (Dyn.mu input - 1)
                   * (Dyn.massTableKg input * Dyn.gravity input))
    by (apply Rmult_lt_0_compat; [lra | apply Rmult_lt_0_compat; assumption]).
  assert (Hx : Dyn.gravity input * t < x) by (unfold x, t; lra).
  assert (Ha : Dyn.gravity input < x / t).
  { apply Rmult_lt_reg_r with t; [exact Ht |].
    replace (x / t * t) with x by (field; lra); exact Hx. }
  assert (Hneg : 0 < Dyn.massHangingKg input * (x / t - Dyn.gravity input))
    by (apply Rmult_lt_0_compat; lra).
  split; [reflexivity |]; split; [exact Ha | lra].
Qed.

(** Friction coefficient 1.5, sliding left at 1.4 m/s: acceleration 40/3
    against a gravity of 10, tension -20/3. *)
Lemma dynamic_negative_tension_example :
  Dyn.tensionN (resolveDynamicForces (Dyn.mkInput 4 2 1.5 true 10 (- 1.4))) < 0.
Proof.
  assert (Hmu : 1 < 1.5) by lra.
  assert (HT : 0 < 4) by lra.
  assert (HH : 0 < 2) by lra.
  assert (HG : 0 < 10) by lra.
  assert (Hv : - 1.4 < - VELOCITY_EPSILON)
    by (rewrite VELOCITY_EPSILON_value; lra).
  exact (proj2 (proj2 (dynamic_negative_tension
                         (Dyn.mkInput 4 2 1.5 true 10 (- 1.4))
                         eq_refl Hmu HT HH HG Hv))).
Defined.

(** ** The resonance equations, further *)

(** X8.  [firstHarmonicAirLengthM] does not floor its result: for a positive
    frequency the length is positive exactly when the speed exceeds
    [1.2 * frequency * tubeDiameter], and is zero or negative otherwise.  The
    length grows with the speed, shrinks with the tube diameter and, for a
    positive speed, shrinks as the frequency rises. *)
Theorem firstHarmonic_sign_and_monotone (f s d : R) :
  0 < f ->
  (0 < firstHarmonicAirLengthM (Length.mkInput f s d) <-> 1.2 * f * d < s) /\
  (forall s' : R,
     s < s' ->
     firstHarmonicAirLengthM (Length.mkInput f s d)
       < firstHarmonicAirLengthM (Length.mkInput f s' d)) /\
  (forall d' : R,
     d < d' ->
     firstHarmonicAirLengthM (Length.mkInput f s d')
       < firstHarmonicAirLengthM (Length.mkInput f s d)) /\
  (forall f' : R,
     0 < s -> f < f' ->
     firstHarmonicAirLengthM (Length.mkInput f' s d)
       < firstHarmonicAirLengthM (Length.mkInput f s d)).
Proof.
  intros Hf.
  unfold firstHarmonicAirLengthM, END_CORRECTION_FACTOR.
  cbn [Length.frequencyHz Length.speedMps Length.tubeDiameterM].
  assert (H4 : 0 < 4 * f) by lra.
  assert (Hi : 0 < / (4 * f)) by (apply Rinv_0_lt_compat; exact H4).
  assert (Hq : forall x, x / (4 * f) * (4 * f) = x) by (intros x; field; lra).
  split; [split; intros H |]; [| | split; [| split]].
  - assert (0.3 * d * (4 * f) < s / (4 * f) * (4 * f))
      by (apply Rmult_lt_compat_r; lra).
    rewrite Hq in *; lra.
  - assert (0.3 * d < s / (4 * f)); [| lra].
    apply Rmult_lt_reg_r with (4 * f); [exact H4 | rewrite Hq; lra].
  - intros s' Hs.
    assert (s / (4 * f) < s' / (4 * f)); [| lra].
    unfold Rdiv; apply Rmult_lt_compat_r; assumption.
  - intros d' Hd; lra.
  - intros f' Hs Hff.
    assert (s / (4 * f') < s / (4 * f)); [| lra].
    unfold Rdiv; apply Rmult_lt_compat_l; [exact Hs |].
    apply Rinv_lt_contravar; [apply Rmult_lt_0_compat |]; lra.
Qed.

(** A 5 kHz tone in a tube 10 cm wide at 343 m/s: the corrected length
    343 / 20000 - 0.03 is negative. *)
Lemma firstHarmonic_negative_example :
  firstHarmonicAirLengthM (Length.mkInput 5000 343 0.1) <= 0.
Proof.
  assert (Hf : 0 < 5000) by lra.
  apply Rnot_lt_le; intros H.
  apply (proj1 (firstHarmonic_sign_and_monotone 5000 343 0.1 Hf)) in H.
  lra.
Defined.

(** The strength reaches a level [c] of at least one half exactly within a
    window around the target. *)
Lemma strength_level (air target b c : R) :
  b <> 0 -> 0.5 <= c ->
  (c <= JsMath.exp (- ((air - target) * (air - target)) / (2 * b * b)) <->
   (air - target) * (air - target) <= 2 * b * b * - ln c).
Proof.
  intros Hb Hc.
  pose proof (gaussian_denominator_pos b Hb) as HD.
  rewrite (jsexp_level c _ Hc).
  set (q := (air - target) * (air - target)).
  set (D := 2 * b * b) in *.
  assert (Hq : - q / D * D = - q) by (field; lra).
  split; intros H.
  - assert (ln c * D <= - q / D * D)
      by (apply Rmult_le_compat_r; lra).
    rewrite Hq in *; lra.
  - apply Rmult_le_reg_r with D; [exact HD | rewrite Hq; lra].
Qed.

(** X9.  The resonance strength depends only on the distance from the target
    and on the size of the bandwidth: it is symmetric about the target, it
    equals 1 only at the target, a supplied bandwidth and its negative give
    the same strength, and a wider bandwidth never gives a smaller
    strength. *)
Theorem resonanceStrength_symmetric_peak
    (targetLengthM : R) (bandwidthM : option R) :
  bandwidthM <> Some 0 ->
  let strength b airLengthM :=
    resonanceStrength (Strength.mkInput airLengthM targetLengthM b) in
  (forall offset : R,
     strength bandwidthM (targetLengthM + offset)
       = strength bandwidthM (targetLengthM - offset)) /\
  (forall airLengthM : R,
     strength bandwidthM airLengthM = 1 <-> airLengthM = targetLengthM) /\
  (forall b airLengthM : R,
     strength (Some (- b)) airLengthM = strength (Some b) airLengthM) /\
  (forall b b' airLengthM : R,
     b <> 0 -> Rabs b <= Rabs b' ->
     strength (Some b) airLengthM <= strength (Some b') airLengthM).
Proof.
  intros Hb strength.
  assert (Heq : forall o a, strength o a =
            JsMath.exp (- ((a - targetLengthM) * (a - targetLengthM))
                        / (2 * bandwidthUsed targetLengthM o
                             * bandwidthUsed targetLengthM o)))
    by (intros o a; apply resonanceStrength_eq).
  assert (Hb0 : bandwidthUsed targetLengthM bandwidthM <> 0).
  { destruct bandwidthM as [b |].
    - cbn [bandwidthUsed]; intros ->; apply Hb; reflexivity.
    - pose proof (default_bandwidth_pos targetLengthM); lra. }
  pose proof (gaussian_denominator_pos _ Hb0) as HD.
  split; [| split; [| split]].
  - intros offset; rewrite !Heq; f_equal; f_equal; f_equal; ring.
  - intros a; rewrite Heq; split.
    + intros H; apply jsexp_one_iff in H.
      assert (Hq : (a - targetLengthM) * (a - targetLengthM) = 0).
      { apply Rmult_eq_compat_r
          with (r := 2 * bandwidthUsed targetLengthM bandwidthM
                       * bandwidthUsed targetLengthM bandwidthM) in H.
        rewrite Rmult_0_l in H.
        replace (- ((a - targetLengthM) * (a - targetLengthM))
                 / (2 * bandwidthUsed targetLengthM bandwidthM
                      * bandwidthUsed targetLengthM bandwidthM)
                 * (2 * bandwidthUsed targetLengthM bandwidthM
                      * bandwidthUsed targetLengthM bandwidthM))
          with (- ((a - targetLengthM) * (a - targetLengthM))) in H
          by (field; lra).
        lra. }
      apply Rmult_integral in Hq; destruct Hq; lra.
    + intros ->.
      replace (- ((targetLengthM - targetLengthM)
                  * (targetLengthM - targetLengthM))
               / (2 * bandwidthUsed targetLengthM bandwidthM
                    * bandwidthUsed targetLengthM bandwidthM)) with 0
        by (field; lra).
      apply jsexp_0.
  - intros b a; rewrite !Heq; cbn [bandwidthUsed].
    f_equal; f_equal; ring.
  - intros b b' a Hbn Habs; rewrite !Heq; cbn [bandwidthUsed].
    apply jsexp_mono.
    assert (Hb'n : b' <> 0).
    { intros ->; rewrite Rabs_R0 in Habs.
      pose proof (Rabs_pos_lt b Hbn); lra. }
    pose proof (gaussian_denominator_pos b Hbn) as HDb.
    pose proof (gaussian_denominator_pos b' Hb'n) as HDb'.
    assert (Hsq : b * b <= b' * b') by (apply Rsqr_le_abs_1 in Habs; exact Habs).
    assert (Hinv : / (2 * b' * b') <= / (2 * b * b))
      by (apply Rinv_le_contravar; lra).
    assert (Hq : 0 <= (a - targetLengthM) * (a - targetLengthM))
      by apply Rle_0_sqr.
    unfold Rdiv.
    assert (0 <= (a - targetLengthM) * (a - targetLengthM)
                 * (/ (2 * b * b) - / (2 * b' * b')))
      by (apply Rmult_le_pos; lra).
    lra.
Qed.

(** With the default bandwidth at a target of 0.21 m, one centimetre above
    and one centimetre below sound equally strong. *)
Lemma resonanceStrength_symmetric_example :
  resonanceStrength (Strength.mkInput (0.21 + 0.01) 0.21 None) =
  resonanceStrength (Strength.mkInput (0.21 - 0.01) 0.21 None).
Proof.
  assert (Hb : @None R <> Some 0) by discriminate.
  exact (proj1 (resonanceStrength_symmetric_peak 0.21 None Hb) 0.01).
Defined.

(** X10.  A measurement is accepted ("High") exactly when the air length
    lies in a window around the target whose half-width is proportional to
    the bandwidth: [(airLength - target)^2 <= 2 * bandwidth^2 * (- ln 0.94)];
    it is rated "Off peak" exactly outside the wider window of [- ln 0.8]. *)
Theorem acceptance_window (airLengthM targetLengthM : R) (bandwidthM : option R) :
  bandwidthM <> Some 0 ->
  let band :=
    qualityBand
      (resonanceStrength (Strength.mkInput airLengthM targetLengthM bandwidthM)) in
  let b :=
    match bandwidthM with
    | Some supplied => supplied
    | None => Rmax 0.008 (targetLengthM * 0.06)
    end in
  let offset := airLengthM - targetLengthM in
  (accepted band = true <-> offset * offset <= 2 * b * b * - ln 0.94) /\
  (css band = low <-> 2 * b * b * - ln 0.8 < offset * offset) /\
  (airLengthM = targetLengthM -> accepted band = true).
Proof.
  intros Hb band b offset.
  assert (Hb0 : b <> 0).
  { subst b; destruct bandwidthM as [x |].
    - intros ->; apply Hb; reflexivity.
    - pose proof (default_bandwidth_pos targetLengthM) as Hp.
      unfold bandwidthUsed in Hp; lra. }
  assert (Hs : resonanceStrength
                 (Strength.mkInput airLengthM targetLengthM bandwidthM)
               = JsMath.exp (- (offset * offset) / (2 * b * b)))
    by apply resonanceStrength_eq.
  assert (H94 := strength_level airLengthM targetLengthM b 0.94 Hb0 ltac:(lra)).
  assert (H80 := strength_level airLengthM targetLengthM b 0.8 Hb0 ltac:(lra)).
  fold offset in H94, H80.
  subst band; rewrite Hs; unfold qualityBand.
  set (x := JsMath.exp (- (offset * offset) / (2 * b * b))) in *.
  assert (Hacc : (if x >=? 0.94
                  then mkBand "High" true good
                  else if x >=? 0.8 then mkBand "Fair" false ok
                       else mkBand "Off peak" false low).(accepted) = true
                 <-> offset * offset <= 2 * b * b * - ln 0.94).
  { rewrite <- H94.
    destruct (Rle_lt_dec 0.94 x) as [H | H].
    - rewrite (geb_true _ _ H); cbn [accepted]; tauto.
    - rewrite (geb_false _ _ H).
      destruct (x >=? 0.8); cbn [accepted]; split;
        intros; try discriminate; lra. }
  split; [exact Hacc |]; split.
  - destruct (Rle_lt_dec 0.8 x) as [H | H].
    + assert (Hin : offset * offset <= 2 * b * b * - ln 0.8)
        by (apply H80; exact H).
      destruct (x >=? 0.94); [| rewrite (geb_true _ _ H)]; cbn [css];
        split; intros; try discriminate; lra.
    + assert (Hout : ~ offset * offset <= 2 * b * b * - ln 0.8)
        by (rewrite <- H80; lra).
      rewrite (geb_false x 0.94) by lra.
      rewrite (geb_false _ _ H); cbn [css].
      split; intros; [lra | reflexivity].
  - intros Heq; apply Hacc.
    assert (Ho : offset = 0) by (unfold offset; lra).
    rewrite Ho.
    assert (Hl : ln 0.94 < 0).
    { rewrite <- ln_1; apply ln_increasing; lra. }
    pose proof (gaussian_denominator_pos b Hb0) as HD.
    assert (0 <= 2 * b * b * - ln 0.94) by (apply Rmult_le_pos; lra).
    lra.
Qed.

(** At the target itself, with the default bandwidth, the trial is
    accepted. *)
Lemma acceptance_window_example :
  accepted
    (qualityBand (resonanceStrength (Strength.mkInput 0.21 0.21 None))) = true.
Proof.
  assert (Hb : @None R <> Some 0) by discriminate.
  exact (proj2 (proj2 (acceptance_window 0.21 0.21 None Hb)) eq_refl).
Defined.

(** * The resonance-tube page *)

Lemma ids_weaken (bound bound' : Z) (ids : list Z) :
  (bound <= bound')%Z -> idsDescendBelow bound ids -> idsDescendBelow bound' ids.
Proof.
  destruct ids as [| id older]; cbn [idsDescendBelow]; [tauto |].
  intros Hle [Hid Hrest]; split; [lia | exact Hrest].
Qed.

Module ResonanceAppFacts.

Import ResonanceApp.

Lemma reference_speed : REFERENCE_SPEED_MPS = 343.
Proof.
  unfold REFERENCE_SPEED_MPS, speedOfSoundFromTemp, ROOM_TEMP_C; lra.
Qed.

(** The first-harmonic length at the reference speed, for the frequencies
    the page allows. *)
Lemma reference_length_range (f : R) :
  220 <= f <= 800 ->
  firstHarmonicAirLengthM (Length.mkInput f REFERENCE_SPEED_MPS TUBE_DIAMETER_M)
    = 343 / (4 * f) - 0.012 /\
  0.1 <= 343 / (4 * f) <= 0.4.
Proof.
  intros Hf.
  unfold firstHarmonicAirLengthM, END_CORRECTION_FACTOR, TUBE_DIAMETER_M.
  cbn [Length.frequencyHz Length.speedMps Length.tubeDiameterM].
  rewrite reference_speed.
  split; [lra |].
  apply quotient_between; lra.
Qed.

Lemma target_of_state (state : St.State) :
  targetLengthM (getDerivedState state) =
  clamp
    (firstHarmonicAirLengthM
       (Length.mkInput (St.frequencyHz state) REFERENCE_SPEED_MPS
          TUBE_DIAMETER_M))
    AIR_LENGTH_MIN_M AIR_LENGTH_MAX_M.
Proof. reflexivity. Qed.

Lemma target_formula (state : St.State) :
  220 <= St.frequencyHz state <= 800 ->
  targetLengthM (getDerivedState state)
    = 343 / (4 * St.frequencyHz state) - 0.012.
Proof.
  intros Hf.
  destruct (reference_length_range _ Hf) as [Heq Hr].
  rewrite target_of_state, Heq.
  apply clamp_inside; unfold AIR_LENGTH_MIN_M, AIR_LENGTH_MAX_M; lra.
Qed.

(** X11.  For the frequencies the page allows (220 to 800 Hz) the clamp in
    [getDerivedState] never bites: the target length is the first-harmonic
    length at 343 m/s in the 4 cm tube, [343 / (4 f) - 0.012], between 8.8 cm
    and 38.8 cm, inside the range of the air-length slider. *)
Theorem derived_target_is_first_harmonic (state : St.State) :
  220 <= St.frequencyHz state <= 800 ->
  let target := targetLengthM (getDerivedState state) in
  target = 343 / (4 * St.frequencyHz state) - 0.012 /\
  target =
    firstHarmonicAirLengthM
      (Length.mkInput (St.frequencyHz state) (speedOfSoundFromTemp 20) 0.04) /\
  0.088 <= target <= 0.388 /\
  AIR_LENGTH_MIN_M <= target <= AIR_LENGTH_MAX_M.
Proof.
  intros Hf target; subst target.
  destruct (reference_length_range _ Hf) as [Heq Hr].
  rewrite (target_formula state Hf).
  split; [reflexivity |]; split; [symmetry; exact Heq |].
  unfold AIR_LENGTH_MIN_M, AIR_LENGTH_MAX_M; lra.
Qed.

(** The state the page starts from (384 Hz). *)
Lemma derived_target_example :
  targetLengthM (getDerivedState initialState) = 343 / (4 * 384) - 0.012.
Proof.
  assert (Hf : 220 <= St.frequencyHz initialState <= 800)
    by (cbn [initialState St.frequencyHz]; lra).
  exact (proj1 (derived_target_is_first_harmonic initialState Hf)).
Defined.

Lemma derived_bandwidth_pos (t : R) : 0 < Rmax 0.008 (t * 0.055).
Proof. pose proof (Rmax_l 0.008 (t * 0.055)); lra. Qed.

Lemma strength_of_state (state : St.State) :
  let t := targetLengthM (getDerivedState state) in
  let b := Rmax 0.008 (t * 0.055) in
  strength (getDerivedState state) =
  JsMath.exp (- ((St.airLengthM state - t) * (St.airLengthM state - t))
              / (2 * b * b)).
Proof. reflexivity. Qed.

(** X12.  In every state with a positive frequency, the strength computed by
    [getDerivedState] lies in [0, 1]; it is positive exactly when the
    Gaussian exponent (bandwidth [max(0.008, target * 0.055)]) is at least
    the underflow threshold of [Math.exp], and exactly 0 otherwise; it is 1
    exactly when the air length is the target length; [atMaximum] (strength
    at least 0.985) holds at the target and implies the quality band "High",
    accepted. *)
Theorem derived_strength_and_quality (state : St.State) :
  0 < St.frequencyHz state ->
  let derived := getDerivedState state in
  let bandwidth := Rmax 0.008 (targetLengthM derived * 0.055) in
  let exponent :=
    - ((St.airLengthM state - targetLengthM derived)
       * (St.airLengthM state - targetLengthM derived))
    / (2 * bandwidth * bandwidth) in
  0 <= strength derived <= 1 /\
  (0 < strength derived <-> JsMath.underflow <= exponent) /\
  (strength derived = 0 <-> exponent < JsMath.underflow) /\
  (strength derived = 1 <-> St.airLengthM state = targetLengthM derived) /\
  (St.airLengthM state = targetLengthM derived -> atMaximum derived = true) /\
  (atMaximum derived = true ->
     quality derived = mkBand "High" true good).
Proof.
  intros _ derived bandwidth exponent; subst derived bandwidth exponent.
  pose proof (strength_of_state state) as Hs; cbv zeta in Hs.
  set (t := targetLengthM (getDerivedState state)) in *.
  set (b := Rmax 0.008 (t * 0.055)) in *.
  assert (Hb : 0 < b) by apply derived_bandwidth_pos.
  pose proof (gaussian_denominator_pos b ltac:(lra)) as HD.
  set (q := (St.airLengthM state - t) * (St.airLengthM state - t)) in *.
  assert (Hq : 0 <= q) by apply Rle_0_sqr.
  assert (Hneg : - q / (2 * b * b) <= 0)
    by (apply gaussian_exponent_nonpos; lra).
  assert (Hone : strength (getDerivedState state) = 1
                 <-> St.airLengthM state = t).
  { rewrite Hs, jsexp_one_iff; split.
    - intros H.
      assert (Hq0 : q = 0).
      { apply Rmult_eq_compat_r with (r := 2 * b * b) in H.
        replace (- q / (2 * b * b) * (2 * b * b)) with (- q) in H
          by (field; lra).
        lra. }
      unfold q in Hq0; apply Rmult_integral in Hq0; destruct Hq0; lra.
    - intros Heq; unfold q; rewrite Heq; field; lra. }
  assert (Hmax : atMaximum (getDerivedState state)
                 = (strength (getDerivedState state) >=? TARGET_MAX_THRESHOLD))
    by reflexivity.
  assert (Hqual : quality (getDerivedState state)
                  = qualityBand (strength (getDerivedState state)))
    by reflexivity.
  pose proof (jsexp_range _ Hneg) as Hrange.
  pose proof (jsexp_pos_iff (- q / (2 * b * b))) as Hpos.
  split; [rewrite Hs; exact Hrange |].
  split; [rewrite Hs; exact Hpos |].
  split; [rewrite Hs; split; intros H; [| apply jsexp_underflow; exact H] |].
  { apply Rnot_le_lt; intros Hle; apply Hpos in Hle; lra. }
  split; [exact Hone |]; split.
  - intros Heq; rewrite Hmax; apply geb_true.
    apply Hone in Heq; rewrite Heq; unfold TARGET_MAX_THRESHOLD; lra.
  - rewrite Hmax, Hqual; intros H; apply geb_spec in H.
    unfold TARGET_MAX_THRESHOLD in H; unfold qualityBand.
    rewrite geb_true by lra; reflexivity.
Qed.

(** Two states the page can reach: the starting frequency (384 Hz) with the
    pipe moved to the target, which is at the maximum; and the highest
    frequency (800 Hz, target 0.0951875 m, bandwidth 0.008 m) with the
    longest air column (0.95 m), where the exponent is below -5700 and the
    strength is exactly 0. *)
Lemma derived_strength_example :
  let atTarget :=
    St.mkState 384 (343 / (4 * 384) - 0.012) None false false false false
      None [] 1 in
  let farOff :=
    St.mkState 800 0.95 None false false false false None [] 1 in
  atMaximum (getDerivedState atTarget) = true /\
  strength (getDerivedState farOff) = 0.
Proof.
  intros atTarget farOff; split.
  - assert (Hf : 0 < St.frequencyHz atTarget)
      by (cbn [atTarget St.frequencyHz]; lra).
    destruct (derived_strength_and_quality atTarget Hf)
      as (_ & _ & _ & _ & Hmax & _).
    apply Hmax.
    rewrite target_formula; cbn [atTarget St.frequencyHz St.airLengthM];
      [reflexivity | lra].
  - assert (Hf : 0 < St.frequencyHz farOff)
      by (cbn [farOff St.frequencyHz]; lra).
    destruct (derived_strength_and_quality farOff Hf)
      as (_ & _ & Hzero & _).
    apply Hzero.
    rewrite target_formula by (cbn [farOff St.frequencyHz]; lra).
    cbn [farOff St.frequencyHz St.airLengthM].
    assert (Ht : 343 / (4 * 800) - 0.012 = 0.0951875) by lra.
    rewrite Ht.
    rewrite (Rmax_left 0.008 (0.0951875 * 0.055)) by lra.
    pose proof underflow_bounds as Hu.
    apply Rlt_trans with (-1075); [| lra].
    apply Rmult_lt_reg_r with (2 * 0.008 * 0.008); [lra |].
    replace (- ((0.95 - 0.0951875) * (0.95 - 0.0951875)) / (2 * 0.008 * 0.008)
             * (2 * 0.008 * 0.008))
      with (- ((0.95 - 0.0951875) * (0.95 - 0.0951875))) by (field; lra).
    lra.
Defined.

(** X13.  For the frequencies the page allows, the speed shown live differs
    from the reference speed 343 m/s by [4 f] times the distance of the air
    length from the target: it is 343 exactly at the target, lower when the
    air column is shorter, higher when it is longer. *)
Theorem derived_instant_speed (state : St.State) :
  220 <= St.frequencyHz state <= 800 ->
  let derived := getDerivedState state in
  instantSpeedMps derived - REFERENCE_SPEED_MPS
    = 4 * St.frequencyHz state * (St.airLengthM state - targetLengthM derived) /\
  (instantSpeedMps derived = 343 <-> St.airLengthM state = targetLengthM derived) /\
  (instantSpeedMps derived < 343 <-> St.airLengthM state < targetLengthM derived).
Proof.
  intros Hf derived; subst derived.
  rewrite (target_formula state Hf), reference_speed.
  assert (Hi : instantSpeedMps (getDerivedState state)
               = 4 * St.frequencyHz state * (St.airLengthM state + 0.3 * 0.04))
    by reflexivity.
  rewrite Hi.
  set (f := St.frequencyHz state) in *.
  set (a := St.airLengthM state) in *.
  assert (Hq : 4 * f * (343 / (4 * f)) = 343) by (field; lra).
  assert (Hlin : 4 * f * (a + 0.3 * 0.04) - 343
                 = 4 * f * (a - (343 / (4 * f) - 0.012))) by lra.
  split; [exact Hlin |].
  assert (H4 : 0 < 4 * f) by lra.
  split; split; intros H.
  - assert (Hz : 4 * f * (a - (343 / (4 * f) - 0.012)) = 0) by lra.
    apply Rmult_integral in Hz; destruct Hz; lra.
  - rewrite H; lra.
  - assert (Hz : 4 * f * (a - (343 / (4 * f) - 0.012)) < 0) by lra.
    destruct (Rlt_le_dec a (343 / (4 * f) - 0.012)) as [Hlt | Hge];
      [exact Hlt |].
    assert (0 <= 4 * f * (a - (343 / (4 * f) - 0.012)))
      by (apply Rmult_le_pos; lra).
    lra.
  - assert (0 < 4 * f * ((343 / (4 * f) - 0.012) - a))
      by (apply Rmult_lt_0_compat; lra).
    lra.
Qed.

(** At 384 Hz with the pipe one centimetre short of the target, the speed
    shown is below 343 m/s. *)
Lemma derived_instant_speed_example :
  let state :=
    St.mkState 384 (343 / (4 * 384) - 0.012 - 0.01) None false false false
      false None [] 1 in
  instantSpeedMps (getDerivedState state) < 343.
Proof.
  intros state.
  assert (Hf : 220 <= St.frequencyHz state <= 800)
    by (cbn [state St.frequencyHz]; lra).
  apply (proj2 (proj2 (derived_instant_speed state Hf))).
  rewrite target_formula; cbn [state St.frequencyHz St.airLengthM]; lra.
Defined.

(** *** Rounding and the setters *)

Lemma round_spec (x : R) :
  exists n : Z, round x = IZR n /\ IZR n - 0.5 <= x < IZR n + 0.5.
Proof.
  exists (Int_part (x + 0.5)); split; [reflexivity |].
  destruct (base_Int_part (x + 0.5)) as [H1 H2]; lra.
Qed.

Lemma round_unique (x : R) (n : Z) :
  IZR n - 0.5 <= x < IZR n + 0.5 -> round x = IZR n.
Proof.
  intros H; unfold round; f_equal; symmetry.
  apply Int_part_spec; lra.
Qed.

(** The page's own [clamp] is the one of the physics module. *)
Lemma page_clamp (value min max : R) :
  clamp value min max = HalfAtwood.clamp value min max.
Proof. reflexivity. Qed.

Lemma clamp_integer (n : Z) :
  exists m : Z, clamp (IZR n) 220 800 = IZR m.
Proof.
  rewrite page_clamp.
  destruct (clamp_cases (IZR n) 220 800 ltac:(lra))
    as [[_ H] | [[_ H] | [_ H]]];
    rewrite H; [exists 220%Z | exists n | exists 800%Z]; reflexivity.
Qed.

Lemma clamp_range (value min max : R) :
  min <= max -> min <= clamp value min max <= max.
Proof.
  intros H; rewrite page_clamp.
  split; [apply (clamp_ge_min value min max H) | apply clamp_le_max].
Qed.

(** [render] writes only [foundMaximum], and only to set it. *)
Lemma render_frame (state : St.State) :
  St.frequencyHz (render state) = St.frequencyHz state /\
  St.airLengthM (render state) = St.airLengthM state /\
  St.predictionM (render state) = St.predictionM state /\
  St.hintsEnabled (render state) = St.hintsEnabled state /\
  St.toneEnabled (render state) = St.toneEnabled state /\
  St.toneStarted (render state) = St.toneStarted state /\
  St.transientStatus (render state) = St.transientStatus state /\
  St.records (render state) = St.records state /\
  St.nextRecordId (render state) = St.nextRecordId state /\
  St.foundMaximum (render state)
    = (St.foundMaximum state
       || (St.toneEnabled state && atMaximum (getDerivedState state)))%bool.
Proof.
  unfold render.
  destruct (St.toneEnabled state && atMaximum (getDerivedState state))%bool;
    cbn [St.frequencyHz St.airLengthM St.predictionM St.hintsEnabled
         St.toneEnabled St.toneStarted St.transientStatus St.records
         St.nextRecordId St.foundMaximum];
    repeat split; try reflexivity.
  - symmetry; apply orb_true_r.
  - symmetry; apply orb_false_r.
Qed.

Lemma render_sound (state : St.State) :
  resonanceStateSound state -> resonanceStateSound (render state).
Proof.
  unfold resonanceStateSound.
  destruct (render_frame state) as (-> & -> & _ & _ & _ & _ & _ & -> & -> & _).
  tauto.
Qed.

(** X14.  [setFrequency] stores the requested frequency rounded to the
    nearest integer (a tie going up) and clamped to 220..800 Hz, and
    [setAirLength] stores the requested length clamped to 0.08..0.95 m;
    neither touches the trial records, and a request already valid is stored
    unchanged. *)
Theorem setters_store_valid_values (requested : R) (state : St.State) :
  let byFrequency := setFrequency requested state in
  let byLength := setAirLength requested state in
  220 <= St.frequencyHz byFrequency <= 800 /\
  (exists n : Z, St.frequencyHz byFrequency = IZR n) /\
  (220 <= requested <= 800 ->
     Rabs (St.frequencyHz byFrequency - requested) <= 0.5) /\
  (forall n : Z,
     220 <= IZR n <= 800 ->
     St.frequencyHz (setFrequency (IZR n) state) = IZR n /\
     St.frequencyHz (setFrequency (IZR n + 0.5) state) = Rmin 800 (IZR n + 1)) /\
  St.airLengthM byFrequency = St.airLengthM state /\
  AIR_LENGTH_MIN_M <= St.airLengthM byLength <= AIR_LENGTH_MAX_M /\
  (AIR_LENGTH_MIN_M <= requested <= AIR_LENGTH_MAX_M ->
     St.airLengthM byLength = requested) /\
  St.frequencyHz byLength = St.frequencyHz state /\
  St.records byFrequency = St.records state /\
  St.records byLength = St.records state.
Proof.
  intros byFrequency byLength; subst byFrequency byLength.
  assert (HF : forall r, St.frequencyHz (setFrequency r state)
                         = clamp (round r) 220 800).
  { intros r; unfold setFrequency.
    match goal with
    | |- St.frequencyHz (render ?s) = _ =>
        destruct (render_frame s) as (-> & _)
    end; reflexivity. }
  assert (HL : St.airLengthM (setAirLength requested state)
               = clamp requested AIR_LENGTH_MIN_M AIR_LENGTH_MAX_M).
  { unfold setAirLength.
    match goal with
    | |- St.airLengthM (render ?s) = _ =>
        destruct (render_frame s) as (_ & -> & _)
    end; reflexivity. }
  assert (Hmm : AIR_LENGTH_MIN_M <= AIR_LENGTH_MAX_M)
    by (unfold AIR_LENGTH_MIN_M, AIR_LENGTH_MAX_M; lra).
  rewrite HF, HL.
  split; [apply clamp_range; lra |].
  split.
  { destruct (round_spec requested) as (n & -> & _); apply clamp_integer. }
  split.
  { intros Hr; destruct (round_spec requested) as (n & Hn & Hb).
    rewrite Hn.
    assert (Hin : 220 <= IZR n <= 800).
    { split.
      - destruct (Z_lt_le_dec n 220) as [Hlt | Hge];
          [| apply IZR_le; exact Hge].
        assert (IZR n <= 219) by (apply IZR_le; lia); lra.
      - destruct (Z_lt_le_dec 800 n) as [Hlt | Hge];
          [| apply IZR_le; exact Hge].
        assert (801 <= IZR n) by (apply IZR_le; lia); lra. }
    rewrite page_clamp, (clamp_inside (IZR n) 220 800 Hin).
    apply Rabs_le; lra. }
  split.
  { intros n Hn; rewrite !HF; split.
    - rewrite (round_unique (IZR n) n) by lra.
      rewrite page_clamp; apply (clamp_inside (IZR n) 220 800 Hn).
    - rewrite (round_unique (IZR n + 0.5) (n + 1)) by (rewrite plus_IZR; lra).
      rewrite plus_IZR; unfold clamp.
      rewrite Rmax_right by lra; reflexivity. }
  split.
  { unfold setFrequency.
    match goal with
    | |- St.airLengthM (render ?s) = _ =>
        destruct (render_frame s) as (_ & -> & _)
    end; reflexivity. }
  split; [apply clamp_range; exact Hmm |].
  split; [intros Hr; rewrite page_clamp; apply (clamp_inside requested _ _ Hr) |].
  split.
  { unfold setAirLength.
    match goal with
    | |- St.frequencyHz (render ?s) = _ =>
        destruct (render_frame s) as (-> & _)
    end; reflexivity. }
  split.
  - unfold setFrequency.
    match goal with
    | |- St.records (render ?s) = _ =>
        destruct (render_frame s) as (_ & _ & _ & _ & _ & _ & _ & -> & _)
    end; reflexivity.
  - unfold setAirLength.
    match goal with
    | |- St.records (render ?s) = _ =>
        destruct (render_frame s) as (_ & _ & _ & _ & _ & _ & _ & -> & _)
    end; reflexivity.
Qed.

(** *** Recording a trial *)

Lemma band_accepted_iff_high (x : R) :
  accepted (qualityBand x) = true <-> label (qualityBand x) = "High"%string.
Proof.
  unfold qualityBand.
  destruct (x >=? 0.94); [| destruct (x >=? 0.8)]; cbn [accepted label];
    split; intros H; try reflexivity; discriminate.
Qed.

Lemma recordTrial_fields (random : R) (state : St.State) :
  let derived := getDerivedState state in
  let measured :=
    clamp (St.airLengthM state + (random * 2 - 1) * MEASUREMENT_NOISE_M)
      AIR_LENGTH_MIN_M AIR_LENGTH_MAX_M in
  let row :=
    Trial.mkRow (St.nextRecordId state) (St.frequencyHz state) measured
      (4 * St.frequencyHz state * (measured + 0.3 * 0.04))
      (accepted (quality derived)) (label (quality derived))
      (css (quality derived)) in
  let state' := recordTrial random state in
  St.frequencyHz state' = St.frequencyHz state /\
  St.airLengthM state' = St.airLengthM state /\
  St.records state' = row :: St.records state /\
  St.nextRecordId state' = (St.nextRecordId state + 1)%Z.
Proof.
  cbv zeta; unfold recordTrial.
  match goal with
  | |- context [render ?s] =>
      destruct (render_frame s)
        as (-> & -> & _ & _ & _ & _ & _ & -> & -> & _)
  end.
  destruct (negb (accepted (quality (getDerivedState state))));
    repeat split.
Qed.

(** X15.  [recordTrial] puts one new row at the head of the records, with
    the next free id, and leaves frequency and air length alone.  For a
    random number in [0, 1) and an air length inside the slider range, the
    recorded length lies in the range, within 1.5 mm of the true air length;
    the recorded speed is [4 f (length + 0.012)], within [0.006 f] of the
    speed shown live; and the row is accepted exactly when the noise-free
    state is in the "High" band. *)
Theorem recordTrial_measurement (random : R) (state : St.State) :
  0 <= random < 1 ->
  AIR_LENGTH_MIN_M <= St.airLengthM state <= AIR_LENGTH_MAX_M ->
  0 <= St.frequencyHz state ->
  let derived := getDerivedState state in
  let state' := recordTrial random state in
  exists row : Trial.Row,
    St.records state' = row :: St.records state /\
    Trial.id row = St.nextRecordId state /\
    St.nextRecordId state' = (St.nextRecordId state + 1)%Z /\
    St.frequencyHz state' = St.frequencyHz state /\
    St.airLengthM state' = St.airLengthM state /\
    Trial.frequencyHz row = St.frequencyHz state /\
    AIR_LENGTH_MIN_M <= Trial.lengthM row <= AIR_LENGTH_MAX_M /\
    Rabs (Trial.lengthM row - St.airLengthM state) <= MEASUREMENT_NOISE_M /\
    Trial.speedMps row = 4 * St.frequencyHz state * (Trial.lengthM row + 0.012) /\
    Rabs (Trial.speedMps row - instantSpeedMps derived)
      <= 0.006 * St.frequencyHz state /\
    Trial.accepted row = accepted (quality derived) /\
    Trial.qualityLabel row = label (quality derived) /\
    Trial.qualityCss row = css (quality derived).
Proof.
  intros Hu Hair Hf derived state'; subst derived state'.
  destruct (recordTrial_fields random state) as (HF & HA & HR & HN).
  cbv zeta in HR.
  eexists; split; [exact HR |].
  cbn [Trial.id Trial.frequencyHz Trial.lengthM Trial.speedMps Trial.accepted
       Trial.qualityLabel Trial.qualityCss].
  set (noise := (random * 2 - 1) * MEASUREMENT_NOISE_M).
  set (a := St.airLengthM state) in *.
  assert (Hnoise : - 0.0015 <= noise <= 0.0015)
    by (unfold noise, MEASUREMENT_NOISE_M; lra).
  assert (Hmm : AIR_LENGTH_MIN_M <= AIR_LENGTH_MAX_M) by lra.
  rewrite page_clamp.
  assert (Hlen : AIR_LENGTH_MIN_M
                 <= HalfAtwood.clamp (a + noise) AIR_LENGTH_MIN_M AIR_LENGTH_MAX_M
                 <= AIR_LENGTH_MAX_M)
    by (split; [apply clamp_ge_min; exact Hmm | apply clamp_le_max]).
  assert (Hnear : - 0.0015
                  <= HalfAtwood.clamp (a + noise) AIR_LENGTH_MIN_M
                       AIR_LENGTH_MAX_M - a
                  <= 0.0015).
  { destruct (clamp_cases (a + noise) AIR_LENGTH_MIN_M AIR_LENGTH_MAX_M Hmm)
      as [[H1 ->] | [[H1 ->] | [H1 ->]]]; lra. }
  set (m := HalfAtwood.clamp (a + noise) AIR_LENGTH_MIN_M AIR_LENGTH_MAX_M) in *.
  assert (Hi : instantSpeedMps (getDerivedState state)
               = 4 * St.frequencyHz state * (a + 0.3 * 0.04)) by reflexivity.
  split; [reflexivity |]; split; [exact HN |]; split; [exact HF |].
  split; [exact HA |]; split; [reflexivity |]; split; [exact Hlen |].
  split; [apply Rabs_le; unfold MEASUREMENT_NOISE_M; lra |].
  split; [lra |]; split; [| repeat split].
  rewrite Hi; apply Rabs_le.
  assert (0 <= St.frequencyHz state * (0.0015 - (m - a)))
    by (apply Rmult_le_pos; lra).
  assert (0 <= St.frequencyHz state * (0.0015 + (m - a)))
    by (apply Rmult_le_pos; lra).
  lra.
Qed.

(** At 384 Hz and 0.23 m with the random number 0.5 (no noise) the recorded
    length is the air length, 0.23 m. *)
Lemma recordTrial_example :
  exists row : Trial.Row,
    St.records (recordTrial 0.5 initialState) = [row] /\
    Trial.id row = 1%Z /\
    Rabs (Trial.lengthM row - 0.23) <= 0.0015.
Proof.
  assert (Hu : 0 <= 0.5 < 1) by lra.
  assert (Ha : AIR_LENGTH_MIN_M <= St.airLengthM initialState
               <= AIR_LENGTH_MAX_M)
    by (cbn [initialState St.airLengthM];
        unfold AIR_LENGTH_MIN_M, AIR_LENGTH_MAX_M; lra).
  assert (Hf : 0 <= St.frequencyHz initialState)
    by (cbn [initialState St.frequencyHz]; lra).
  destruct (recordTrial_measurement 0.5 initialState Hu Ha Hf)
    as (row & HR & Hid & _ & _ & _ & _ & _ & Hnear & _).
  exists row; split; [exact HR |]; split; [exact Hid | exact Hnear].
Defined.

(** *** Every state the page reaches *)

Lemma setFrequency_sound (requested : R) (state : St.State) :
  resonanceStateSound state -> resonanceStateSound (setFrequency requested state).
Proof.
  intros (Hf & Hn & Ha & Hp & Hi & Hr).
  unfold setFrequency; apply render_sound; unfold resonanceStateSound.
  cbn [St.frequencyHz St.airLengthM St.records St.nextRecordId].
  split; [apply clamp_range; lra |]; split; [| tauto].
  destruct (round_spec requested) as (n & -> & _); apply clamp_integer.
Qed.

Lemma setAirLength_sound (requested : R) (state : St.State) :
  resonanceStateSound state -> resonanceStateSound (setAirLength requested state).
Proof.
  intros (Hf & Hn & Ha & Hp & Hi & Hr).
  unfold setAirLength; apply render_sound; unfold resonanceStateSound.
  cbn [St.frequencyHz St.airLengthM St.records St.nextRecordId].
  split; [exact Hf |]; split; [exact Hn |]; split; [| tauto].
  apply clamp_range; unfold AIR_LENGTH_MIN_M, AIR_LENGTH_MAX_M; lra.
Qed.

Lemma showTransientStatus_sound (message : string) (tone : Tone)
    (state : St.State) :
  resonanceStateSound state ->
  resonanceStateSound (showTransientStatus message tone state).
Proof. unfold resonanceStateSound, showTransientStatus; intros H; exact H. Qed.

Lemma recordTrial_sound (random : R) (state : St.State) :
  resonanceStateSound state -> resonanceStateSound (recordTrial random state).
Proof.
  intros (Hf & Hn & Ha & Hp & Hi & Hr).
  destruct (recordTrial_fields random state) as (HF & HA & HR & HN).
  cbv zeta in HR.
  unfold resonanceStateSound; rewrite HF, HA, HR, HN.
  split; [exact Hf |]; split; [exact Hn |]; split; [exact Ha |].
  split; [lia |]; split.
  - cbn [map Trial.id idsDescendBelow]; split; [lia |].
    revert Hi; apply ids_weaken; lia.
  - constructor; [| exact Hr].
    unfold resonanceRowSound.
    cbn [Trial.frequencyHz Trial.lengthM Trial.speedMps Trial.accepted
         Trial.qualityLabel].
    split; [exact Hf |].
    split; [apply clamp_range; unfold AIR_LENGTH_MIN_M, AIR_LENGTH_MAX_M; lra |].
    split; [lra | apply band_accepted_iff_high].
Qed.

Lemma initialize_sound : resonanceStateSound initialize.
Proof.
  unfold initialize; apply setFrequency_sound, setAirLength_sound.
  unfold resonanceStateSound, initialState.
  cbn [St.frequencyHz St.airLengthM St.records St.nextRecordId map
       idsDescendBelow].
  unfold AIR_LENGTH_MIN_M, AIR_LENGTH_MAX_M.
  split; [lra |]; split; [exists 384%Z; reflexivity |]; split; [lra |].
  split; [lia |]; split; [exact I | constructor].
Qed.

Lemma handle_sound (event : Event) (state : St.State) :
  resonanceStateSound state -> resonanceStateSound (handle event state).
Proof.
  intros H.
  assert (Hsame : forall s,
            St.frequencyHz s = St.frequencyHz state ->
            St.airLengthM s = St.airLengthM state ->
            St.records s = St.records state ->
            St.nextRecordId s = St.nextRecordId state ->
            resonanceStateSound (render s)).
  { intros s E1 E2 E3 E4; apply render_sound.
    unfold resonanceStateSound; rewrite E1, E2, E3, E4; exact H. }
  destruct event as [f | f | l | | | parsed | checked | enabledAtClick audioOk
                    | random | | |]; cbn [handle].
  - apply setFrequency_sound; exact H.
  - apply setFrequency_sound; exact H.
  - apply setAirLength_sound; exact H.
  - apply setAirLength_sound; exact H.
  - apply setAirLength_sound; exact H.
  - apply Hsame; reflexivity.
  - apply Hsame; reflexivity.
  - destruct enabledAtClick; [apply Hsame; reflexivity |].
    destruct audioOk; cbn [negb];
      [apply Hsame; reflexivity | apply showTransientStatus_sound; exact H].
  - destruct (St.toneStarted state); cbn [negb];
      [apply recordTrial_sound; exact H
      | apply showTransientStatus_sound; exact H].
  - apply render_sound.
    destruct H as (Hf & Hn & Ha & _).
    unfold resonanceStateSound.
    cbn [St.frequencyHz St.airLengthM St.records St.nextRecordId map
         idsDescendBelow].
    split; [exact Hf |]; split; [exact Hn |]; split; [exact Ha |].
    split; [lia |]; split; [exact I | constructor].
  - apply render_sound; exact H.
  - apply Hsame; reflexivity.
Qed.

(** X16.  In every state the resonance page can reach, the frequency is a
    whole number of hertz between 220 and 800, the air length lies between
    0.08 m and 0.95 m, the trial ids are positive, strictly descending from
    the newest row and below [nextRecordId] (so no two rows share an id), and
    every row holds a frequency and a length in those ranges, the speed
    [4 f (length + 0.012)], and is accepted exactly when labelled "High". *)
Theorem reachable_resonance_state_sound (state : St.State) :
  Reachable state -> resonanceStateSound state.
Proof.
  induction 1 as [| event state _ IH].
  - apply initialize_sound.
  - apply handle_sound; exact IH.
Qed.

(** A trial recorded after starting the tone on the freshly initialised
    page. *)
Lemma reachable_resonance_example :
  resonanceStateSound
    (handle (RecordClicked 0.25) (handle (ToneClicked false true) initialize)).
Proof.
  apply reachable_resonance_state_sound.
  apply reach_step, reach_step, reach_init.
Defined.

(** X17.  [foundMaximum] is a latch: [render] sets it when the tone is on
    and the strength is at the maximum, and no event of the page ever clears
    it. *)
Theorem foundMaximum_is_a_latch (event : Event) (state : St.State) :
  (St.foundMaximum (render state)
     = (St.foundMaximum state
        || (St.toneEnabled state && atMaximum (getDerivedState state)))%bool) /\
  (St.foundMaximum state = true ->
   St.foundMaximum (handle event state) = true).
Proof.
  split; [apply render_frame |].
  intros Hfound.
  assert (Hrender : forall s, St.foundMaximum s = true ->
                              St.foundMaximum (render s) = true).
  { intros s Hs; destruct (render_frame s)
      as (_ & _ & _ & _ & _ & _ & _ & _ & _ & ->).
    rewrite Hs; reflexivity. }
  assert (Hsame : forall s, St.foundMaximum s = St.foundMaximum state ->
                            St.foundMaximum (render s) = true)
    by (intros s E; apply Hrender; rewrite E; exact Hfound).
  destruct event as [f | f | l | | | parsed | checked | enabledAtClick audioOk
                    | random | | |]; cbn [handle];
    unfold setFrequency, setAirLength.
  - apply Hsame; reflexivity.
  - apply Hsame; reflexivity.
  - apply Hsame; reflexivity.
  - apply Hsame; reflexivity.
  - apply Hsame; reflexivity.
  - apply Hsame; reflexivity.
  - apply Hsame; reflexivity.
  - destruct enabledAtClick; [apply Hsame; reflexivity |].
    destruct audioOk; cbn [negb]; [apply Hsame; reflexivity | exact Hfound].
  - destruct (St.toneStarted state); cbn [negb]; [| exact Hfound].
    unfold recordTrial; apply Hsame.
    destruct (negb (accepted (quality (getDerivedState state))));
      reflexivity.
  - apply Hsame; reflexivity.
  - apply Hrender; exact Hfound.
  - apply Hsame; reflexivity.
Qed.

End ResonanceAppFacts.

(** * The half-Atwood page *)

Module HalfAtwoodAppFacts.

Import HalfAtwoodApp.

Lemma ltb_true (x y : R) : x < y -> ltb x y = true.
Proof. unfold ltb; destruct (Rlt_dec x y); tauto. Qed.

Lemma ltb_false (x y : R) : y <= x -> ltb x y = false.
Proof. unfold ltb; destruct (Rlt_dec x y); [lra | reflexivity]. Qed.

Lemma clamp_between (value min max : R) :
  min <= max -> min <= clamp value min max <= max.
Proof.
  intros H; split; [apply clamp_ge_min; exact H | apply clamp_le_max].
Qed.

(** *** The layout *)

(** X18.  Whatever the size of the canvas, [getLayout] gives a travel range
    that starts at 0 and is at least 0.2 m long, a scale between 90 and 220
    pixels per metre, and bodies and pulley within their size limits; and
    when the range is longer than the 0.2 m minimum, the travel in pixels
    fits both the track on the table and the drop below the pulley. *)
Theorem getLayout_travel_range (width height : R) :
  let layout := getLayout width height in
  travelMinM layout = 0 /\
  0.2 <= travelMaxM layout /\
  90 <= ppm layout <= 220 /\
  28 <= pulleyRadius layout <= 38 /\
  112 <= blockW layout <= 146 /\
  54 <= blockH layout <= 72 /\
  74 <= hangingW layout <= 100 /\
  70 <= hangingH layout <= 94 /\
  (0.2 < travelMaxM layout ->
     travelMaxM layout * ppm layout
       <= edgeX layout - blockW layout - 8 - blockBaseX layout /\
     travelMaxM layout * ppm layout
       <= height - 24 - hangingH layout - hangingStartY layout).
Proof.
  intros layout; subst layout; unfold getLayout.
  cbn [travelMinM travelMaxM ppm pulleyRadius blockW blockH hangingW hangingH
       edgeX blockBaseX hangingStartY].
  assert (Hbox : forall lo hi x, lo <= hi -> lo <= Rmax lo (Rmin hi x) <= hi).
  { intros lo hi x Hle; split; [apply Rmax_l |].
    apply Rmax_lub; [exact Hle | apply Rmin_l]. }
  split; [reflexivity |]; split; [apply Rmax_l |].
  split; [apply clamp_between; lra |].
  do 5 (split; [apply Hbox; lra |]).
  match goal with
  | |- context [clamp ?v 90 220] =>
      pose proof (clamp_between v 90 220 ltac:(lra)) as Hp;
      set (p := clamp v 90 220) in *
  end.
  match goal with
  | |- 0.2 < Rmax 0.2 (Rmin (?H / p) (?V / p)) -> _ =>
      set (hpx := H); set (vpx := V)
  end.
  intros Hlong.
  assert (Hmax : Rmax 0.2 (Rmin (hpx / p) (vpx / p)) = Rmin (hpx / p) (vpx / p)).
  { apply Rmax_right; unfold Rmax in Hlong.
    destruct (Rle_dec 0.2 (Rmin (hpx / p) (vpx / p))); lra. }
  rewrite Hmax.
  assert (Hh : hpx / p * p = hpx) by (field; lra).
  assert (Hv : vpx / p * p = vpx) by (field; lra).
  split.
  - rewrite <- Hh at 2; apply Rmult_le_compat_r; [lra | apply Rmin_l].
  - rewrite <- Hv at 2; apply Rmult_le_compat_r; [lra | apply Rmin_r].
Qed.

Lemma layout_range (width height : R) :
  travelMinM (getLayout width height) = 0 /\
  0.2 <= travelMaxM (getLayout width height).
Proof. split; [reflexivity | apply Rmax_l]. Qed.

(** [renderScene] replaces the layout and clamps the displacement; it keeps
    everything else. *)
Lemma renderScene_spec (width height : R) (world : World) :
  renderScene width height world =
  mkWorld
    (withMotion (state world) (St.running (state world))
       (St.lastFrameMs (state world)) (St.timeS (state world))
       (clamp (St.displacementM (state world)) 0
          (travelMaxM (getLayout width height)))
       (St.velocityMps (state world)))
    (getLayout width height).
Proof. reflexivity. Qed.

Lemma rendered_displacement (width height d : R) :
  0 <= clamp d 0 (travelMaxM (getLayout width height))
    <= travelMaxM (getLayout width height).
Proof.
  destruct (layout_range width height) as [_ H].
  apply clamp_between; lra.
Qed.

(** *** The inputs *)

(** X19.  Whatever the input elements hold, [readInputsIntoState] leaves a
    table mass between 0.2 and 2500 kg, a hanging mass between 0.1 and
    500 kg, an initial velocity between -4 and 4 m/s and a friction
    coefficient between 0 and 1; a field that does not parse as a number
    counts as 0 and so takes the lowest allowed mass; the motion and the
    trial records are not touched. *)
Theorem readInputs_ranges (inputs : Inputs) (s : St.State) :
  let s' := readInputsIntoState inputs s in
  0.2 <= St.massTableKg s' <= 2500 /\
  0.1 <= St.massHangingKg s' <= 500 /\
  -4 <= St.initialVelocityMps s' <= 4 /\
  0 <= St.mu s' <= 1 /\
  (massTable inputs = None -> St.massTableKg s' = 0.2) /\
  (massHanging inputs = None -> St.massHangingKg s' = 0.1) /\
  (initialVelocity inputs = None -> St.initialVelocityMps s' = 0) /\
  (muValue inputs = None -> St.mu s' = 0) /\
  (forall x : R, massTable inputs = Some x -> 0.2 <= x <= 2500 ->
                 St.massTableKg s' = x) /\
  St.frictionEnabled s' = frictionEnabledChecked inputs /\
  St.running s' = St.running s /\
  St.timeS s' = St.timeS s /\
  St.displacementM s' = St.displacementM s /\
  St.velocityMps s' = St.velocityMps s /\
  St.records s' = St.records s /\
  St.nextTrialId s' = St.nextTrialId s.
Proof.
  intros s'; subst s'; unfold readInputsIntoState.
  cbn [St.massTableKg St.massHangingKg St.initialVelocityMps St.mu
       St.frictionEnabled St.running St.timeS St.displacementM St.velocityMps
       St.records St.nextTrialId].
  split; [apply clamp_between; lra |].
  split; [apply clamp_between; lra |].
  split; [apply clamp_between; lra |].
  split; [apply clamp_between; lra |].
  split; [intros ->; cbn [orZero]; apply clamp_below; lra |].
  split; [intros ->; cbn [orZero]; apply clamp_below; lra |].
  split; [intros ->; cbn [orZero]; apply clamp_inside; lra |].
  split; [intros ->; cbn [orZero]; apply clamp_inside; lra |].
  split; [intros x -> Hx; cbn [orZero]; apply clamp_inside; exact Hx |].
  repeat split.
Qed.

(** *** The animation frame *)

(** A frame of a running world: the motion fields are stepped in one of three
    ways (held by static friction; stopped at the far end; moving on), then
    the scene is rendered. *)
Lemma animate_running (timestampMs width height : R) (world : World) :
  St.running (state world) = true ->
  exists (running' : bool) (time' d' v' : R),
    animate timestampMs width height world =
      renderScene width height
        (mkWorld
           (withMotion (state world) running' (Some timestampMs) time' d' v')
           (sceneLayout world)) /\
    (running' = false -> v' = 0) /\
    (time' = St.timeS (state world) \/
     time' = St.timeS (state world) + frameDt timestampMs (state world)).
Proof.
  intros Hrun; unfold animate; rewrite Hrun; cbn [negb].
  fold (frameDt timestampMs (state world)).
  destruct (isStaticHold (Dyn.mode (dynamicSolution (state world)))
            && (Rabs (St.velocityMps (state world)) <=? VELOCITY_EPSILON))%bool.
  - eexists _, _, _, _; split; [reflexivity |].
    split; [reflexivity | left; reflexivity].
  - cbv zeta.
    match goal with
    | |- context [if ?c >=? ?m then _ else _] => destruct (c >=? m)
    end.
    + eexists _, _, _, _; split; [reflexivity |].
      split; [reflexivity | right; reflexivity].
    + eexists _, _, _, _; split; [reflexivity |].
      split; [discriminate | right; reflexivity].
Qed.

(** X20.  A frame does nothing to a world that is not running.  On a running
    world it renders the scene for the current canvas, leaves the
    displacement inside the new travel range, records the timestamp, never
    leaves a stopped system with a velocity, and touches neither the physical
    parameters nor the trial records. *)
Theorem animate_frame (timestampMs width height : R) (world : World) :
  let world' := animate timestampMs width height world in
  let s := state world in
  let s' := state world' in
  (St.running s = false -> world' = world) /\
  (St.running s = true ->
     sceneLayout world' = getLayout width height /\
     0 <= St.displacementM s' <= travelMaxM (sceneLayout world') /\
     St.lastFrameMs s' = Some timestampMs /\
     (St.running s' = false -> St.velocityMps s' = 0) /\
     St.massTableKg s' = St.massTableKg s /\
     St.massHangingKg s' = St.massHangingKg s /\
     St.mu s' = St.mu s /\
     St.frictionEnabled s' = St.frictionEnabled s /\
     St.initialVelocityMps s' = St.initialVelocityMps s /\
     St.records s' = St.records s /\
     St.nextTrialId s' = St.nextTrialId s).
Proof.
  intros world' s s'; subst world' s s'; split.
  - intros Hidle; unfold animate; rewrite Hidle; reflexivity.
  - intros Hrun.
    destruct (animate_running timestampMs width height world Hrun)
      as (r' & t' & d' & v' & -> & Hstop & _).
    rewrite renderScene_spec.
    cbn [state sceneLayout withMotion St.running St.lastFrameMs St.timeS
         St.displacementM St.velocityMps St.massTableKg St.massHangingKg
         St.mu St.frictionEnabled St.initialVelocityMps St.records
         St.nextTrialId].
    split; [reflexivity |]; split; [apply rendered_displacement |].
    split; [reflexivity |]; split; [exact Hstop |].
    repeat split.
Qed.

(** X21.  The simulated clock of a running world: the first frame after a
    start (no previous timestamp) adds nothing; a later frame adds at most
    35 ms and at most the time elapsed since the previous frame, and nothing
    negative when the timestamps do not run backwards. *)
Theorem animate_clock (timestampMs width height : R) (world : World) :
  St.running (state world) = true ->
  let advance :=
    St.timeS (state (animate timestampMs width height world))
    - St.timeS (state world) in
  (St.lastFrameMs (state world) = None -> advance = 0) /\
  (forall previous : R,
     St.lastFrameMs (state world) = Some previous ->
     advance <= 0.035 /\
     (previous <= timestampMs ->
      0 <= advance <= (timestampMs - previous) / 1000)).
Proof.
  intros Hrun advance; subst advance.
  destruct (animate_running timestampMs width height world Hrun)
    as (r' & t' & d' & v' & -> & _ & Ht).
  rewrite renderScene_spec.
  cbn [state withMotion St.timeS].
  unfold frameDt in Ht.
  split.
  - intros Hnone; rewrite Hnone in Ht.
    replace ((timestampMs - timestampMs) / 1000) with 0 in Ht by lra.
    rewrite Rmin_right in Ht by lra.
    destruct Ht as [-> | ->]; lra.
  - intros previous Hsome; rewrite Hsome in Ht.
    pose proof (Rmin_l 0.035 ((timestampMs - previous) / 1000)) as H1.
    pose proof (Rmin_r 0.035 ((timestampMs - previous) / 1000)) as H2.
    split.
    + destruct Ht as [-> | ->]; lra.
    + intros Hle.
      assert (H0 : 0 <= Rmin 0.035 ((timestampMs - previous) / 1000))
        by (apply Rmin_glb; lra).
      destruct Ht as [-> | ->]; lra.
Qed.

(** The starting state set running with a previous frame at 0 ms: a frame
    at 16 ms advances the clock by at most 16 ms. *)
Lemma animate_clock_example :
  let world :=
    mkWorld (withMotion initialState true (Some 0) 0 0 0) (getLayout 800 600) in
  St.timeS (state (animate 16 800 600 world)) - St.timeS (state world)
    <= (16 - 0) / 1000.
Proof.
  intros world.
  assert (H16 : 0 <= 16) by lra.
  exact (proj2 (proj2 (proj2 (animate_clock 16 800 600 world eq_refl) 0 eq_refl)
                  H16)).
Defined.

(** *** Static friction, at the start and in a frame *)

Lemma page_gravity : Rmax 0 GRAVITY_MPS2 = 10.
Proof. unfold GRAVITY_MPS2; apply clamp0_pos; lra. Qed.

(** The two solutions of a state with positive masses, near rest or not. *)
Lemma solutions_by_regime (s : St.State) :
  0 < St.massTableKg s -> 0 < St.massHangingKg s ->
  let coeff := Rmax 0 (St.mu s) in
  let drive := St.massHangingKg s * 10 in
  let cap := coeff * St.massTableKg s * 10 in
  (* no friction at work *)
  ((St.frictionEnabled s = false \/ coeff = 0) /\
   Rest.moved (fromRestSolution s) = true /\
   Rest.mode (fromRestSolution s) = frictionless /\
   Dyn.mode (dynamicSolution s) = frictionless)
  \/
  (* friction holds the system from rest *)
  (St.frictionEnabled s = true /\ coeff <> 0 /\ drive <= cap /\
   Rest.moved (fromRestSolution s) = false /\
   Rest.mode (fromRestSolution s) = static_hold /\
   (Rabs (St.velocityMps s) <= VELOCITY_EPSILON ->
    Dyn.mode (dynamicSolution s) = static_hold) /\
   (VELOCITY_EPSILON < Rabs (St.velocityMps s) ->
    Dyn.mode (dynamicSolution s) = kinetic))
  \/
  (* the drive force beats friction *)
  (St.frictionEnabled s = true /\ coeff <> 0 /\ cap < drive /\
   Rest.moved (fromRestSolution s) = true /\
   Rest.mode (fromRestSolution s) = kinetic /\
   Dyn.mode (dynamicSolution s) = kinetic).
Proof.
  intros HT HH coeff drive cap.
  set (ri := Rest.mkInput (St.massTableKg s) (St.massHangingKg s) (St.mu s)
               (St.frictionEnabled s) GRAVITY_MPS2 1).
  set (di := Dyn.mkInput (St.massTableKg s) (St.massHangingKg s) (St.mu s)
               (St.frictionEnabled s) GRAVITY_MPS2 (St.velocityMps s)).
  assert (Hr : fromRestSolution s = calculateHalfAtwoodFromRest ri)
    by reflexivity.
  assert (Hd : dynamicSolution s = resolveDynamicForces di) by reflexivity.
  assert (Hm : 0 < St.massTableKg s + St.massHangingKg s) by lra.
  assert (Hdrive : 0 < drive) by (unfold drive; lra).
  pose proof (fromRest_frictionless ri) as R1.
  pose proof (fromRest_static_hold ri) as R2.
  pose proof (fromRest_kinetic ri) as R3.
  pose proof (dynamic_frictionless di) as D1.
  pose proof (dynamic_rest_static di) as D2.
  pose proof (dynamic_rest_kinetic di) as D3.
  pose proof (dynamic_moving di) as D4.
  cbn [ri di Rest.massTableKg Rest.massHangingKg Rest.mu Rest.frictionEnabled
       Rest.gravity Rest.targetDistanceM Dyn.massTableKg Dyn.massHangingKg
       Dyn.mu Dyn.frictionEnabled Dyn.gravity Dyn.velocityMps]
    in R1, R2, R3, D1, D2, D3, D4.
  rewrite page_gravity, (clamp0_pos _ HT), (clamp0_pos _ HH)
    in R1, R2, R3, D1, D2, D3, D4.
  fold coeff in R1, R2, R3, D1, D2, D3, D4.
  fold drive in R1, R2, R3, D1, D2, D3, D4.
  fold cap in R1, R2, R3, D1, D2, D3, D4.
  cbv zeta in R1, R3, D1, D3, D4.
  rewrite Hr, Hd.
  destruct (St.frictionEnabled s) eqn:Hf;
    [destruct (Req_dec_T coeff 0) as [Hc | Hc] |].
  - left; split; [right; exact Hc |].
    rewrite (R1 Hm (or_intror Hc)), (D1 Hm (or_intror Hc)).
    cbn [Rest.moved Rest.mode Dyn.mode].
    split; [apply gtb_true, quotient_pos; assumption | split; reflexivity].
  - right.
    destruct (Rle_lt_dec drive cap) as [Hle | Hlt].
    + left; split; [reflexivity |]; split; [exact Hc |]; split; [exact Hle |].
      rewrite (R2 Hm eq_refl Hc Hle); cbn [Rest.moved Rest.mode].
      split; [reflexivity |]; split; [reflexivity |]; split.
      * intros Hv; rewrite (D2 Hm eq_refl Hc Hv Hle); reflexivity.
      * intros Hv; rewrite (D4 Hm eq_refl Hc Hv); reflexivity.
    + right; split; [reflexivity |]; split; [exact Hc |]; split; [exact Hlt |].
      rewrite (R3 Hm eq_refl Hc Hlt); cbn [Rest.moved Rest.mode].
      split; [apply gtb_true, quotient_pos; lra |]; split; [reflexivity |].
      destruct (Rle_lt_dec (Rabs (St.velocityMps s)) VELOCITY_EPSILON)
        as [Hv | Hv].
      * rewrite (D3 Hm eq_refl Hc Hv Hlt); reflexivity.
      * rewrite (D4 Hm eq_refl Hc Hv); reflexivity.
  - left; split; [left; reflexivity |].
    rewrite (R1 Hm (or_introl eq_refl)), (D1 Hm (or_introl eq_refl)).
    cbn [Rest.moved Rest.mode Dyn.mode].
    split; [apply gtb_true, quotient_pos; assumption | split; reflexivity].
Qed.

Lemma stiction_tests_agree (s : St.State) :
  0 < St.massTableKg s -> 0 < St.massHangingKg s ->
  Rabs (St.velocityMps s) <= VELOCITY_EPSILON ->
  (isStaticHold (Dyn.mode (dynamicSolution s)) = true
   <-> Rest.moved (fromRestSolution s) = false).
Proof.
  intros HT HH Hv.
  destruct (solutions_by_regime s HT HH)
    as [(_ & -> & _ & ->) | [(_ & _ & _ & -> & _ & Hd & _)
                            | (_ & _ & _ & -> & _ & ->)]];
    [| rewrite (Hd Hv) |]; cbn [isStaticHold];
    split; intros H; try reflexivity; discriminate.
Qed.

(** What [startRun] does to a world that is not running. *)
Lemma startRun_idle (width height : R) (world : World) :
  St.running (state world) = false ->
  exists s1 : St.State,
    fromRestSolution s1 = fromRestSolution (state world) /\
    St.massTableKg s1 = St.massTableKg (state world) /\
    St.massHangingKg s1 = St.massHangingKg (state world) /\
    St.running s1 = false /\
    (s1 = state world \/
     s1 = withMotion (state world) (St.running (state world))
            (St.lastFrameMs (state world)) 0 0
            (St.initialVelocityMps (state world))) /\
    ((Rabs (St.velocityMps s1) <=? VELOCITY_EPSILON)
     && negb (Rest.moved (fromRestSolution (state world))) = true ->
     startRun width height world
       = renderScene width height (mkWorld s1 (sceneLayout world))) /\
    ((Rabs (St.velocityMps s1) <=? VELOCITY_EPSILON)
     && negb (Rest.moved (fromRestSolution (state world))) = false ->
     startRun width height world
       = mkWorld
           (withMotion s1 true None (St.timeS s1) (St.displacementM s1)
              (St.velocityMps s1))
           (sceneLayout world)).
Proof.
  intros Hidle; unfold startRun; rewrite Hidle.
  match goal with
  | |- context [if (?a || ?b)%bool then ?x else ?y] =>
      exists (if (a || b)%bool then x else y); destruct (a || b)%bool
  end;
    (split; [reflexivity |]; split; [reflexivity |]; split; [reflexivity |];
     split; [assumption || reflexivity |];
     split; [(left; reflexivity) || (right; reflexivity) |];
     split; intros ->; reflexivity).
Qed.

(** The first frame of a run: no time has passed since the start, so the
    clock stands, and unless friction holds the system the frame stops the
    run only at the far end of the travel range. *)
Lemma first_frame_after_start
    (timestampMs width height : R) (s : St.State) (layout : Layout) :
  St.running s = true -> St.lastFrameMs s = None ->
  (isStaticHold (Dyn.mode (dynamicSolution s))
   && (Rabs (St.velocityMps s) <=? VELOCITY_EPSILON))%bool = false ->
  let first := state (animate timestampMs width height (mkWorld s layout)) in
  St.timeS first = St.timeS s /\
  (St.running first = false ->
   travelMaxM layout <= St.displacementM s \/
   travelMaxM layout <= travelMinM layout).
Proof.
  intros Hrun Hnone Htest first; subst first.
  unfold animate; cbn [state sceneLayout].
  rewrite Hrun, Hnone, Htest; cbn [negb].
  replace ((timestampMs - timestampMs) / 1000) with 0 by lra.
  rewrite (Rmin_right 0.035 0) by lra.
  rewrite !Rmult_0_r, !Rplus_0_r.
  rewrite renderScene_spec; cbn [state].
  match goal with
  | |- context [if ?c >=? ?m then _ else _] => destruct (c >=? m) eqn:Hend
  end; cbn [withMotion St.timeS St.running].
  - split; [reflexivity | intros _].
    apply geb_spec in Hend.
    destruct (ltb (St.displacementM s) (travelMinM layout));
      [right | left]; exact Hend.
  - split; [reflexivity | discriminate].
Qed.

(** The dynamic solution of a system that slides to the left against
    friction. *)
Lemma moving_left_solution (s : St.State) :
  0 < St.massTableKg s -> 0 < St.massHangingKg s ->
  St.frictionEnabled s = true -> 0 < St.mu s ->
  St.velocityMps s < - VELOCITY_EPSILON ->
  Dyn.mode (dynamicSolution s) = kinetic /\
  Dyn.accelerationMps2 (dynamicSolution s) =
    (St.massHangingKg s * 10 + St.mu s * St.massTableKg s * 10)
    / (St.massTableKg s + St.massHangingKg s).
Proof.
  intros HT HH Hf Hmu Hv.
  pose proof VELOCITY_EPSILON_value as He.
  set (di := Dyn.mkInput (St.massTableKg s) (St.massHangingKg s) (St.mu s)
               (St.frictionEnabled s) GRAVITY_MPS2 (St.velocityMps s)).
  assert (Hd : dynamicSolution s = resolveDynamicForces di) by reflexivity.
  pose proof (dynamic_moving di) as D4.
  cbn [di Dyn.massTableKg Dyn.massHangingKg Dyn.mu Dyn.frictionEnabled
       Dyn.gravity Dyn.velocityMps] in D4.
  rewrite page_gravity, (clamp0_pos _ HT), (clamp0_pos _ HH),
    (clamp0_pos _ Hmu) in D4.
  cbv zeta in D4.
  rewrite Hd, D4; [| lra | exact Hf | lra | rewrite Rabs_left; lra].
  rewrite gtb_false by lra.
  cbn [Dyn.mode Dyn.accelerationMps2]; split; reflexivity.
Qed.



(** The frame of a running system that friction does not hold and that
    stays short of the far end. *)
Lemma frame_moving_on (timestampMs width height : R) (s : St.State)
    (layout : Layout) :
  St.running s = true ->
  (isStaticHold (Dyn.mode (dynamicSolution s))
   && (Rabs (St.velocityMps s) <=? VELOCITY_EPSILON))%bool = false ->
  let dt := frameDt timestampMs s in
  let velocity1 :=
    St.velocityMps s + Dyn.accelerationMps2 (dynamicSolution s) * dt in
  let displacement1 := St.displacementM s + velocity1 * dt in
  let hitsNearEnd := ltb displacement1 (travelMinM layout) in
  let displacement2 :=
    if hitsNearEnd then travelMinM layout else displacement1 in
  let velocity2 :=
    if hitsNearEnd then (if ltb velocity1 0 then 0 else velocity1)
    else velocity1 in
  displacement2 < travelMaxM layout ->
  animate timestampMs width height (mkWorld s layout) =
  renderScene width height
    (mkWorld
       (withMotion s true (Some timestampMs) (St.timeS s + dt) displacement2
          velocity2)
       layout).
Proof.
  intros Hrun Htest dt velocity1 displacement1 hitsNearEnd displacement2
    velocity2 Hend.
  unfold animate; cbn [state sceneLayout].
  rewrite Hrun, Htest; cbn [negb].
  fold (frameDt timestampMs s); fold dt.
  fold velocity1; fold displacement1; fold hitsNearEnd.
  fold displacement2; fold velocity2.
  rewrite (geb_false displacement2 (travelMaxM layout) Hend).
  reflexivity.
Qed.

(** X22.  Static friction is judged the same way at the start and in a
    frame.  For positive masses and a velocity within the epsilon, the
    frame's test (dynamic mode [static_hold]) holds exactly when the from-rest
    solution does not move.  [startRun] on an idle world starts the run
    unless the velocity is within the epsilon and the system does not move
    from rest.  On the state a started run begins with, the static-hold test
    of the frame fails; so the first frame after the start leaves the clock
    where it was and stops the run only if the displacement is at the far
    end of the travel range (a later frame can still stop it by that test,
    once friction has brought the system to rest).  A running system at rest
    that friction holds is stopped by the frame, with zero velocity and the
    clock unchanged. *)
Theorem stiction_at_start_and_in_frame
    (timestampMs width height : R) (world : World) :
  0 < St.massTableKg (state world) ->
  0 < St.massHangingKg (state world) ->
  let s := state world in
  let started := state (startRun width height world) in
  let framed := state (animate timestampMs width height world) in
  let firstFrame :=
    state (animate timestampMs width height (startRun width height world)) in
  (Rabs (St.velocityMps s) <= VELOCITY_EPSILON ->
     (isStaticHold (Dyn.mode (dynamicSolution s)) = true
      <-> Rest.moved (fromRestSolution s) = false)) /\
  (St.running s = false ->
     (St.running started = true <->
      ~ (Rabs (St.velocityMps started) <= VELOCITY_EPSILON /\
         Rest.moved (fromRestSolution s) = false)) /\
     (St.running started = true ->
      ~ (isStaticHold (Dyn.mode (dynamicSolution started)) = true /\
         Rabs (St.velocityMps started) <= VELOCITY_EPSILON)) /\
     (St.running started = true ->
      St.timeS firstFrame = St.timeS started /\
      (St.running firstFrame = false ->
       travelMaxM (sceneLayout world) <= St.displacementM started \/
       travelMaxM (sceneLayout world) <= travelMinM (sceneLayout world)))) /\
  (St.running s = true ->
   Rabs (St.velocityMps s) <= VELOCITY_EPSILON ->
   Rest.moved (fromRestSolution s) = false ->
     St.running framed = false /\
     St.velocityMps framed = 0 /\
     St.timeS framed = St.timeS s).
Proof.
  intros HT HH s started framed firstFrame.
  subst s started framed firstFrame.
  split; [apply stiction_tests_agree; assumption |]; split.
  - intros Hidle.
    destruct (startRun_idle width height world Hidle)
      as (s1 & Hrest & HT1 & HH1 & Hrun1 & _ & Hrefuse & Hstart).
    destruct ((Rabs (St.velocityMps s1) <=? VELOCITY_EPSILON)
              && negb (Rest.moved (fromRestSolution (state world))))%bool
      eqn:Hcond.
    + (* refused *)
      rewrite (Hrefuse eq_refl), renderScene_spec.
      cbn [state withMotion St.running St.velocityMps].
      apply andb_prop in Hcond; destruct Hcond as [Hv Hm].
      apply leb_spec in Hv; apply negb_true_iff in Hm.
      rewrite Hrun1.
      split; [split; [discriminate | tauto] |].
      split; discriminate.
    + (* started *)
      rewrite (Hstart eq_refl).
      set (s2 := withMotion s1 true None (St.timeS s1) (St.displacementM s1)
                   (St.velocityMps s1)).
      cbn [state].
      assert (Hnot : ~ (Rabs (St.velocityMps s2) <= VELOCITY_EPSILON /\
                        Rest.moved (fromRestSolution (state world)) = false)).
      { intros [Hv Hm].
        change (St.velocityMps s2) with (St.velocityMps s1) in Hv.
        rewrite (leb_true _ _ Hv), Hm in Hcond; discriminate. }
      assert (HT2 : 0 < St.massTableKg s2) by (cbn; rewrite HT1; exact HT).
      assert (HH2 : 0 < St.massHangingKg s2) by (cbn; rewrite HH1; exact HH).
      assert (Hfree : ~ (isStaticHold (Dyn.mode (dynamicSolution s2)) = true /\
                         Rabs (St.velocityMps s2) <= VELOCITY_EPSILON)).
      { intros [Hhold Hv].
        apply (stiction_tests_agree s2 HT2 HH2 Hv) in Hhold.
        apply Hnot; split; [exact Hv |].
        rewrite <- Hrest; exact Hhold. }
      split; [split; [intros _; exact Hnot | reflexivity] |].
      split; [intros _; exact Hfree |].
      intros _.
      apply (first_frame_after_start timestampMs width height s2
               (sceneLayout world) eq_refl eq_refl).
      destruct (isStaticHold (Dyn.mode (dynamicSolution s2))) eqn:Hhold;
        [| reflexivity].
      cbn [andb]; apply leb_false.
      apply Rnot_le_lt; intros Hv; apply Hfree; split; [reflexivity | exact Hv].
  - intros Hrun Hv Hstuck.
    apply (stiction_tests_agree _ HT HH Hv) in Hstuck.
    unfold animate; rewrite Hrun, Hstuck, (leb_true _ _ Hv).
    cbn [negb andb]; rewrite renderScene_spec.
    cbn [state withMotion St.running St.velocityMps St.timeS].
    repeat split.
Qed.

(** The page's starting state (2.5 kg, 1.2 kg, mu 0.2) with the table mass
    raised to 10 kg: 12 N of drive against a friction cap of 20 N, so a
    running world at rest is stopped by the next frame. *)
Lemma stiction_example :
  let s :=
    St.mkState 10 1.2 0 true 0.2 true true 0 0 0 None 1 [] in
  let world := mkWorld s (getLayout 800 600) in
  St.running (state (animate 16 800 600 world)) = false.
Proof.
  intros s world.
  assert (HT : 0 < St.massTableKg (state world))
    by (cbn [world s state St.massTableKg]; lra).
  assert (HH : 0 < St.massHangingKg (state world))
    by (cbn [world s state St.massHangingKg]; lra).
  assert (Hv : Rabs (St.velocityMps (state world)) <= VELOCITY_EPSILON).
  { cbn [world s state St.velocityMps]; rewrite Rabs_R0.
    rewrite VELOCITY_EPSILON_value; lra. }
  assert (Hstuck : Rest.moved (fromRestSolution (state world)) = false).
  { destruct (solutions_by_regime (state world) HT HH)
      as [([Hf | Hc] & _) | [(_ & _ & _ & Hm & _) | (_ & _ & Hlt & _)]];
      cbn [world s state St.frictionEnabled St.mu St.massTableKg
           St.massHangingKg] in *.
    - discriminate.
    - rewrite (clamp0_pos 0.2) in Hc by lra; lra.
    - exact Hm.
    - rewrite (clamp0_pos 0.2) in Hlt by lra; lra. }
  exact (proj1 (proj2 (proj2 (stiction_at_start_and_in_frame 16 800 600 world
                                HT HH))
                  eq_refl Hv Hstuck)).
Defined.

(** A later frame can hold a run that was started.  10 kg on the table,
    1.2 kg hanging, mu 0.2 (12 N of drive against a friction cap of 20 N),
    started at the near end with an initial velocity of -1 m/s: the run
    starts, the first frame (0 ms) leaves it moving, the second (16 ms)
    brings it back to the near end and to rest, and the third (32 ms)
    stops it by the static-hold test. *)
Lemma friction_stops_a_later_frame :
  let s0 := St.mkState 10 1.2 (-1) true 0.2 true false 0 0 (-1) None 1 [] in
  let idle := mkWorld s0 (getLayout 800 600) in
  let started := startRun 800 600 idle in
  let frame1 := animate 0 800 600 started in
  let frame2 := animate 16 800 600 frame1 in
  let frame3 := animate 32 800 600 frame2 in
  St.running (state started) = true /\
  St.running (state frame1) = true /\
  (St.running (state frame2) = true /\ St.velocityMps (state frame2) = 0) /\
  St.running (state frame3) = false.
Proof.
  intros s0 idle started frame1 frame2 frame3.
  pose proof VELOCITY_EPSILON_value as He.
  destruct (layout_range 800 600) as [Hmin Hmax].
  set (L := getLayout 800 600) in *.
  assert (HT : forall r l t d v, 0 < St.massTableKg (withMotion s0 r l t d v))
    by (intros; cbn; lra).
  assert (HH : forall r l t d v, 0 < St.massHangingKg (withMotion s0 r l t d v))
    by (intros; cbn; lra).
  assert (Hleft : forall r l t d v, v < - VELOCITY_EPSILON ->
            Dyn.mode (dynamicSolution (withMotion s0 r l t d v)) = kinetic /\
            Dyn.accelerationMps2 (dynamicSolution (withMotion s0 r l t d v))
              = (1.2 * 10 + 0.2 * 10 * 10) / (10 + 1.2)).
  { intros r l t d v Hv.
    apply (moving_left_solution (withMotion s0 r l t d v));
      cbn; try lra; reflexivity. }
  assert (Hstarted : started = mkWorld (withMotion s0 true None 0 0 (-1)) L).
  { subst started; unfold startRun.
    cbn [idle state sceneLayout s0 St.running St.displacementM St.lastFrameMs
         St.initialVelocityMps St.velocityMps St.timeS].
    fold s0. fold L.
    rewrite (geb_false 0 (travelMaxM L - 1e-6)) by lra.
    cbn [andb orb].
    destruct (Hleft false None 0 0 (-1) ltac:(lra)) as [_ Ha].
    change (withMotion s0 false None 0 0 (-1)) with s0 in Ha.
    rewrite Ha.
    rewrite (leb_false ((1.2 * 10 + 0.2 * 10 * 10) / (10 + 1.2)) 0).
    2:{ apply Rdiv_lt_0_compat; lra. }
    rewrite andb_false_r.
    rewrite (leb_false (Rabs (St.velocityMps s0)) VELOCITY_EPSILON).
    2:{ cbn [s0 St.velocityMps]; rewrite Rabs_left; lra. }
    cbn [andb]. reflexivity. }
  set (A := (1.2 * 10 + 0.2 * 10 * 10) / (10 + 1.2)) in *.
  assert (HA : 2.8 < A < 2.9) by (unfold A; lra).
  assert (Hstep : forall ts l t d v,
            v < - VELOCITY_EPSILON ->
            let dt := frameDt ts (withMotion s0 true l t d v) in
            let v1 := v + A * dt in
            let d1 := d + v1 * dt in
            (0 <= d1 < 0.2 ->
             animate ts 800 600 (mkWorld (withMotion s0 true l t d v) L)
               = mkWorld (withMotion s0 true (Some ts) (t + dt) d1 v1) L) /\
            (d1 < 0 -> v1 < 0 ->
             animate ts 800 600 (mkWorld (withMotion s0 true l t d v) L)
               = mkWorld (withMotion s0 true (Some ts) (t + dt) 0 0) L)).
  { intros ts l t d v Hv dt v1 d1.
    destruct (Hleft true l t d v Hv) as [Hmode Ha].
    assert (Htest : (isStaticHold
                       (Dyn.mode (dynamicSolution (withMotion s0 true l t d v)))
                     && (Rabs (St.velocityMps (withMotion s0 true l t d v))
                         <=? VELOCITY_EPSILON))%bool = false)
      by (rewrite Hmode; reflexivity).
    pose proof (frame_moving_on ts 800 600 (withMotion s0 true l t d v) L
                  eq_refl Htest) as Hframe.
    cbv zeta in Hframe; rewrite Ha in Hframe.
    cbn [withMotion St.velocityMps St.displacementM St.timeS] in Hframe.
    fold (withMotion s0 true l t d v) in Hframe.
    fold dt in Hframe; fold v1 in Hframe; fold d1 in Hframe.
    rewrite Hmin in Hframe.
    split.
    - intros Hd; rewrite (ltb_false d1 0) in Hframe by lra.
      rewrite Hframe by lra.
      rewrite renderScene_spec; cbn [state]; fold L.
      rewrite clamp_inside by (cbn [withMotion St.displacementM]; lra).
      reflexivity.
    - intros Hd Hv1.
      rewrite (ltb_true d1 0 Hd), (ltb_true v1 0 Hv1) in Hframe.
      rewrite Hframe by lra.
      rewrite renderScene_spec; cbn [state]; fold L.
      rewrite clamp_inside by (cbn [withMotion St.displacementM]; lra).
      reflexivity. }
  assert (Hframe1 : frame1 = mkWorld (withMotion s0 true (Some 0) 0 0 (-1)) L).
  { subst frame1; rewrite Hstarted.
    destruct (Hstep 0 None 0 0 (-1) ltac:(lra)) as [Hon _].
    cbv zeta in Hon.
    assert (Hdt : frameDt 0 (withMotion s0 true None 0 0 (-1)) = 0).
    { unfold frameDt; cbn [withMotion St.lastFrameMs].
      replace ((0 - 0) / 1000) with 0 by lra.
      apply Rmin_right; lra. }
    rewrite Hdt in Hon; rewrite Hon by lra.
    f_equal; unfold withMotion; f_equal; lra. }
  assert (Hframe2 : exists time2,
            frame2 = mkWorld (withMotion s0 true (Some 16) time2 0 0) L).
  { subst frame2; rewrite Hframe1.
    destruct (Hstep 16 (Some 0) 0 0 (-1) ltac:(lra)) as [_ Hback].
    cbv zeta in Hback.
    assert (Hdt : frameDt 16 (withMotion s0 true (Some 0) 0 0 (-1)) = 0.016).
    { unfold frameDt; cbn [withMotion St.lastFrameMs].
      replace ((16 - 0) / 1000) with 0.016 by lra.
      apply Rmin_right; lra. }
    rewrite Hdt in Hback; rewrite Hback by lra.
    eexists; reflexivity. }
  destruct Hframe2 as [time2 Hframe2].
  assert (Hframe3 : St.running (state frame3) = false).
  { subst frame3; rewrite Hframe2.
    set (s2 := withMotion s0 true (Some 16) time2 0 0).
    assert (Hv2 : Rabs (St.velocityMps s2) <= VELOCITY_EPSILON)
      by (cbn [s2 withMotion St.velocityMps]; rewrite Rabs_R0; lra).
    assert (Hstuck : Rest.moved (fromRestSolution s2) = false).
    { destruct (solutions_by_regime s2 (HT _ _ _ _ _) (HH _ _ _ _ _))
        as [([Hf | Hc] & _) | [(_ & _ & _ & Hm & _) | (_ & _ & Hlt & _)]];
        cbn [s2 s0 withMotion St.frictionEnabled St.mu St.massTableKg
             St.massHangingKg] in *.
      - discriminate.
      - rewrite (clamp0_pos 0.2) in Hc by lra; lra.
      - exact Hm.
      - rewrite (clamp0_pos 0.2) in Hlt by lra; lra. }
    apply (stiction_tests_agree s2 (HT _ _ _ _ _) (HH _ _ _ _ _) Hv2)
      in Hstuck.
    unfold animate; cbn [state sceneLayout].
    change (St.running s2) with true; cbn [negb].
    rewrite Hstuck, (leb_true _ _ Hv2); cbn [andb].
    rewrite renderScene_spec; reflexivity. }
  rewrite Hstarted, Hframe1, Hframe2.
  cbn [state withMotion St.running St.velocityMps].
  split; [reflexivity |]; split; [reflexivity |].
  split; [split; reflexivity | exact Hframe3].
Qed.

(** *** Every world the page reaches *)

Lemma parameters_withMotion (s : St.State) (r : bool) (l : option R)
    (t d v : R) :
  atwoodParametersSound (withMotion s r l t d v) <-> atwoodParametersSound s.
Proof. reflexivity. Qed.

Lemma records_withMotion (s : St.State) (r : bool) (l : option R)
    (t d v : R) :
  atwoodRecordsSound (withMotion s r l t d v) <-> atwoodRecordsSound s.
Proof. reflexivity. Qed.

Lemma renderScene_sound (width height : R) (world : World) :
  atwoodParametersSound (state world) ->
  atwoodRecordsSound (state world) ->
  atwoodWorldSound (renderScene width height world).
Proof.
  intros Hp Hr; rewrite renderScene_spec; unfold atwoodWorldSound.
  cbn [state sceneLayout].
  split; [apply parameters_withMotion; exact Hp |].
  split; [apply records_withMotion; exact Hr |].
  unfold atwoodGeometrySound; cbn [state sceneLayout withMotion St.displacementM].
  destruct (layout_range width height) as [H0 Hmax].
  split; [exact H0 |]; split; [exact Hmax | apply rendered_displacement].
Qed.

Lemma readInputs_parameters (inputs : Inputs) (s : St.State) :
  atwoodParametersSound (readInputsIntoState inputs s).
Proof.
  unfold atwoodParametersSound, readInputsIntoState.
  cbn [St.massTableKg St.massHangingKg St.initialVelocityMps St.mu].
  repeat split; try (apply clamp_ge_min; lra); apply clamp_le_max.
Qed.

Lemma readInputs_sound (inputs : Inputs) (world : World) :
  atwoodWorldSound world ->
  atwoodWorldSound (onState (readInputsIntoState inputs) world).
Proof.
  intros (_ & Hr & Hg); split; [apply readInputs_parameters |].
  split; [exact Hr | exact Hg].
Qed.

Lemma rest_moved_iff (input : Rest.Input) :
  Rest.moved (calculateHalfAtwoodFromRest input) = true
  <-> 0 < Rest.accelerationMps2 (calculateHalfAtwoodFromRest input).
Proof.
  destruct (fromRest_cases input)
    as [[Hz Hr] | [[Hm Hr] | [(Hm & Hd & Hr) | (Hm & Hd & Hr)]]];
    rewrite Hr; clear Hr; cbv zeta; cbn [Rest.moved Rest.accelerationMps2];
    try apply gtb_spec; split; intros H; try discriminate; lra.
Qed.

Lemma atwood_recordTrial_sound (s : St.State) :
  atwoodParametersSound s -> atwoodRecordsSound s ->
  atwoodRecordsSound (recordTrial s).
Proof.
  intros (HT & HH & HV & HM) (Hpos & Hids & Hrows).
  unfold atwoodRecordsSound, recordTrial.
  cbn [St.nextTrialId St.records map Trial.id idsDescendBelow].
  split; [lia |]; split.
  - split; [lia |]; revert Hids; apply ids_weaken; lia.
  - constructor; [| exact Hrows].
    unfold atwoodRowSound.
    cbn [Trial.massTableKg Trial.massHangingKg Trial.mu Trial.moved
         Trial.accel].
    split; [exact HT |]; split; [exact HH |]; split.
    + destruct (St.frictionEnabled s); lra.
    + apply rest_moved_iff.
Qed.

Lemma clearTrials_sound (s : St.State) : atwoodRecordsSound (clearTrials s).
Proof.
  unfold atwoodRecordsSound, clearTrials.
  cbn [St.nextTrialId St.records map idsDescendBelow].
  split; [lia |]; split; [exact I | constructor].
Qed.

Lemma preset_parameters (preset : Preset) (s : St.State) :
  atwoodParametersSound
    (resetMotion
       match preset with
       | baseline => withParameters s 2.5 1.2 false 0.2 0
       | packet => withParameters s 2.5 1.8 true 0.2 0
       | cliff => withParameters s 1000 50 false 0.2 0
       end).
Proof.
  destruct preset; unfold atwoodParametersSound;
    cbn [resetMotion withMotion withParameters St.massTableKg
         St.massHangingKg St.initialVelocityMps St.mu];
    lra.
Qed.

Lemma startRun_sound (width height : R) (world : World) :
  atwoodWorldSound world -> atwoodWorldSound (startRun width height world).
Proof.
  intros (Hp & Hr & Hg).
  destruct (St.running (state world)) eqn:Hrun.
  { unfold startRun; rewrite Hrun.
    split; [exact Hp | split; [exact Hr | exact Hg]]. }
  destruct (startRun_idle width height world Hrun)
    as (s1 & _ & _ & _ & _ & Hs1 & Hrefuse & Hstart).
  assert (Hp1 : atwoodParametersSound s1)
    by (destruct Hs1 as [-> | ->]; exact Hp).
  assert (Hr1 : atwoodRecordsSound s1)
    by (destruct Hs1 as [-> | ->]; exact Hr).
  destruct ((Rabs (St.velocityMps s1) <=? VELOCITY_EPSILON)
            && negb (Rest.moved (fromRestSolution (state world))))%bool.
  - rewrite (Hrefuse eq_refl); apply renderScene_sound; assumption.
  - rewrite (Hstart eq_refl); unfold atwoodWorldSound; cbn [state sceneLayout].
    split; [apply parameters_withMotion; exact Hp1 |].
    split; [apply records_withMotion; exact Hr1 |].
    destruct Hg as (H0 & Hmax & Hd).
    unfold atwoodGeometrySound;
      cbn [state sceneLayout withMotion St.displacementM].
    split; [exact H0 |]; split; [exact Hmax |].
    destruct Hs1 as [-> | ->]; [exact Hd |].
    cbn [withMotion St.displacementM]; lra.
Qed.

Lemma animate_sound (timestampMs width height : R) (world : World) :
  atwoodWorldSound world ->
  atwoodWorldSound (animate timestampMs width height world).
Proof.
  intros (Hp & Hr & Hg).
  destruct (St.running (state world)) eqn:Hrun.
  - destruct (animate_running timestampMs width height world Hrun)
      as (r' & t' & d' & v' & -> & _).
    apply renderScene_sound; cbn [state];
      [apply parameters_withMotion | apply records_withMotion]; assumption.
  - unfold animate; rewrite Hrun; cbn [negb].
    split; [exact Hp | split; [exact Hr | exact Hg]].
Qed.

Lemma atwood_handle_sound (event : Event) (world : World) :
  atwoodWorldSound world -> atwoodWorldSound (handle event world).
Proof.
  intros H; pose proof H as (Hp & Hr & Hg).
  destruct event as [inputs w h | inputs w h | | inputs w h | inputs | | preset w h
                    | w h | w h | t w h]; cbn [handle].
  - unfold refreshFromInputs.
    destruct (negb (St.running (state world)));
      apply renderScene_sound; cbn [state];
      repeat first [apply parameters_withMotion | apply records_withMotion];
      first [apply readInputs_parameters | exact Hr].
  - apply startRun_sound, readInputs_sound; exact H.
  - unfold pauseRun, atwoodWorldSound; cbn [state sceneLayout].
    split; [apply parameters_withMotion; exact Hp |].
    split; [apply records_withMotion; exact Hr | exact Hg].
  - unfold resetRun; apply renderScene_sound; cbn [state onState];
      [apply parameters_withMotion, readInputs_parameters
      | apply records_withMotion; exact Hr].
  - unfold onState, atwoodWorldSound; cbn [state sceneLayout].
    split; [apply readInputs_parameters |]; split.
    + apply atwood_recordTrial_sound; [apply readInputs_parameters | exact Hr].
    + exact Hg.
  - unfold onState, atwoodWorldSound; cbn [state sceneLayout].
    split; [exact Hp |]; split; [apply clearTrials_sound | exact Hg].
  - unfold applyPreset; apply renderScene_sound; cbn [state];
      [apply preset_parameters |].
    apply records_withMotion; destruct preset; exact Hr.
  - apply renderScene_sound; assumption.
  - apply renderScene_sound; assumption.
  - apply animate_sound; exact H.
Qed.

Lemma init_sound (width height : R) : atwoodWorldSound (init width height).
Proof.
  unfold init; apply renderScene_sound; cbn [state].
  - unfold atwoodParametersSound, resetMotion, initialState.
    cbn [withMotion St.massTableKg St.massHangingKg St.initialVelocityMps
         St.mu]; lra.
  - unfold atwoodRecordsSound, resetMotion, initialState.
    cbn [withMotion St.nextTrialId St.records map idsDescendBelow].
    split; [lia |]; split; [exact I | constructor].
Qed.

(** X23.  In every world the half-Atwood page can reach, the masses, the
    initial velocity and the friction coefficient are inside the ranges of
    their inputs (so the total mass is positive and [mu] at most 1), the
    travel range starts at 0 and is at least 0.2 m long, the displacement
    lies inside it, the trial ids are positive, strictly descending from the
    newest row and below [nextTrialId], and every row holds parameters in
    range and is marked moved exactly when its acceleration is positive. *)
Theorem reachable_atwood_world_sound (world : World) :
  Reachable world -> atwoodWorldSound world.
Proof.
  induction 1 as [width height | event world _ IH].
  - apply init_sound.
  - apply atwood_handle_sound; exact IH.
Qed.

(** The packet preset, started, after one frame. *)
Lemma reachable_atwood_example :
  atwoodWorldSound
    (handle (Frame 16 800 600)
       (handle (StartClicked (mkInputs (Some 2.5) (Some 1.8) (Some 0) true
                                (Some 0.2) true) 800 600)
          (init 800 600))).
Proof.
  apply reachable_atwood_world_sound.
  apply reach_step, reach_step, reach_init.
Defined.

(** *** The trial table *)

(** X24.  A recorded row is consistent with its own columns.  [recordTrial]
    puts one row at the head of the records with the next free id; the row
    shows the masses of the state and a friction coefficient of 0 when
    friction is switched off.  For positive masses and [mu >= 0] its
    acceleration is [max(0, 10 (mH - mu mT) / (mT + mH))] in terms of the
    row's own mass and [mu] columns, its tension is [mH (10 - accel)], and it
    is marked moved exactly when the acceleration is positive. *)
Theorem recorded_row_consistent (s : St.State) :
  0 < St.massTableKg s -> 0 < St.massHangingKg s -> 0 <= St.mu s ->
  exists row : Trial.Row,
    St.records (recordTrial s) = row :: St.records s /\
    Trial.id row = St.nextTrialId s /\
    St.nextTrialId (recordTrial s) = (St.nextTrialId s + 1)%Z /\
    Trial.massTableKg row = St.massTableKg s /\
    Trial.massHangingKg row = St.massHangingKg s /\
    (St.frictionEnabled s = false -> Trial.mu row = 0) /\
    (St.frictionEnabled s = true -> Trial.mu row = St.mu s) /\
    Trial.accel row =
      Rmax 0 (10 * (Trial.massHangingKg row
                    - Trial.mu row * Trial.massTableKg row)
              / (Trial.massTableKg row + Trial.massHangingKg row)) /\
    Trial.tension row = Trial.massHangingKg row * (10 - Trial.accel row) /\
    (Trial.moved row = true <-> 0 < Trial.accel row).
Proof.
  intros HT HH HM.
  eexists; split; [reflexivity |].
  cbn [Trial.id Trial.massTableKg Trial.massHangingKg Trial.mu Trial.accel
       Trial.tension Trial.moved].
  split; [reflexivity |]; split; [reflexivity |].
  split; [reflexivity |]; split; [reflexivity |].
  split; [intros ->; reflexivity |]; split; [intros ->; reflexivity |].
  split; [| split; [| apply rest_moved_iff]].
  - (* the acceleration *)
    set (ri := Rest.mkInput (St.massTableKg s) (St.massHangingKg s) (St.mu s)
                 (St.frictionEnabled s) GRAVITY_MPS2 1).
    change (fromRestSolution s) with (calculateHalfAtwoodFromRest ri).
    assert (Hm : 0 < St.massTableKg s + St.massHangingKg s) by lra.
    assert (Hc : Rmax 0 (St.mu s) = St.mu s) by (apply Rmax_right; exact HM).
    pose proof (fromRest_frictionless ri) as R1.
    pose proof (fromRest_static_hold ri) as R2.
    pose proof (fromRest_kinetic ri) as R3.
    cbn [ri Rest.massTableKg Rest.massHangingKg Rest.mu Rest.frictionEnabled
         Rest.gravity Rest.targetDistanceM] in R1, R2, R3.
    rewrite page_gravity, (clamp0_pos _ HT), (clamp0_pos _ HH), Hc
      in R1, R2, R3.
    cbv zeta in R1, R3.
    set (t := St.massTableKg s + St.massHangingKg s) in *.
    assert (Hpos : forall x, 0 < x -> Rmax 0 (x / t) = x / t).
    { intros x Hx; apply Rmax_right; left; apply quotient_pos; assumption. }
    destruct (St.frictionEnabled s) eqn:Hf;
      [destruct (Req_dec_T (St.mu s) 0) as [H0 | H0] |].
    + rewrite (R1 Hm (or_intror H0)); cbn [Rest.accelerationMps2].
      rewrite H0, Hpos by lra; f_equal; ring.
    + destruct (Rle_lt_dec (St.massHangingKg s * 10)
                  (St.mu s * St.massTableKg s * 10)) as [Hle | Hlt].
      * rewrite (R2 Hm eq_refl H0 Hle); cbn [Rest.accelerationMps2].
        symmetry; apply Rmax_left.
        apply Rmult_le_reg_r with t; [exact Hm |].
        replace (10 * (St.massHangingKg s - St.mu s * St.massTableKg s) / t * t)
          with (10 * (St.massHangingKg s - St.mu s * St.massTableKg s))
          by (field; lra).
        lra.
      * rewrite (R3 Hm eq_refl H0 Hlt); cbn [Rest.accelerationMps2].
        rewrite Hpos by lra; f_equal; ring.
    + rewrite (R1 Hm (or_introl eq_refl)); cbn [Rest.accelerationMps2].
      rewrite Hpos by lra; f_equal; ring.
  - (* the tension *)
    unfold fromRestSolution.
    match goal with
    | |- context [calculateHalfAtwoodFromRest ?i] =>
        destruct (fromRest_cases i)
          as [[Hz Hr] | [[Hm Hr] | [(Hm & Hd & Hr) | (Hm & Hd & Hr)]]];
        cbn [Rest.massTableKg Rest.massHangingKg Rest.gravity Rest.mu] in *;
        rewrite page_gravity, ?(clamp0_pos _ HT), ?(clamp0_pos _ HH) in *;
        rewrite Hr; cbv zeta; cbn [Rest.tensionN Rest.accelerationMps2]
    end; lra.
Qed.

(** The packet preset (2.5 kg, 1.8 kg, mu 0.2): the row shows the
    acceleration (18 - 5) / 4.3. *)
Lemma recorded_row_example :
  let s := St.mkState 2.5 1.8 0 true 0.2 true false 0 0 0 None 1 [] in
  exists row : Trial.Row,
    St.records (recordTrial s) = [row] /\
    Trial.accel row = Rmax 0 (10 * (1.8 - 0.2 * 2.5) / (2.5 + 1.8)).
Proof.
  intros s.
  assert (HT : 0 < St.massTableKg s) by (cbn [s St.massTableKg]; lra).
  assert (HH : 0 < St.massHangingKg s) by (cbn [s St.massHangingKg]; lra).
  assert (HM : 0 <= St.mu s) by (cbn [s St.mu]; lra).
  destruct (recorded_row_consistent s HT HH HM)
    as (row & Hrec & _ & _ & HrT & HrH & _ & Hmu & Hacc & _).
  exists row; split; [exact Hrec |].
  rewrite Hacc, HrT, HrH, (Hmu eq_refl); reflexivity.
Defined.

(** *** Presets and arrows *)

(** X25.  Every preset can be started: after [applyPreset] the motion is
    reset (at rest at the origin, clock at zero, not running), the from-rest
    solution moves, and [startRun] sets the world running. *)
Theorem preset_then_start_runs
    (preset : Preset) (width height width' height' : R) (world : World) :
  let loaded := applyPreset preset width height world in
  let started := startRun width' height' loaded in
  St.running (state loaded) = false /\
  St.velocityMps (state loaded) = 0 /\
  St.displacementM (state loaded) = 0 /\
  St.timeS (state loaded) = 0 /\
  Rest.moved (fromRestSolution (state loaded)) = true /\
  St.running (state started) = true /\
  St.velocityMps (state started) = 0 /\
  St.displacementM (state started) = 0.
Proof.
  intros loaded started.
  assert (Hzero : clamp 0 0 (travelMaxM (getLayout width height)) = 0).
  { destruct (layout_range width height) as [_ Hmax].
    apply clamp_inside; lra. }
  assert (Hl : St.running (state loaded) = false /\
               St.velocityMps (state loaded) = 0 /\
               St.displacementM (state loaded) = 0 /\
               St.timeS (state loaded) = 0 /\
               St.initialVelocityMps (state loaded) = 0).
  { subst loaded; unfold applyPreset; rewrite renderScene_spec.
    destruct preset;
      cbn [state resetMotion withMotion withParameters St.running
           St.velocityMps St.displacementM St.timeS St.initialVelocityMps];
      rewrite Hzero; repeat split. }
  destruct Hl as (Hrun & Hv & Hd & Ht & Hv0).
  assert (HT : 0 < St.massTableKg (state loaded))
    by (subst loaded; unfold applyPreset; rewrite renderScene_spec;
        destruct preset;
        cbn [state resetMotion withMotion withParameters St.massTableKg];
        lra).
  assert (HH : 0 < St.massHangingKg (state loaded))
    by (subst loaded; unfold applyPreset; rewrite renderScene_spec;
        destruct preset;
        cbn [state resetMotion withMotion withParameters St.massHangingKg];
        lra).
  assert (Hmoved : Rest.moved (fromRestSolution (state loaded)) = true).
  { destruct (solutions_by_regime (state loaded) HT HH)
      as [(_ & Hm & _) | [(Hf & _ & Hle & _) | (_ & _ & _ & Hm & _)]];
      [exact Hm | exfalso | exact Hm].
    revert Hf Hle; subst loaded; unfold applyPreset; rewrite renderScene_spec.
    destruct preset;
      cbn [state resetMotion withMotion withParameters St.frictionEnabled
           St.mu St.massTableKg St.massHangingKg];
      intros Hf Hle; try discriminate.
    rewrite (clamp0_pos 0.2) in Hle by lra; lra. }
  split; [exact Hrun |]; split; [exact Hv |]; split; [exact Hd |].
  split; [exact Ht |]; split; [exact Hmoved |].
  subst started.
  destruct (startRun_idle width' height' loaded Hrun)
    as (s1 & _ & _ & _ & _ & Hs1 & _ & Hstart).
  assert (Hv1 : St.velocityMps s1 = 0)
    by (destruct Hs1 as [-> | ->]; [exact Hv | exact Hv0]).
  assert (Hd1 : St.displacementM s1 = 0)
    by (destruct Hs1 as [-> | ->]; [exact Hd | reflexivity]).
  rewrite Hstart by (rewrite Hmoved; apply andb_false_r).
  cbn [state withMotion St.running St.velocityMps St.displacementM].
  split; [reflexivity |]; split; assumption.
Qed.

(** X26.  [arrowScale] depends only on the size of its argument, grows with
    it, and stays between 0.1 and 2.5, so an arrow of the free-body diagram,
    [18 + 28 * arrowScale(force / 20)] long, measures between 20.8 and 88
    pixels. *)
Theorem arrowScale_bounds (value other : R) :
  0.1 <= arrowScale value <= 2.5 /\
  arrowScale (- value) = arrowScale value /\
  (Rabs value <= Rabs other -> arrowScale value <= arrowScale other) /\
  (0.1 <= Rabs value <= 2.5 -> arrowScale value = Rabs value) /\
  20.8 <= 18 + 28 * arrowScale (value / 20) <= 88.
Proof.
  assert (Hb : forall v, 0.1 <= arrowScale v <= 2.5)
    by (intros v; apply clamp_between; lra).
  split; [apply Hb |]; split; [unfold arrowScale; rewrite Rabs_Ropp; reflexivity |].
  split.
  - intros Hle; unfold arrowScale, clamp.
    apply Rle_min_compat_l, Rle_max_compat_l; exact Hle.
  - split; [intros Hin; apply clamp_inside; exact Hin |].
    pose proof (Hb (value / 20)); lra.
Qed.

End HalfAtwoodAppFacts.
